(** * Secure File Share: encrypted object store, lifecycle ledger and access gate

    A shallow embedding of the server side of the repository:
    - [lib/encryption.js]   (class EncryptionService),
    - [lib/deviceManager.js] (class DeviceManager),
    - [lib/database.js]     (the three tables),
    - [routes/auth.js], [routes/devices.js], [routes/files.js] (the Express
      routers mounted under /api/auth, /api/devices and /api/files),
    - [index.js] (the initial API key, the mounting of the routers and the
      catch-all).

    Handlers are functions in a state-and-exception monad over a [World]
    holding the three SQL tables and the uploads directory.  Everything the
    handlers draw from their surroundings (the clock, uuidv4, randomBytes)
    is an explicit input in [Env]; the cryptographic primitives of Node's
    [crypto] module are the members of the class [Platform].

    The setting is the default one of the repository: Node 18 (the
    Dockerfile's base image), the SQLite backend ([DB_TYPE] unset) and a
    server clock in UTC.  A string is a sequence of code units below 256.
    Requests are handled one at a time; the rate limiter, CORS and helmet
    middleware of index.js stand outside the model. *)

From Stdlib Require Import ZArith List String Ascii Bool Lia DecimalString.
From stdpp Require Import gmap strings list fin_maps.

Local Open Scope Z_scope.

(** A Buffer is a sequence of octets, each an integer in 0..255. *)
Abbreviation bytes := (list Z).

(** ** Exceptions

    A JavaScript computation either returns a value or throws; [Thrown]
    carries the message of the Error. *)
Inductive result (A : Type) : Type :=
| Ok (a : A)
| Thrown (message : string).
Arguments Ok {A} a.
Arguments Thrown {A} message.

(** ** The platform

    Node's [crypto] module and Buffer codecs.

    [createCipher_final password plaintext] is what
    [crypto.createCipher('aes-256-gcm', password, options)] yields after
    [update], [final] and [getAuthTag]: the ciphertext and the authentication
    tag.  [createCipher(algorithm, password[, options])] derives the cipher
    key and the IV from [password] alone; its third argument is a stream
    options object, so nothing in it reaches the cipher.
    [createDecipher_final password tag ciphertext] is the matching
    [crypto.createDecipher] after [setAuthTag], [update] and [final]: [None]
    when [final] (or [setAuthTag]) throws. *)
Class Platform := {
  sha256_hex : string → string;
  base64_encode : bytes → string;
  base64_decode : string → bytes;
  hex_encode : bytes → string;
  createCipher_final : bytes → bytes → bytes * bytes;
  createDecipher_final : bytes → bytes → bytes → option bytes;
}.

(** ** lib/encryption.js *)
Module EncryptionService.
Section WithPlatform.
Context {P : Platform}.

Definition keyLength : nat := 32.
Definition ivLength : nat := 16.
Definition tagLength : nat := 16.

(** [generateKey()]: [random] is the output of
    [crypto.randomBytes(this.keyLength)]. *)
Definition generateKey (random : bytes) : string := base64_encode random.

(** [encryptFile(buffer, keyBase64)]: [iv] is the output of
    [crypto.randomBytes(this.ivLength)].  The call is
    [crypto.createCipher(this.algorithm, key, iv)], so [iv] lands in the
    options position. *)
Definition encryptFile (buffer : bytes) (keyBase64 : string) (iv : bytes)
  : result bytes :=
  let key := base64_decode keyBase64 in
  let '(encrypted, tag) := createCipher_final key buffer in
  Ok (iv ++ tag ++ encrypted).

(** The tag lengths [setAuthTag] takes in GCM mode. *)
Definition valid_tag_length (n : nat) : bool :=
  match n with
  | 4 | 8 | 12 | 13 | 14 | 15 | 16 => true
  | _ => false
  end%nat.

Definition decimal (n : nat) : string := NilEmpty.string_of_uint (Nat.to_uint n).

(** [decryptFile(encryptedBuffer, keyBase64)].  [Buffer.slice] clamps its
    bounds to the buffer, as [take] and [drop] do. *)
Definition decryptFile (encryptedBuffer : bytes) (keyBase64 : string)
  : result bytes :=
  let key := base64_decode keyBase64 in
  let iv := take ivLength encryptedBuffer in
  let tag := take tagLength (drop ivLength encryptedBuffer) in
  let encrypted := drop (ivLength + tagLength) encryptedBuffer in
  if negb (valid_tag_length (length tag)) then
    Thrown ("Decryption failed: Invalid authentication tag length: "
            +:+ decimal (length tag))
  else
    match createDecipher_final key tag encrypted with
    | Some decrypted => Ok decrypted
    | None =>
        Thrown "Decryption failed: Unsupported state or unable to authenticate data"
    end.

(** [generateFingerprint(publicKey)]: the first 16 hex digits. *)
Definition generateFingerprint (publicKey : string) : string :=
  substring 0 16 (sha256_hex publicKey).

Definition hashApiKey (apiKey : string) : string := sha256_hex apiKey.

(** [generateApiKey()]: [random] is [crypto.randomBytes(32)]. *)
Definition generateApiKey (random : bytes) : string := hex_encode random.

End WithPlatform.
End EncryptionService.

(** Flipping bit [i] of a buffer: bit [i mod 8] of octet [i / 8]. *)
Definition flip_bit (i : nat) (buffer : bytes) : bytes :=
  alter (λ b, Z.lxor b (Z.shiftl 1 (Z.of_nat (i mod 8)))) (i / 8)%nat buffer.

(** ** JavaScript and SQLite values *)

(** [parseInt(string)] with no radix: leading white space, an optional sign,
    an optional 0x prefix, then the longest run of digits, read as a
    Number; [None] is NaN. *)
Module JS.

Definition is_space (c : ascii) : bool :=
  let n := nat_of_ascii c in
  ((n =? 32) || ((9 <=? n) && (n <=? 13)) || (n =? 160))%nat.

Fixpoint skip_spaces (s : string) : string :=
  match s with
  | String c rest => if is_space c then skip_spaces rest else s
  | EmptyString => s
  end.

Definition digit_value (c : ascii) : option Z :=
  let n := Z.of_nat (nat_of_ascii c) in
  if (48 <=? n) && (n <=? 57) then Some (n - 48)
  else if (97 <=? n) && (n <=? 122) then Some (n - 87)
  else if (65 <=? n) && (n <=? 90) then Some (n - 55)
  else None.

Fixpoint digits (radix : Z) (s : string) (acc : option Z) : option Z :=
  match s with
  | String c rest =>
      match digit_value c with
      | Some d =>
          if d <? radix
          then digits radix rest (Some (radix * default 0 acc + d))
          else acc
      | None => acc
      end
  | EmptyString => acc
  end.

(** The Number nearest to an integer: the integer itself below 2^53, and
    beyond that its 53 leading bits, rounded to nearest with ties to even.
    An integer past the largest Number stands for Infinity; the server
    uses its numbers in a date and as LIMIT and OFFSET, where it fails as
    Infinity does. *)
Definition to_double (n : Z) : Z :=
  let a := Z.abs n in
  if a <? 2 ^ 53 then n
  else
    let e := Z.log2 a - 52 in
    let q := a / 2 ^ e in
    let r := a mod 2 ^ e in
    let half := 2 ^ (e - 1) in
    let q' := if (half <? r) || ((r =? half) && Z.odd q) then q + 1 else q in
    Z.sgn n * (q' * 2 ^ e).

Definition parseInt (s : string) : option Z :=
  let s := skip_spaces s in
  let '(sign, s) :=
    match s with
    | String "-" rest => (-1, rest)
    | String "+" rest => (1, rest)
    | _ => (1, s)
    end in
  let '(radix, s) :=
    match s with
    | String "0" (String "x" rest) => (16, rest)
    | String "0" (String "X" rest) => (16, rest)
    | _ => (10, s)
    end in
  (λ v, to_double (sign * v)) <$> digits radix s None.

(** Truthiness of a string-valued property that may be absent. *)
Definition truthy (v : option string) : bool :=
  match v with
  | Some s => negb (String.eqb s EmptyString)
  | None => false
  end.

(** [a || b] on such properties. *)
Definition or_else (a b : option string) : option string :=
  if truthy a then a else b.

(** [string.split(',')]. *)
Fixpoint split_comma_aux (s : string) (current : string) : list string :=
  match s with
  | EmptyString => [current]
  | String c rest =>
      if Ascii.eqb c ","
      then current :: split_comma_aux rest EmptyString
      else split_comma_aux rest (current +:+ String c EmptyString)
  end.
Definition split_comma (s : string) : list string := split_comma_aux s EmptyString.

(** [array.includes(x)] on an array of strings. *)
Definition includes (x : string) (l : list string) : bool :=
  existsb (String.eqb x) l.

End JS.

(** ** Time

    A time value is the number of milliseconds since the epoch, as in
    [Date.prototype.getTime].  The server's local time zone is UTC. *)
Module Date.

Definition maxTime : Z := 8640000000000000.

(** A Date whose time value left the representable range is an Invalid
    Date; [None] stands for it. *)
Definition make (t : Z) : option Z :=
  if (- maxTime <=? t) && (t <=? maxTime) then Some t else None.

(** [d.setMinutes(d.getMinutes() + n)] and its siblings: [n] is [None]
    when the argument is NaN. *)
Definition add (unit : Z) (d : Z) (n : option Z) : option Z :=
  n ≫= λ n, make (d + unit * n).
Definition addSeconds := add 1000.
Definition addMinutes := add 60000.
Definition addHours := add 3600000.

(** Proleptic Gregorian calendar date (year, month, day) of a day number
    counted from 1970-01-01. *)
Definition civil_from_days (days : Z) : Z * Z * Z :=
  let z := days + 719468 in
  let era := z / 146097 in
  let doe := z - era * 146097 in
  let yoe := (doe - doe / 1460 + doe / 36524 - doe / 146096) / 365 in
  let doy := doe - (365 * yoe + yoe / 4 - yoe / 100) in
  let mp := (5 * doy + 2) / 153 in
  let d := doy - (153 * mp + 2) / 5 + 1 in
  let m := if mp <? 10 then mp + 3 else mp - 9 in
  let y := yoe + era * 400 + (if m <=? 2 then 1 else 0) in
  (y, m, d).

Definition digit (d : Z) : ascii := ascii_of_nat (48 + Z.to_nat d).

(** The last [width] decimal digits of [n], zero padded. *)
Fixpoint pad (width : nat) (n : Z) : string :=
  match width with
  | O => EmptyString
  | S w => pad w (n / 10) +:+ String (digit (n mod 10)) EmptyString
  end.

Definition year_string (y : Z) : string :=
  if (0 <=? y) && (y <=? 9999) then pad 4 y
  else (if y <? 0 then "-" else "+") +:+ pad 6 (Z.abs y).

Definition clock_string (ms_of_day : Z) : string :=
  pad 2 (ms_of_day / 3600000) +:+ ":" +:+
  pad 2 (ms_of_day / 60000 mod 60) +:+ ":" +:+
  pad 2 (ms_of_day / 1000 mod 60).

(** [Date.prototype.toISOString] of a valid time value:
    YYYY-MM-DDTHH:mm:ss.sssZ. *)
Definition iso_string (t : Z) : string :=
  let '(y, m, d) := civil_from_days (t / 86400000) in
  year_string y +:+ "-" +:+ pad 2 m +:+ "-" +:+ pad 2 d +:+ "T" +:+
  clock_string (t mod 86400000) +:+ "." +:+ pad 3 (t mod 1000) +:+ "Z".

(** [toISOString] throws a RangeError on an Invalid Date. *)
Definition toISOString (d : option Z) : result string :=
  match d with
  | Some t => Ok (iso_string t)
  | None => Thrown "Invalid time value"
  end.

End Date.

(** SQLite's [CURRENT_TIMESTAMP] and [datetime('now')]: the text
    YYYY-MM-DD HH:MM:SS in UTC. *)
Module SQLite.

Definition datetime (now : Z) : string :=
  let '(y, m, d) := Date.civil_from_days (now / 86400000) in
  Date.pad 4 y +:+ "-" +:+ Date.pad 2 m +:+ "-" +:+ Date.pad 2 d +:+ " " +:+
  Date.clock_string (now mod 86400000).

(** Comparison of two TEXT values under the BINARY collation. *)
Definition text_lt (a b : string) : bool :=
  match String.compare a b with
  | Lt => true
  | _ => false
  end.
Definition text_gt (a b : string) : bool := text_lt b a.

End SQLite.

(** Node's POSIX [path] module, on the paths the server builds. *)
Module Path.

Definition join (dir name : string) : string := dir +:+ "/" +:+ name.

(** The text after the last slash. *)
Fixpoint basename_aux (s : string) (current : string) : string :=
  match s with
  | EmptyString => current
  | String c rest =>
      if Ascii.eqb c "/"
      then basename_aux rest EmptyString
      else basename_aux rest (current +:+ String c EmptyString)
  end.
Definition basename (p : string) : string := basename_aux p EmptyString.

(** Index of the last dot of [s], counted from [i]. *)
Fixpoint last_dot (s : string) (i : nat) (found : option nat) : option nat :=
  match s with
  | EmptyString => found
  | String c rest =>
      last_dot rest (S i) (if Ascii.eqb c "." then Some i else found)
  end.

(** [path.extname]: from the last dot of the last path segment, unless
    that dot opens the segment or the segment is "..". *)
Definition extname (p : string) : string :=
  let b := basename p in
  if String.eqb b ".." then EmptyString
  else match last_dot b 0 None with
       | Some (S i) => substring (S i) (String.length b - S i) b
       | _ => EmptyString
       end.

End Path.

(** busboy's [basename], which multer applies to the file name a part
    carries before it sets [file.originalname]: the text after the last
    slash or backslash, and nothing for "." and "..". *)
Module Busboy.

Definition is_separator (c : ascii) : bool :=
  Ascii.eqb c "/" || Ascii.eqb c (ascii_of_nat 92).

Fixpoint basename_aux (s : string) (current : string) : string :=
  match s with
  | EmptyString => current
  | String c rest =>
      if is_separator c
      then basename_aux rest EmptyString
      else basename_aux rest (current +:+ String c EmptyString)
  end.

Definition basename (p : string) : string :=
  let b := basename_aux p EmptyString in
  if String.eqb b ".." || String.eqb b "." then EmptyString else b.

End Busboy.


(** ** lib/database.js: the tables

    A row is a record of its columns, under the column names of
    [createTables].  BOOLEAN columns hold 0 or 1 and are [bool] here.
    [upload_time], [created_at] and [last_seen] hold the text of
    [CURRENT_TIMESTAMP].  [files.expires_at] holds the text that
    [toISOString] produced, kept as the time value it renders;
    [api_keys.expires_at] holds the time value of the bound Date. *)
Module Device.
Record row := {
  id : string;
  name : string;
  ip_address : string;
  fingerprint : option string;
  last_seen : string;
  is_trusted : bool;
  created_at : string;
}.
Definition set_name (v : string) (r : row) : row :=
  {| id := id r; name := v; ip_address := ip_address r;
     fingerprint := fingerprint r; last_seen := last_seen r;
     is_trusted := is_trusted r; created_at := created_at r |}.
Definition set_is_trusted (v : bool) (r : row) : row :=
  {| id := id r; name := name r; ip_address := ip_address r;
     fingerprint := fingerprint r; last_seen := last_seen r;
     is_trusted := v; created_at := created_at r |}.
(** SET name = ?, ip_address = ?, fingerprint = ?, last_seen = CURRENT_TIMESTAMP *)
Definition set_sighting (n ip fp seen : string) (r : row) : row :=
  {| id := id r; name := n; ip_address := ip;
     fingerprint := Some fp; last_seen := seen;
     is_trusted := is_trusted r; created_at := created_at r |}.
End Device.

Module File.
Record row := {
  id : string;
  filename : string;
  original_name : string;
  size : Z;
  mime_type : string;
  device_id : string;
  encryption_key : string;
  upload_time : string;
  expires_at : option Z;
  download_count : Z;
  is_deleted : bool;
}.
Definition set_download_count (v : Z) (r : row) : row :=
  {| id := id r; filename := filename r; original_name := original_name r;
     size := size r; mime_type := mime_type r; device_id := device_id r;
     encryption_key := encryption_key r; upload_time := upload_time r;
     expires_at := expires_at r; download_count := v;
     is_deleted := is_deleted r |}.
Definition set_is_deleted (v : bool) (r : row) : row :=
  {| id := id r; filename := filename r; original_name := original_name r;
     size := size r; mime_type := mime_type r; device_id := device_id r;
     encryption_key := encryption_key r; upload_time := upload_time r;
     expires_at := expires_at r; download_count := download_count r;
     is_deleted := v |}.
End File.

Module ApiKey.
Record row := {
  id : string;
  key_hash : string;
  device_id : string;
  permissions : string;
  created_at : string;
  expires_at : option Z;
  is_active : bool;
}.
Definition set_is_active (v : bool) (r : row) : row :=
  {| id := id r; key_hash := key_hash r; device_id := device_id r;
     permissions := permissions r; created_at := created_at r;
     expires_at := expires_at r; is_active := v |}.
End ApiKey.

(** The database and the uploads directory (path to contents). *)
Record World := {
  devices : list Device.row;
  files : list File.row;
  api_keys : list ApiKey.row;
  disk : gmap string bytes;
}.

Definition with_devices (v : list Device.row) (w : World) : World :=
  {| devices := v; files := files w; api_keys := api_keys w; disk := disk w |}.
Definition with_files (v : list File.row) (w : World) : World :=
  {| devices := devices w; files := v; api_keys := api_keys w; disk := disk w |}.
Definition with_api_keys (v : list ApiKey.row) (w : World) : World :=
  {| devices := devices w; files := files w; api_keys := v; disk := disk w |}.
Definition with_disk (v : gmap string bytes) (w : World) : World :=
  {| devices := devices w; files := files w; api_keys := api_keys w; disk := v |}.

(** [process.env] and the identity that [DeviceManager.initialize] loaded. *)
Record Config := {
  uploadsDir : string;
  MAX_FILE_AGE : option string;
  deviceId : string;
  deviceName : string;
  publicKey : string;
  localIP : string;
}.

(** What one request draws from the clock and the random sources. *)
Record Env := {
  now : Z;
  uuid_stored : string;   (* uuidv4() in multer's filename callback *)
  uuid_file : string;     (* uuidv4() for fileId *)
  uuid_device : string;   (* uuidv4() for a new device id *)
  uuid_key : string;      (* uuidv4() for keyId *)
  random_key : bytes;     (* randomBytes(32) of generateKey *)
  random_iv : bytes;      (* randomBytes(16) of encryptFile *)
  random_api_key : bytes; (* randomBytes(32) of generateApiKey *)
}.

Inductive Method := GET | POST | PUT | DELETE.

(** The multipart part named [file], as the client sent it. *)
Record Upload := {
  originalname : string;
  mimetype : string;
  content : bytes;
}.

(** [req.file], once multer has stored the part. *)
Record StoredFile := {
  file_path : string;
  file_originalname : string;
  file_mimetype : string;
  file_size : Z;
}.

(** An HTTP request: [path] lists the segments below /api; [query] and
    [body] are [req.query] and [req.body] with string values;
    [expiresInHours] is the JSON number of that name in the body. *)
Record Request := {
  method : Method;
  path : list string;
  ip : string;
  user_agent : option string;
  x_api_key : option string;
  query : gmap string string;
  body : gmap string string;
  expiresInHours : option Z;
  upload : option Upload;
}.

(** [req.apiKey], set by [authenticateRequest]. *)
Record Principal := {
  key_id : string;
  principal_device : string;
  principal_permissions : list string;
}.

Record FileView := {
  view_id : string;
  view_filename : string;
  view_size : Z;
  view_mimeType : string;
  view_deviceId : string;
  view_deviceName : option string;
  view_deviceIp : option string;
  view_uploadTime : string;
  view_expiresAt : option string;
  view_downloadCount : Z;
}.

Record DeviceView := {
  dv_id : string;
  dv_name : string;
  dv_ipAddress : string;
  dv_fingerprint : option string;
  dv_lastSeen : string;
  dv_isTrusted : bool;
  dv_createdAt : string;
  dv_isSelf : bool;
}.

Record ApiKeyView := {
  kv_id : string;
  kv_deviceId : string;
  kv_deviceName : option string;
  kv_permissions : list string;
  kv_createdAt : string;
  kv_expiresAt : option Z;
  kv_isActive : bool;
}.

Inductive Payload :=
| ErrorBody (error : string)
| SuccessBody
| FilesBody (listing : list FileView)
| FileInfoBody (info : FileView)
| DownloadBody (data : bytes) (contentType filename device uploadTime : string)
| UploadedBody (fileId filename : string) (size : Z) (mimeType device : string)
    (expiresAt : option string) (uploadTime : string)
| CleanupBody (cleanedFiles expiredFiles : nat)
| DevicesBody (listing : list DeviceView)
| DeviceBody (device : DeviceView)
| IdentityBody (id name address key : string)
| StatsBody (device : string) (totalFiles totalSize totalDownloads : Z)
    (lastUpload : option string) (activeFiles : Z)
| RegisteredBody (device : string)
| ApiKeysBody (listing : list ApiKeyView)
| ApiKeyBody (apiKey keyId : string) (permissions : list string)
    (expiresAt : option Z)
| ValidBody (keyId device : string) (permissions : list string)
| HealthBody (timestamp : string)
| ExpressPage.

Record Response := {
  status : Z;
  payload : Payload;
}.

Definition json (p : Payload) : Response := {| status := 200; payload := p |}.
Definition error (code : Z) (message : string) : Response :=
  {| status := code; payload := ErrorBody message |}.
(** The HTML page of Express's final handler: Cannot METHOD path for a
    request that no route takes, the error page for an error handed to
    [next]. *)
Definition page (code : Z) : Response :=
  {| status := code; payload := ExpressPage |}.

(** ** The handler monad: state passing with exceptions

    A thrown exception keeps the state reached so far: nothing the handlers
    do is wrapped in a transaction. *)
Definition M (A : Type) : Type := World → result A * World.

Definition ret {A} (a : A) : M A := λ w, (Ok a, w).
Definition throw {A} (message : string) : M A := λ w, (Thrown message, w).
Definition bind {A B} (m : M A) (k : A → M B) : M B :=
  λ w, match m w with
       | (Ok a, w') => k a w'
       | (Thrown e, w') => (Thrown e, w')
       end.
Definition try_catch {A} (m : M A) (handler : string → M A) : M A :=
  λ w, match m w with
       | (Ok a, w') => (Ok a, w')
       | (Thrown e, w') => handler e w'
       end.
Definition gets {A} (f : World → A) : M A := λ w, (Ok (f w), w).
Definition modify (f : World → World) : M unit := λ w, (Ok tt, f w).
Definition lift {A} (r : result A) : M A := λ w, (r, w).

#[global] Instance M_ret : MRet M := @ret.
#[global] Instance M_bind : MBind M := λ A B k m, bind m k.

(** *** fs *)
Module fs.
Definition existsSync (p : string) : M bool :=
  gets (λ w, bool_decide (is_Some (disk w !! p))).
Definition readFileSync (p : string) : M bytes :=
  λ w, match disk w !! p with
       | Some data => (Ok data, w)
       | None => (Thrown "ENOENT: no such file or directory", w)
       end.
Definition writeFileSync (p : string) (data : bytes) : M unit :=
  modify (λ w, with_disk (<[p := data]> (disk w)) w).
Definition unlinkSync (p : string) : M unit :=
  λ w, match disk w !! p with
       | Some _ => (Ok tt, with_disk (delete p (disk w)) w)
       | None => (Thrown "ENOENT: no such file or directory", w)
       end.
End fs.


(** *** db: the statements the server issues

    [INSERT] appends a row unless the PRIMARY KEY is taken; [UPDATE ...
    WHERE] rewrites the matching rows in place and reports how many matched
    ([result.changes]); [db.get] yields the first matching row.  SQLite
    leaves FOREIGN KEY clauses unenforced unless [PRAGMA foreign_keys] is
    switched on, which the server never does. *)
Module db.

Definition insert_device (r : Device.row) : M unit :=
  λ w, if existsb (λ r', String.eqb (Device.id r') (Device.id r)) (devices w)
       then (Thrown "SQLITE_CONSTRAINT: UNIQUE constraint failed: devices.id", w)
       else (Ok tt, with_devices (devices w ++ [r]) w).

Definition insert_file (r : File.row) : M unit :=
  λ w, if existsb (λ r', String.eqb (File.id r') (File.id r)) (files w)
       then (Thrown "SQLITE_CONSTRAINT: UNIQUE constraint failed: files.id", w)
       else (Ok tt, with_files (files w ++ [r]) w).

Definition insert_api_key (r : ApiKey.row) : M unit :=
  λ w, if existsb (λ r', String.eqb (ApiKey.id r') (ApiKey.id r)) (api_keys w)
       then (Thrown "SQLITE_CONSTRAINT: UNIQUE constraint failed: api_keys.id", w)
       else (Ok tt, with_api_keys (api_keys w ++ [r]) w).

Definition update_where {A} (p : A → bool) (f : A → A) (rows : list A) : list A :=
  map (λ r, if p r then f r else r) rows.
Definition changes {A} (p : A → bool) (rows : list A) : nat :=
  length (List.filter p rows).

Definition update_devices (p : Device.row → bool) (f : Device.row → Device.row)
  : M nat :=
  λ w, (Ok (changes p (devices w)),
        with_devices (update_where p f (devices w)) w).
Definition update_files (p : File.row → bool) (f : File.row → File.row)
  : M nat :=
  λ w, (Ok (changes p (files w)), with_files (update_where p f (files w)) w).
Definition update_api_keys (p : ApiKey.row → bool) (f : ApiKey.row → ApiKey.row)
  : M nat :=
  λ w, (Ok (changes p (api_keys w)),
        with_api_keys (update_where p f (api_keys w)) w).

Definition delete_devices (p : Device.row → bool) : M unit :=
  modify (λ w, with_devices (List.filter (λ r, negb (p r)) (devices w)) w).

(** [a LEFT JOIN b ON ...]: every row of [a], paired with each of its
    matches in [b], or with NULL when it has none. *)
Definition left_join {A B} (on : A → B → bool) (a : list A) (b : list B)
  : list (A * option B) :=
  flat_map (λ x, match List.filter (on x) b with
                 | [] => [(x, None)]
                 | ys => map (λ y, (x, Some y)) ys
                 end) a.

(** [ORDER BY key DESC] on a TEXT column.  The order SQLite gives rows
    with equal keys depends on the plan of the query; here they keep their
    table order, and no theorem below depends on it. *)
Fixpoint insert_desc {A} (key : A → string) (x : A) (l : list A) : list A :=
  match l with
  | [] => [x]
  | y :: l' =>
      if SQLite.text_lt (key x) (key y) then y :: insert_desc key x l'
      else x :: l
  end.
Definition order_by_desc {A} (key : A → string) (l : list A) : list A :=
  foldr (insert_desc key) [] l.

(** [LIMIT ? OFFSET ?] with bound numbers.  A Number is bound as a double
    (NaN as NULL), and SQLite takes a double for an integer when it is one
    strictly between the smallest and the largest 64-bit integer; anything
    else, NULL included, is a datatype mismatch.  A negative limit is no
    limit, a negative offset is 0. *)
Definition int64 (n : option Z) : result Z :=
  match n with
  | Some n => if (- 2 ^ 63 <? n) && (n <? 2 ^ 63) then Ok n
              else Thrown "SQLITE_MISMATCH: datatype mismatch"
  | None => Thrown "SQLITE_MISMATCH: datatype mismatch"
  end.
Definition limit_offset {A} (limit offset : Z) (rows : list A) : list A :=
  let rows := drop (Z.to_nat offset) rows in
  if limit <? 0 then rows else take (Z.to_nat limit) rows.

End db.

(** [x === y] on strings. *)
Notation "x === y" := (String.eqb x y) (at level 70, no associativity).

(** ** lib/deviceManager.js *)
Module DeviceManager.
Section WithPlatform.
Context {P : Platform} (cfg : Config) (env : Env).

Definition getLocalIP : string := localIP cfg.

(** [registerDevice()]: the node's own record. *)
Definition registerDevice : M unit :=
  let ip := getLocalIP in
  let fingerprint := EncryptionService.generateFingerprint (publicKey cfg) in
  existing ← gets (λ w, List.find (λ r, Device.id r === deviceId cfg) (devices w));
  match existing with
  | Some _ =>
      db.update_devices (λ r, Device.id r === deviceId cfg)
        (Device.set_sighting (deviceName cfg) ip fingerprint
           (SQLite.datetime (now env)));;
      mret tt
  | None =>
      db.insert_device
        {| Device.id := deviceId cfg; Device.name := deviceName cfg;
           Device.ip_address := ip; Device.fingerprint := Some fingerprint;
           Device.last_seen := SQLite.datetime (now env);
           Device.is_trusted := true;
           Device.created_at := SQLite.datetime (now env) |}
  end.

(** [addDiscoveredDevice(deviceInfo)] *)
Definition addDiscoveredDevice (deviceId' deviceName' ipAddress publicKey' : string)
  : M unit :=
  if deviceId' === deviceId cfg then mret tt
  else
    let fingerprint := EncryptionService.generateFingerprint publicKey' in
    existing ← gets (λ w, List.find (λ r, Device.id r === deviceId') (devices w));
    match existing with
    | Some _ =>
        db.update_devices (λ r, Device.id r === deviceId')
          (Device.set_sighting deviceName' ipAddress fingerprint
             (SQLite.datetime (now env)));;
        mret tt
    | None =>
        db.insert_device
          {| Device.id := deviceId'; Device.name := deviceName';
             Device.ip_address := ipAddress;
             Device.fingerprint := Some fingerprint;
             Device.last_seen := SQLite.datetime (now env);
             Device.is_trusted := false;
             Device.created_at := SQLite.datetime (now env) |}
    end.

Definition getDevices : M (list Device.row) :=
  gets (λ w, db.order_by_desc Device.last_seen (devices w)).

Definition getDevice (deviceId' : string) : M (option Device.row) :=
  gets (λ w, List.find (λ r, Device.id r === deviceId') (devices w)).

Definition trustDevice (deviceId' : string) : M unit :=
  db.update_devices (λ r, Device.id r === deviceId') (Device.set_is_trusted true);;
  mret tt.

Definition untrustDevice (deviceId' : string) : M unit :=
  db.update_devices (λ r, Device.id r === deviceId') (Device.set_is_trusted false);;
  mret tt.

Definition deleteDevice (deviceId' : string) : M unit :=
  if deviceId' === deviceId cfg then throw "Cannot delete own device"
  else db.delete_devices (λ r, Device.id r === deviceId').

End WithPlatform.
End DeviceManager.

(** ** Express plumbing

    [Ctx] is what middleware has attached to the request so far:
    [req.apiKey] and [req.file].  A middleware either ends the request with
    a response or calls [next()]. *)
Record Ctx := {
  req_apiKey : option Principal;
  req_file : option StoredFile;
  req_params : list string;
}.

Inductive Next :=
| Respond (r : Response)
| Continue (ctx : Ctx).

Definition with_apiKey (p : Principal) (ctx : Ctx) : Ctx :=
  {| req_apiKey := Some p; req_file := req_file ctx; req_params := req_params ctx |}.
Definition with_file (f : StoredFile) (ctx : Ctx) : Ctx :=
  {| req_apiKey := req_apiKey ctx; req_file := Some f; req_params := req_params ctx |}.

(** [req.params.x] for the first and only parameter of a route. *)
Definition param (ctx : Ctx) : string := default EmptyString (head (req_params ctx)).

(** ** routes/auth.js *)
Module Auth.
Section WithPlatform.
Context {P : Platform} (cfg : Config) (env : Env).

(** [keyRecord.expires_at && new Date() > new Date(keyRecord.expires_at)]:
    the column holds a number, and 0 is falsy. *)
Definition key_expired (r : ApiKey.row) : bool :=
  match ApiKey.expires_at r with
  | Some t => negb (t =? 0) && (t <? now env)
  | None => false
  end.

(** SELECT * FROM api_keys WHERE key_hash = ? AND is_active = 1 *)
Definition active_key (keyHash : string) : M (option ApiKey.row) :=
  gets (λ w, List.find (λ r, (ApiKey.key_hash r === keyHash) && ApiKey.is_active r)
               (api_keys w)).

(** POST /bootstrap *)
Definition bootstrap (req : Request) (ctx : Ctx) : M Response :=
  try_catch
    (count ← gets (λ w, length (List.filter ApiKey.is_active (api_keys w)));
     if (0 <? count)%nat then
       mret (error 400 "Admin API keys already exist. Use the admin interface to create more keys.")
     else
       let apiKey := EncryptionService.generateApiKey (random_api_key env) in
       let keyHash := EncryptionService.hashApiKey apiKey in
       let keyId := uuid_key env in
       db.insert_api_key
         {| ApiKey.id := keyId; ApiKey.key_hash := keyHash;
            ApiKey.device_id := deviceId cfg;
            ApiKey.permissions := "read,write,admin";
            ApiKey.created_at := SQLite.datetime (now env);
            ApiKey.expires_at := None; ApiKey.is_active := true |};;
       mret (json (ApiKeyBody apiKey keyId ["read"; "write"; "admin"] None)))
    (λ _, mret (error 500 "Failed to create bootstrap API key")).

(** POST /validate *)
Definition validate (req : Request) (ctx : Ctx) : M Response :=
  try_catch
    (let apiKey := body req !! "apiKey" in
     if negb (JS.truthy apiKey) then mret (error 400 "API key required")
     else
       let keyHash := EncryptionService.hashApiKey (default EmptyString apiKey) in
       keyRecord ← active_key keyHash;
       match keyRecord with
       | None => mret (error 401 "Invalid API key")
       | Some keyRecord =>
           if key_expired keyRecord then mret (error 401 "API key expired")
           else mret (json (ValidBody (ApiKey.id keyRecord)
                              (ApiKey.device_id keyRecord)
                              (JS.split_comma (ApiKey.permissions keyRecord))))
       end)
    (λ _, mret (error 500 "Validation failed")).

(** GET /api-keys *)
Definition list_keys (req : Request) (ctx : Ctx) : M Response :=
  try_catch
    (keys ← gets (λ w,
       db.order_by_desc (λ kd, ApiKey.created_at kd.1)
         (List.filter (λ kd, ApiKey.is_active kd.1)
            (db.left_join (λ k d, ApiKey.device_id k === Device.id d)
               (api_keys w) (devices w))));
     mret (json (ApiKeysBody
       (map (λ kd : ApiKey.row * option Device.row,
          {| kv_id := ApiKey.id kd.1;
             kv_deviceId := ApiKey.device_id kd.1;
             kv_deviceName := Device.name <$> kd.2;
             kv_permissions := JS.split_comma (ApiKey.permissions kd.1);
             kv_createdAt := ApiKey.created_at kd.1;
             kv_expiresAt := ApiKey.expires_at kd.1;
             kv_isActive := ApiKey.is_active kd.1 |}) keys))))
    (λ _, mret (error 500 "Failed to list API keys")).

(** DELETE /api-keys/:keyId *)
Definition revoke (req : Request) (ctx : Ctx) : M Response :=
  try_catch
    (let keyId := param ctx in
     db.update_api_keys (λ r, ApiKey.id r === keyId) (ApiKey.set_is_active false);;
     mret (json SuccessBody))
    (λ _, mret (error 500 "Failed to revoke API key")).

(** [req.headers['x-api-key'] || req.query.apiKey] *)
Definition presented_key (req : Request) : option string :=
  JS.or_else (x_api_key req) (query req !! "apiKey").

(** [authenticateRequest(req, res, next)] *)
Definition authenticateRequest (req : Request) (ctx : Ctx) : M Next :=
  try_catch
    (let apiKey := presented_key req in
     if negb (JS.truthy apiKey) then
       mret (Respond (error 401 "API key required"))
     else
       let keyHash := EncryptionService.hashApiKey (default EmptyString apiKey) in
       keyRecord ← active_key keyHash;
       match keyRecord with
       | None => mret (Respond (error 401 "Invalid API key"))
       | Some keyRecord =>
           if key_expired keyRecord then
             mret (Respond (error 401 "API key expired"))
           else
             mret (Continue (with_apiKey
               {| key_id := ApiKey.id keyRecord;
                  principal_device := ApiKey.device_id keyRecord;
                  principal_permissions :=
                    JS.split_comma (ApiKey.permissions keyRecord) |} ctx))
       end)
    (λ _, mret (Respond (error 500 "Authentication failed"))).

(** [requirePermission(permission)] *)
Definition requirePermission (permission : string) (req : Request) (ctx : Ctx)
  : M Next :=
  match req_apiKey ctx with
  | Some key =>
      if JS.includes permission (principal_permissions key)
      then mret (Continue ctx)
      else mret (Respond (error 403 ("Permission '" +:+ permission +:+ "' required")))
  | None => mret (Respond (error 403 ("Permission '" +:+ permission +:+ "' required")))
  end.

(** POST /api-key, behind [authenticateRequest] and
    [requirePermission('write')].  A Date outside the representable range
    is bound as NaN, which SQLite stores as NULL. *)
Definition generate (req : Request) (ctx : Ctx) : M Response :=
  try_catch
    (let deviceId' := body req !! "deviceId" in
     let permissions := default "read,write" (body req !! "permissions") in
     let apiKey := EncryptionService.generateApiKey (random_api_key env) in
     let keyHash := EncryptionService.hashApiKey apiKey in
     let keyId := uuid_key env in
     let expiresAt :=
       match expiresInHours req with
       | Some h => if h =? 0 then None else Date.addHours (now env) (Some h)
       | None => None
       end in
     db.insert_api_key
       {| ApiKey.id := keyId; ApiKey.key_hash := keyHash;
          ApiKey.device_id :=
            (if JS.truthy deviceId' then default EmptyString deviceId' else deviceId cfg);
          ApiKey.permissions := permissions;
          ApiKey.created_at := SQLite.datetime (now env);
          ApiKey.expires_at := expiresAt; ApiKey.is_active := true |};;
     mret (json (ApiKeyBody apiKey keyId (JS.split_comma permissions) expiresAt)))
    (λ _, mret (error 500 "Failed to generate API key")).

End WithPlatform.
End Auth.

(** ** routes/devices.js *)
Module Devices.
Section WithPlatform.
Context {P : Platform} (cfg : Config) (env : Env).

Definition view (device : Device.row) : DeviceView :=
  {| dv_id := Device.id device;
     dv_name := Device.name device;
     dv_ipAddress := Device.ip_address device;
     dv_fingerprint := Device.fingerprint device;
     dv_lastSeen := Device.last_seen device;
     dv_isTrusted := Device.is_trusted device;
     dv_createdAt := Device.created_at device;
     dv_isSelf := Device.id device === deviceId cfg |}.

(** GET / *)
Definition list_devices (req : Request) (ctx : Ctx) : M Response :=
  try_catch
    (devices ← DeviceManager.getDevices;
     mret (json (DevicesBody (map view devices))))
    (λ _, mret (error 500 "Failed to list devices")).

(** GET /me *)
Definition me (req : Request) (ctx : Ctx) : M Response :=
  mret (json (IdentityBody (deviceId cfg) (deviceName cfg)
                (DeviceManager.getLocalIP cfg) (publicKey cfg))).

(** GET /:deviceId *)
Definition get_device (req : Request) (ctx : Ctx) : M Response :=
  try_catch
    (device ← DeviceManager.getDevice (param ctx);
     match device with
     | None => mret (error 404 "Device not found")
     | Some device => mret (json (DeviceBody (view device)))
     end)
    (λ _, mret (error 500 "Failed to get device")).

(** [name.trim()], on the white space [JS.is_space] knows. *)
Fixpoint trim_end (s : string) : string :=
  match s with
  | EmptyString => EmptyString
  | String c rest =>
      match trim_end rest with
      | EmptyString => if JS.is_space c then EmptyString else String c EmptyString
      | rest' => String c rest'
      end
  end.
Definition trim (s : string) : string := trim_end (JS.skip_spaces s).

(** PUT /:deviceId *)
Definition update_device (req : Request) (ctx : Ctx) : M Response :=
  try_catch
    (let deviceId' := param ctx in
     match body req !! "name" with
     | None => mret (error 400 "Valid device name required")
     | Some name =>
         if (name === EmptyString) || (trim name === EmptyString) then
           mret (error 400 "Valid device name required")
         else
           changes ← db.update_devices (λ r, Device.id r === deviceId')
                       (Device.set_name (trim name));
           if (changes =? 0)%nat then mret (error 404 "Device not found")
           else mret (json SuccessBody)
     end)
    (λ _, mret (error 500 "Failed to update device")).

(** POST /:deviceId/trust *)
Definition trust_device (req : Request) (ctx : Ctx) : M Response :=
  try_catch
    (DeviceManager.trustDevice (param ctx);;
     mret (json SuccessBody))
    (λ _, mret (error 500 "Failed to trust device")).

(** POST /:deviceId/untrust *)
Definition untrust_device (req : Request) (ctx : Ctx) : M Response :=
  try_catch
    (DeviceManager.untrustDevice (param ctx);;
     mret (json SuccessBody))
    (λ _, mret (error 500 "Failed to untrust device")).

(** DELETE /:deviceId *)
Definition delete_device (req : Request) (ctx : Ctx) : M Response :=
  try_catch
    (let deviceId' := param ctx in
     if deviceId' === deviceId cfg then
       mret (error 400 "Cannot delete own device")
     else
       DeviceManager.deleteDevice cfg deviceId';;
       mret (json SuccessBody))
    (λ _, mret (error 500 "Failed to delete device")).

(** [expires_at > CURRENT_TIMESTAMP] in SQL: [files.expires_at] holds the
    text of [toISOString], [CURRENT_TIMESTAMP] is SQLite's text, and the
    two are compared as TEXT. *)
Definition sql_expires_after_now (f : File.row) : bool :=
  match File.expires_at f with
  | None => false
  | Some t => SQLite.text_gt (Date.iso_string t) (SQLite.datetime (now env))
  end.

Definition sum (l : list Z) : Z := foldr Z.add 0 l.

(** [MAX(upload_time)] *)
Definition max_text (l : list string) : option string :=
  foldr (λ x acc, match acc with
                  | Some y => if SQLite.text_lt x y then Some y else Some x
                  | None => Some x
                  end) None l.

(** GET /:deviceId/stats *)
Definition stats (req : Request) (ctx : Ctx) : M Response :=
  try_catch
    (let deviceId' := param ctx in
     rows ← gets (λ w, List.filter
               (λ f, (File.device_id f === deviceId') && negb (File.is_deleted f))
               (files w));
     let active := List.filter
       (λ f, match File.expires_at f with
             | None => true
             | Some _ => sql_expires_after_now f
             end) rows in
     mret (json (StatsBody deviceId'
                   (Z.of_nat (length rows))
                   (sum (map File.size rows))
                   (sum (map File.download_count rows))
                   (max_text (map File.upload_time rows))
                   (Z.of_nat (length active)))))
    (λ _, mret (error 500 "Failed to get device statistics")).

(** POST /register *)
Definition register (req : Request) (ctx : Ctx) : M Response :=
  try_catch
    (let deviceName' := body req !! "deviceName" in
     let publicKey' := body req !! "publicKey" in
     let ipAddress := body req !! "ipAddress" in
     if negb (JS.truthy deviceName') || negb (JS.truthy publicKey') then
       mret (error 400 "Device name and public key required")
     else
       let deviceId' := uuid_device env in
       DeviceManager.addDiscoveredDevice cfg env deviceId'
         (default EmptyString deviceName')
         (if JS.truthy ipAddress then default EmptyString ipAddress else ip req)
         (default EmptyString publicKey');;
       mret (json (RegisteredBody deviceId')))
    (λ _, mret (error 500 "Failed to register device")).

(** GET /discover *)
Definition discover (req : Request) (ctx : Ctx) : M Response :=
  mret (json (IdentityBody (deviceId cfg) (deviceName cfg)
                (DeviceManager.getLocalIP cfg) (publicKey cfg))).

End WithPlatform.
End Devices.

(** ** routes/files.js *)
Module Files.
Section WithPlatform.
Context {P : Platform} (cfg : Config) (env : Env).

Definition fileSize_limit : Z := 500 * 1024 * 1024.

(** [file.originalname]: the base name of the file name the part carries. *)
Definition part_name (part : Upload) : string :=
  Busboy.basename (originalname part).

(** Where multer's disk storage puts an uploaded part: the [destination]
    and [filename] callbacks. *)
Definition stored_path (part : Upload) : string :=
  let filename := uuid_stored env +:+ Path.extname (part_name part) in
  Path.join (uploadsDir cfg) filename.

(** [upload.single('file')]: multer writes the part to [stored_path] and
    sets [req.file].  A part over the size limit is discarded and ends the
    request in Express's error handler. *)
Definition uploadSingle (req : Request) (ctx : Ctx) : M Next :=
  match upload req with
  | None => mret (Continue ctx)
  | Some part =>
      if fileSize_limit <? Z.of_nat (length (content part)) then
        mret (Respond (page 500))
      else
        let stored := stored_path part in
        fs.writeFileSync stored (content part);;
        mret (Continue (with_file
          {| file_path := stored;
             file_originalname := part_name part;
             file_mimetype := mimetype part;
             file_size := Z.of_nat (length (content part)) |} ctx))
  end.

Definition joined : Type := File.row * option Device.row.

(** FROM files f LEFT JOIN devices d ON f.device_id = d.id *)
Definition files_with_devices (w : World) : list joined :=
  db.left_join (λ f d, File.device_id f === Device.id d) (files w) (devices w).

Definition view (row : joined) : FileView :=
  {| view_id := File.id row.1;
     view_filename := File.original_name row.1;
     view_size := File.size row.1;
     view_mimeType := File.mime_type row.1;
     view_deviceId := File.device_id row.1;
     view_deviceName := Device.name <$> row.2;
     view_deviceIp := Device.ip_address <$> row.2;
     view_uploadTime := File.upload_time row.1;
     view_expiresAt := Date.iso_string <$> File.expires_at row.1;
     view_downloadCount := File.download_count row.1 |}.

(** [f.expires_at IS NULL OR f.expires_at > datetime("now")]: the column
    holds the text of [toISOString]; no column is called now, so SQLite
    reads the double-quoted word as the string 'now', and it compares the
    column with its own date text as TEXT. *)
Definition sql_not_expired (f : File.row) : bool :=
  match File.expires_at f with
  | None => true
  | Some t => SQLite.text_gt (Date.iso_string t) (SQLite.datetime (now env))
  end.

(** [expires_at IS NOT NULL AND expires_at < CURRENT_TIMESTAMP] *)
Definition sql_expired (f : File.row) : bool :=
  match File.expires_at f with
  | None => false
  | Some t => SQLite.text_lt (Date.iso_string t) (SQLite.datetime (now env))
  end.

(** [file.expires_at && new Date() > new Date(file.expires_at)]: the
    column holds a text of [toISOString], never empty, and [new Date] reads
    back the time value it renders. *)
Definition js_expired (f : File.row) : bool :=
  match File.expires_at f with
  | None => false
  | Some t => t <? now env
  end.

(** GET / *)
Definition list_files (req : Request) (ctx : Ctx) : M Response :=
  try_catch
    (let deviceId' := query req !! "deviceId" in
     let limit := match query req !! "limit" with
                  | Some s => JS.parseInt s
                  | None => Some 50
                  end in
     let offset := match query req !! "offset" with
                   | Some s => JS.parseInt s
                   | None => Some 0
                   end in
     limit ← lift (db.int64 limit);
     offset ← lift (db.int64 offset);
     rows ← gets (λ w,
       db.limit_offset limit offset
         (db.order_by_desc (λ row, File.upload_time row.1)
            (List.filter
               (λ row : joined,
                  negb (File.is_deleted row.1)
                  && (if JS.truthy deviceId'
                      then File.device_id row.1 === default EmptyString deviceId'
                      else true)
                  && sql_not_expired row.1)
               (files_with_devices w))));
     mret (json (FilesBody (map view rows))))
    (λ _, mret (error 500 "Failed to list files")).

(** The expiry computed by POST /: [None] is null. *)
Definition upload_expiry (expiresInMinutes : option string) : result (option Z) :=
  if JS.truthy expiresInMinutes then
    let expiresAt :=
      Date.addMinutes (now env) (JS.parseInt (default EmptyString expiresInMinutes)) in
    match Date.toISOString expiresAt with
    | Ok _ => Ok expiresAt
    | Thrown e => Thrown e
    end
  else if JS.truthy (MAX_FILE_AGE cfg) then
    let expiresAt :=
      Date.addSeconds (now env) (JS.parseInt (default EmptyString (MAX_FILE_AGE cfg))) in
    match Date.toISOString expiresAt with
    | Ok _ => Ok expiresAt
    | Thrown e => Thrown e
    end
  else Ok None.

(** The anonymous branch of POST /: find or create the device named after
    the caller. *)
Definition clientIP (req : Request) : string :=
  if ip req === EmptyString then "unknown" else ip req.
Definition anonymousDeviceName (req : Request) : string :=
  let deviceName' := body req !! "deviceName" in
  if JS.truthy deviceName' then default EmptyString deviceName'
  else "Anonymous Device (" +:+ clientIP req +:+ ")".

Definition anonymous_device (req : Request) : M string :=
  let clientIP := clientIP req in
  let anonymousDeviceName := anonymousDeviceName req in
  existingDevice ← gets (λ w,
    List.find (λ d, (Device.name d === anonymousDeviceName)
                    && (Device.ip_address d === clientIP)) (devices w));
  match existingDevice with
  | Some existingDevice => mret (Device.id existingDevice)
  | None =>
      let sourceDeviceId := uuid_device env in
      db.insert_device
        {| Device.id := sourceDeviceId; Device.name := anonymousDeviceName;
           Device.ip_address := clientIP; Device.fingerprint := None;
           Device.last_seen := SQLite.datetime (now env);
           Device.is_trusted := true;
           Device.created_at := SQLite.datetime (now env) |};;
      mret sourceDeviceId
  end.

(** The end of the try block of POST /: update the device name if one was
    provided and differs from the current one. *)
Definition rename_device (sourceDeviceId : string) (deviceName' : option string)
  : M unit :=
  if JS.truthy deviceName' then
    currentDevice ← gets (λ w,
      List.find (λ d, Device.id d === sourceDeviceId) (devices w));
    match currentDevice with
    | Some currentDevice =>
        if negb (Device.name currentDevice === default EmptyString deviceName') then
          db.update_devices (λ d, Device.id d === sourceDeviceId)
            (Device.set_name (default EmptyString deviceName'));;
          mret tt
        else mret tt
    | None => mret tt
    end
  else mret tt.

(** The try block of POST / from the key generation on, for the owning
    device the first part settled. *)
Definition upload_store (req : Request) (file : StoredFile)
    (sourceDeviceId : string) : M Response :=
  let fileId := uuid_file env in
  let deviceName' := body req !! "deviceName" in
  let expiresInMinutes := body req !! "expiresInMinutes" in
  let encryptionKey := EncryptionService.generateKey (random_key env) in
  let filePath := file_path file in
  fileBuffer ← fs.readFileSync filePath;
  encryptedBuffer ←
    lift (EncryptionService.encryptFile fileBuffer encryptionKey (random_iv env));
  let encryptedFilePath := filePath +:+ ".enc" in
  fs.writeFileSync encryptedFilePath encryptedBuffer;;
  fs.unlinkSync filePath;;
  expiresAt ← lift (upload_expiry expiresInMinutes);
  db.insert_file
    {| File.id := fileId;
       File.filename := Path.basename encryptedFilePath;
       File.original_name := file_originalname file;
       File.size := file_size file;
       File.mime_type := file_mimetype file;
       File.device_id := sourceDeviceId;
       File.encryption_key := encryptionKey;
       File.upload_time := SQLite.datetime (now env);
       File.expires_at := expiresAt;
       File.download_count := 0;
       File.is_deleted := false |};;
  rename_device sourceDeviceId deviceName';;
  mret (json (UploadedBody fileId (file_originalname file) (file_size file)
                (file_mimetype file) sourceDeviceId
                (Date.iso_string <$> expiresAt) (Date.iso_string (now env)))).

(** The try block of POST /, once [req.file] is known to be set: the
    supplied device id, or the anonymous device. *)
Definition upload_body (req : Request) (file : StoredFile) : M Response :=
  let deviceId' := body req !! "deviceId" in
  sourceDeviceId ←
    (if JS.truthy deviceId' then mret (default EmptyString deviceId')
     else anonymous_device req);
  upload_store req file sourceDeviceId.

(** The catch block of POST /. *)
Definition upload_cleanup (ctx : Ctx) : M Response :=
  match req_file ctx with
  | Some file =>
      if file_path file === EmptyString then mret tt
      else
        try_catch
          (fs.unlinkSync (file_path file);;
           fs.unlinkSync (file_path file +:+ ".enc"))
          (λ _, mret tt)
  | None => mret tt
  end;;
  mret (error 500 "File upload failed").

(** POST / *)
Definition upload_file (req : Request) (ctx : Ctx) : M Response :=
  try_catch
    (match req_file ctx with
     | None => mret (error 400 "No file uploaded")
     | Some file => upload_body req file
     end)
    (λ _, upload_cleanup ctx).

(** [res.setHeader] throws on a value with a character outside tab,
    0x20..0x7e and 0x80..0xff. *)
Definition header_char_ok (c : ascii) : bool :=
  let n := nat_of_ascii c in
  ((n =? 9) || ((32 <=? n) && negb (n =? 127)))%nat.
Fixpoint header_ok (s : string) : bool :=
  match s with
  | EmptyString => true
  | String c rest => header_char_ok c && header_ok rest
  end.
Definition dquote : string := String (ascii_of_nat 34) EmptyString.
Definition setHeader (value : string) : M unit :=
  if header_ok value then mret tt
  else throw "Invalid character in header content".

(** SELECT ... FROM files f LEFT JOIN devices d ON f.device_id = d.id
    WHERE f.id = ? AND f.is_deleted = 0 *)
Definition live_file (fileId : string) : M (option joined) :=
  gets (λ w, List.find (λ row : joined,
               (File.id row.1 === fileId) && negb (File.is_deleted row.1))
             (files_with_devices w)).

(** GET /:fileId *)
Definition download_file (req : Request) (ctx : Ctx) : M Response :=
  try_catch
    (let fileId := param ctx in
     file ← live_file fileId;
     match file with
     | None => mret (error 404 "File not found")
     | Some file =>
         if js_expired file.1 then mret (error 410 "File expired")
         else
           let filePath := Path.join (uploadsDir cfg) (File.filename file.1) in
           present ← fs.existsSync filePath;
           if negb present then mret (error 404 "File not found on disk")
           else
             try_catch
               (encryptedBuffer ← fs.readFileSync filePath;
                decryptedBuffer ←
                  lift (EncryptionService.decryptFile encryptedBuffer
                          (File.encryption_key file.1));
                db.update_files (λ f, File.id f === fileId)
                  (λ f, File.set_download_count (File.download_count f + 1) f);;
                let contentType :=
                  if File.mime_type file.1 === EmptyString then "application/octet-stream"
                  else File.mime_type file.1 in
                let disposition :=
                  "attachment; filename=" +:+ dquote +:+ File.original_name file.1 +:+ dquote in
                let device :=
                  if JS.truthy (Device.name <$> file.2)
                  then default EmptyString (Device.name <$> file.2)
                  else "Unknown Device" in
                setHeader contentType;;
                setHeader disposition;;
                setHeader device;;
                setHeader (File.upload_time file.1);;
                mret (json (DownloadBody decryptedBuffer contentType
                              (File.original_name file.1) device
                              (File.upload_time file.1))))
               (λ _, mret (error 500 "File decryption failed"))
     end)
    (λ _, mret (error 500 "File download failed")).

(** GET /:fileId/info *)
Definition file_info (req : Request) (ctx : Ctx) : M Response :=
  try_catch
    (let fileId := param ctx in
     file ← live_file fileId;
     match file with
     | None => mret (error 404 "File not found")
     | Some file =>
         if js_expired file.1 then mret (error 410 "File expired")
         else mret (json (FileInfoBody (view file)))
     end)
    (λ _, mret (error 500 "Failed to get file info")).

(** Removal of a stored blob, with the surrounding try and catch. *)
Definition remove_blob (filename : string) : M bool :=
  let filePath := Path.join (uploadsDir cfg) filename in
  try_catch
    (present ← fs.existsSync filePath;
     (if (present : bool) then fs.unlinkSync filePath else ret tt);;
     mret true)
    (λ _, mret false).

(** DELETE /:fileId, behind [authenticateRequest] and
    [requirePermission('write')]. *)
Definition delete_file (req : Request) (ctx : Ctx) : M Response :=
  try_catch
    (let fileId := param ctx in
     file ← gets (λ w, List.find (λ f, (File.id f === fileId)
                                       && negb (File.is_deleted f)) (files w));
     match file with
     | None => mret (error 404 "File not found")
     | Some file =>
         db.update_files (λ f, File.id f === fileId) (File.set_is_deleted true);;
         remove_blob (File.filename file);;
         mret (json SuccessBody)
     end)
    (λ _, mret (error 500 "File deletion failed")).

(** The loop of POST /cleanup over the expired rows. *)
Fixpoint sweep (expiredFiles : list File.row) (cleanedCount : nat) : M nat :=
  match expiredFiles with
  | [] => mret cleanedCount
  | file :: rest =>
      db.update_files (λ f, File.id f === File.id file)
        (File.set_is_deleted true);;
      removed ← remove_blob (File.filename file);
      sweep rest (if (removed : bool) then S cleanedCount else cleanedCount)
  end.

(** POST /cleanup, behind [authenticateRequest] and
    [requirePermission('write')]. *)
Definition cleanup (req : Request) (ctx : Ctx) : M Response :=
  try_catch
    (expiredFiles ← gets (λ w,
       List.filter (λ f, sql_expired f && negb (File.is_deleted f)) (files w));
     cleanedCount ← sweep expiredFiles 0;
     mret (json (CleanupBody cleanedCount (length expiredFiles))))
    (λ _, mret (error 500 "Cleanup failed")).

End WithPlatform.
End Files.

(** ** The application: index.js and the three routers

    A route is a method, a path pattern, the middleware in front of the
    handler and the handler.  Express tries the routes of a router in the
    order of their declaration and takes the first whose method and pattern
    match; literal segments match without regard to case. *)
Inductive Segment :=
| Lit (s : string)
| Param.

Inductive Guard :=
| AuthenticateRequest
| RequirePermission (permission : string)
| UploadSingle.

Inductive Endpoint :=
| AuthBootstrap | AuthValidate | AuthListKeys | AuthRevoke | AuthGenerate
| DevicesList | DevicesMe | DevicesGet | DevicesUpdate | DevicesTrust
| DevicesUntrust | DevicesDelete | DevicesStats | DevicesRegister
| DevicesDiscover
| FilesList | FilesUpload | FilesDownload | FilesInfo | FilesDelete
| FilesCleanup
| Health.

Record Route := {
  route_method : Method;
  route_path : list Segment;
  route_guards : list Guard;
  route_endpoint : Endpoint;
}.

Definition route (m : Method) (p : list Segment) (g : list Guard) (e : Endpoint)
  : Route :=
  {| route_method := m; route_path := p; route_guards := g; route_endpoint := e |}.

(** routes/auth.js *)
Definition auth_routes : list Route := [
  route POST [Lit "bootstrap"] [] AuthBootstrap;
  route POST [Lit "validate"] [] AuthValidate;
  route GET [Lit "api-keys"] [] AuthListKeys;
  route DELETE [Lit "api-keys"; Param] [] AuthRevoke;
  route POST [Lit "api-key"]
    [AuthenticateRequest; RequirePermission "write"] AuthGenerate
].

(** routes/devices.js *)
Definition devices_routes : list Route := [
  route GET [] [AuthenticateRequest; RequirePermission "read"] DevicesList;
  route GET [Lit "me"] [AuthenticateRequest; RequirePermission "read"] DevicesMe;
  route GET [Param] [AuthenticateRequest; RequirePermission "read"] DevicesGet;
  route PUT [Param] [AuthenticateRequest; RequirePermission "write"] DevicesUpdate;
  route POST [Param; Lit "trust"]
    [AuthenticateRequest; RequirePermission "write"] DevicesTrust;
  route POST [Param; Lit "untrust"]
    [AuthenticateRequest; RequirePermission "write"] DevicesUntrust;
  route DELETE [Param]
    [AuthenticateRequest; RequirePermission "write"] DevicesDelete;
  route GET [Param; Lit "stats"]
    [AuthenticateRequest; RequirePermission "read"] DevicesStats;
  route POST [Lit "register"] [] DevicesRegister;
  route GET [Lit "discover"] [] DevicesDiscover
].

(** routes/files.js *)
Definition files_routes : list Route := [
  route GET [] [] FilesList;
  route POST [] [UploadSingle] FilesUpload;
  route GET [Param] [] FilesDownload;
  route GET [Param; Lit "info"] [] FilesInfo;
  route DELETE [Param]
    [AuthenticateRequest; RequirePermission "write"] FilesDelete;
  route POST [Lit "cleanup"]
    [AuthenticateRequest; RequirePermission "write"] FilesCleanup
].

(** [app.use('/api/...', router)] *)
Definition mount (prefix : string) (routes : list Route) : list Route :=
  map (λ r, route (route_method r) (Lit prefix :: route_path r)
              (route_guards r) (route_endpoint r)) routes.

(** index.js, below /api *)
Definition app_routes : list Route :=
  mount "auth" auth_routes ++ mount "files" files_routes
  ++ mount "devices" devices_routes ++ [route GET [Lit "health"] [] Health].

Definition lower_char (c : ascii) : ascii :=
  let n := nat_of_ascii c in
  if ((65 <=? n) && (n <=? 90))%nat then ascii_of_nat (n + 32) else c.
Fixpoint lower (s : string) : string :=
  match s with
  | EmptyString => EmptyString
  | String c rest => String (lower_char c) (lower rest)
  end.

Definition method_eqb (a b : Method) : bool :=
  match a, b with
  | GET, GET | POST, POST | PUT, PUT | DELETE, DELETE => true
  | _, _ => false
  end.

(** The parameters a path binds under a pattern, or [None]. *)
Fixpoint match_path (pattern : list Segment) (p : list string)
  : option (list string) :=
  match pattern, p with
  | [], [] => Some []
  | Lit s :: pattern', seg :: p' =>
      if lower seg === lower s then match_path pattern' p' else None
  | Param :: pattern', seg :: p' =>
      if seg === EmptyString then None
      else cons seg <$> match_path pattern' p'
  | _, _ => None
  end.

Fixpoint find_route (routes : list Route) (m : Method) (p : list string)
  : option (Route * list string) :=
  match routes with
  | [] => None
  | r :: rest =>
      match (if method_eqb (route_method r) m then match_path (route_path r) p
             else None) with
      | Some params => Some (r, params)
      | None => find_route rest m p
      end
  end.

Section Serve.
Context {P : Platform} (cfg : Config) (env : Env).

Definition guard (g : Guard) : Request → Ctx → M Next :=
  match g with
  | AuthenticateRequest => Auth.authenticateRequest env
  | RequirePermission permission => Auth.requirePermission permission
  | UploadSingle => Files.uploadSingle cfg env
  end.

Definition handler (e : Endpoint) : Request → Ctx → M Response :=
  match e with
  | AuthBootstrap => Auth.bootstrap cfg env
  | AuthValidate => Auth.validate env
  | AuthListKeys => Auth.list_keys
  | AuthRevoke => Auth.revoke
  | AuthGenerate => Auth.generate cfg env
  | DevicesList => Devices.list_devices cfg
  | DevicesMe => Devices.me cfg
  | DevicesGet => Devices.get_device cfg
  | DevicesUpdate => Devices.update_device
  | DevicesTrust => Devices.trust_device
  | DevicesUntrust => Devices.untrust_device
  | DevicesDelete => Devices.delete_device cfg
  | DevicesStats => Devices.stats env
  | DevicesRegister => Devices.register cfg env
  | DevicesDiscover => Devices.discover cfg
  | FilesList => Files.list_files env
  | FilesUpload => Files.upload_file cfg env
  | FilesDownload => Files.download_file cfg env
  | FilesInfo => Files.file_info env
  | FilesDelete => Files.delete_file cfg
  | FilesCleanup => Files.cleanup cfg env
  | Health => λ _ _, mret (json (HealthBody (Date.iso_string (now env))))
  end.

(** The middleware chain of a route, then its handler. *)
Fixpoint run (guards : list Guard) (e : Endpoint) (req : Request) (ctx : Ctx)
  : M Response :=
  match guards with
  | [] => handler e req ctx
  | g :: rest =>
      next ← guard g req ctx;
      match next with
      | Respond r => mret r
      | Continue ctx' => run rest e req ctx'
      end
  end.

Definition fresh (params : list string) : Ctx :=
  {| req_apiKey := None; req_file := None; req_params := params |}.

(** One request against the application.  A GET that no route takes ends
    in the catch-all of index.js, any other such request in Express's own
    404 page. *)
Definition serve (req : Request) : M Response :=
  match find_route app_routes (method req) (path req) with
  | Some (r, params) =>
      run (route_guards r) (route_endpoint r) req (fresh params)
  | None =>
      mret (match method req with
            | GET => error 404 "API endpoint not found"
            | _ => page 404
            end)
  end.

(** The state after a request; a handler's own catch turns every
    exception into a response, [serve] itself never throws. *)
Definition serve_world (req : Request) (w : World) : World := (serve req w).2.
Definition serve_response (req : Request) (w : World) : result Response :=
  (serve req w).1.

End Serve.

(** * Specification vocabulary *)

(** ** The contract of the cipher

    What Node documents for an authenticated cipher and that the handlers
    rely on: the tag of AES-256-GCM is 16 octets long, and the decipher
    returns the plaintext when it is given the password, the tag and the
    ciphertext of one encryption. *)
Definition cipher_sound (P : Platform) : Prop :=
  ∀ password plaintext,
    length (createCipher_final password plaintext).2 = 16%nat
    ∧ createDecipher_final password
        (createCipher_final password plaintext).2
        (createCipher_final password plaintext).1 = Some plaintext.

(** ** A platform to run the model on

    Reversible stand-ins for the codecs and a keyed checksum for the
    cipher; the examples and the runs on concrete inputs below use it. *)
Module Sample.

Definition text_of (b : bytes) : string :=
  string_of_list_ascii (map (λ x, ascii_of_nat (Z.to_nat x)) b).
Definition bytes_of (s : string) : bytes :=
  map (λ c, Z.of_nat (nat_of_ascii c)) (list_ascii_of_string s).

Definition mask (password : bytes) : Z := foldr Z.add 0 password mod 256.
Definition tag_of (password ciphertext : bytes) : bytes :=
  (foldr Z.add (mask password) ciphertext mod 256) :: replicate 15 0.

Definition seal (password plaintext : bytes) : bytes * bytes :=
  let ciphertext := map (Z.lxor (mask password)) plaintext in
  (ciphertext, tag_of password ciphertext).

Definition open (password tag ciphertext : bytes) : option bytes :=
  if bool_decide (tag = tag_of password ciphertext)
  then Some (map (Z.lxor (mask password)) ciphertext)
  else None.

#[local] Instance platform : Platform := {|
  sha256_hex := λ s, "sha256:" +:+ s;
  base64_encode := text_of;
  base64_decode := bytes_of;
  hex_encode := text_of;
  createCipher_final := seal;
  createDecipher_final := open;
|}.

Definition config : Config :=
  {| uploadsDir := "uploads"; MAX_FILE_AGE := None;
     deviceId := "self"; deviceName := "host-linux";
     publicKey := "pk-self"; localIP := "192.168.1.5" |}.

(** 2024-01-01T15:00:00.000Z *)
Definition afternoon : Z := 1704121200000.
(** 2024-01-01T10:00:00.000Z *)
Definition morning : Z := 1704103200000.

Definition clock (t : Z) : Env :=
  {| now := t; uuid_stored := "u-stored"; uuid_file := "u-file";
     uuid_device := "u-device"; uuid_key := "u-key";
     random_key := [115; 51]; random_iv := replicate 16 7;
     random_api_key := [107; 49] |}.

Definition request (m : Method) (p : list string) : Request :=
  {| method := m; path := p; ip := "192.168.1.9"; user_agent := None;
     x_api_key := None; query := ∅; body := ∅; expiresInHours := None;
     upload := None |}.

Definition empty : World :=
  {| devices := []; files := []; api_keys := []; disk := ∅ |}.

Definition hello : Upload :=
  {| originalname := "hello.txt"; mimetype := "text/plain";
     content := [104; 105] |}.

(** A multipart POST /api/files with the given form fields. *)
Definition upload_request (fields : list (string * string)) : Request :=
  {| method := POST; path := ["files"]; ip := "192.168.1.9";
     user_agent := None; x_api_key := None; query := ∅;
     body := list_to_map fields; expiresInHours := None;
     upload := Some hello |}.

Definition with_key (key : string) (req : Request) : Request :=
  {| method := method req; path := path req; ip := ip req;
     user_agent := user_agent req; x_api_key := Some key;
     query := query req; body := body req;
     expiresInHours := expiresInHours req; upload := upload req |}.

(** A record stored under id "f1", expiring at [expires]. *)
Definition record (expires : option Z) (deleted : bool) : File.row :=
  {| File.id := "f1"; File.filename := "b1.txt.enc";
     File.original_name := "notes.txt"; File.size := 2;
     File.mime_type := "text/plain"; File.device_id := "d1";
     File.encryption_key := "s3"; File.upload_time := "2024-01-01 09:00:00";
     File.expires_at := expires; File.download_count := 0;
     File.is_deleted := deleted |}.

Definition ledger (r : File.row) : World :=
  {| devices := []; files := [r]; api_keys := []; disk := ∅ |}.

Definition key_row (id hash permissions : string) (active : bool) : ApiKey.row :=
  {| ApiKey.id := id; ApiKey.key_hash := hash; ApiKey.device_id := "self";
     ApiKey.permissions := permissions;
     ApiKey.created_at := "2024-01-01 08:00:00";
     ApiKey.expires_at := None; ApiKey.is_active := active |}.

Definition keyring (keys : list ApiKey.row) : World :=
  {| devices := []; files := []; api_keys := keys; disk := ∅ |}.

Definition ctx_of (id : string) : Ctx :=
  {| req_apiKey := None; req_file := None; req_params := [id] |}.

End Sample.


(** The status of the response a request ended in. *)
Definition result_status (r : result Response) : option Z :=
  match r with
  | Ok response => Some (status response)
  | Thrown _ => None
  end.

(** ** Effects of a computation on the world *)

(** Every run of [m] takes the world to one related to it by [R], whether
    it returns or throws. *)
Definition respects (R : relation World) {A} (m : M A) : Prop :=
  ∀ w, R w (m w).2.

(** Every run of [m] returns a value: it does not throw. *)
Definition returns {A} (m : M A) : Prop :=
  ∀ w, ∃ a w', m w = (Ok a, w').

(** ** The ledger of file records *)

(** The columns of a file record that no statement of the server rewrites. *)
Definition frozen (r : File.row)
  : string * string * string * Z * string * string * string * string * option Z :=
  (File.id r, File.filename r, File.original_name r, File.size r,
   File.mime_type r, File.device_id r, File.encryption_key r,
   File.upload_time r, File.expires_at r).

(** A record and a later state of it: the same record but for a download
    count that did not decrease and a tombstone that was not lifted. *)
Definition row_evolves (r r' : File.row) : Prop :=
  frozen r' = frozen r
  ∧ File.download_count r ≤ File.download_count r'
  ∧ (File.is_deleted r = true → File.is_deleted r' = true).

(** A table and a later state of it: the old records in place, each evolved,
    followed by new records under ids the old table did not hold. *)
Definition ledger_evolves (old new : list File.row) : Prop :=
  ∃ kept added,
    new = kept ++ added
    ∧ Forall2 row_evolves old kept
    ∧ Forall (λ r, File.id r ∉ map File.id old) added.

Definition files_evolve : relation World :=
  λ w w', ledger_evolves (files w) (files w').

(** The table holds a record under [fileId], and every record it holds
    under that id is deleted. *)
Definition tombstoned (fileId : string) (rows : list File.row) : Prop :=
  (∃ r, r ∈ rows ∧ File.id r = fileId)
  ∧ ∀ r, r ∈ rows → File.id r = fileId → File.is_deleted r = true.

(** The world after a sequence of requests, each with its own clock and
    random draws. *)
Definition replay {P : Platform} (cfg : Config) (trace : list (Env * Request))
    (w : World) : World :=
  foldl (λ w step, serve_world cfg step.1 step.2 w) w trace.

(** ** Accessibility of a file record *)

(** The expiry check in the words of the specification: not deleted, and
    no expiry or [now < expiresAt]. *)
Definition spec_accessible (now : Z) (r : File.row) : bool :=
  negb (File.is_deleted r)
  && match File.expires_at r with
     | None => true
     | Some t => now <? t
     end.

(** The check that info and download apply: not deleted, and no expiry or
    [now <= expiresAt]. *)
Definition accessible (now : Z) (r : File.row) : bool :=
  negb (File.is_deleted r)
  && match File.expires_at r with
     | None => true
     | Some t => now <=? t
     end.

(** The answer of info and download for a record that is not accessible. *)
Definition refusal (r : File.row) : Response :=
  if File.is_deleted r then error 404 "File not found"
  else error 410 "File expired".

(** ** Callers and keys *)

(** The same request with its API key moved to the X-API-Key header, or to
    the [apiKey] query parameter. *)
Definition carry_in_header (key : string) (req : Request) : Request :=
  {| method := method req; path := path req; ip := ip req;
     user_agent := user_agent req; x_api_key := Some key;
     query := delete "apiKey" (query req); body := body req;
     expiresInHours := expiresInHours req; upload := upload req |}.
Definition carry_in_query (key : string) (req : Request) : Request :=
  {| method := method req; path := path req; ip := ip req;
     user_agent := user_agent req; x_api_key := None;
     query := <["apiKey" := key]> (delete "apiKey" (query req));
     body := body req;
     expiresInHours := expiresInHours req; upload := upload req |}.

(** A key row that is live at [now]: no expiry, the expiry 0 that
    [authenticateRequest] reads as none, or an expiry not before [now]. *)
Definition key_live (now : Z) (k : ApiKey.row) : bool :=
  match ApiKey.expires_at k with
  | None => true
  | Some t => (t =? 0) || (now <=? t)
  end.

(** The caller presents a key whose hash is that of an active, live row
    carrying [permission]. *)
Definition authorized {P : Platform} (env : Env) (w : World) (req : Request)
    (permission : string) : bool :=
  JS.truthy (Auth.presented_key req)
  && existsb
       (λ k, (ApiKey.key_hash k
              === EncryptionService.hashApiKey
                    (default EmptyString (Auth.presented_key req)))
             && ApiKey.is_active k
             && key_live (now env) k
             && JS.includes permission (JS.split_comma (ApiKey.permissions k)))
       (api_keys w).

(** The operations behind the API-key check, with the permission each demands. *)
Definition gated (e : Endpoint) : option string :=
  match e with
  | AuthGenerate => Some "write"
  | DevicesList | DevicesMe | DevicesGet | DevicesStats => Some "read"
  | DevicesUpdate | DevicesTrust | DevicesUntrust | DevicesDelete => Some "write"
  | FilesDelete | FilesCleanup => Some "write"
  | _ => None
  end.

(** The operations in front of the API-key check. *)
Definition open_to_all (e : Endpoint) : bool :=
  match e with
  | FilesList | FilesUpload | FilesDownload | FilesInfo => true
  | AuthBootstrap | DevicesRegister | Health => true
  | _ => false
  end.

(** Two key tables that differ at most in [is_active]. *)
Definition same_but_active (a b : list ApiKey.row) : Prop :=
  map (ApiKey.set_is_active false) a = map (ApiKey.set_is_active false) b.

(** ** Device records *)

(** Two worlds holding the same device ids, each with the same trust flag. *)
Definition same_trust : relation World :=
  λ w w', map Device.id (devices w') = map Device.id (devices w)
          ∧ map Device.is_trusted (devices w') = map Device.is_trusted (devices w).

(** A device id that a step does not lose. *)
Definition keeps_device (id : string) : relation World :=
  λ w w', id ∈ map Device.id (devices w) → id ∈ map Device.id (devices w').

(** Two device tables that differ at most in [is_trusted]. *)
Definition same_but_trust (a b : list Device.row) : Prop :=
  map (Device.set_is_trusted false) a = map (Device.set_is_trusted false) b.

(** Two device tables that differ at most in [name]. *)
Definition same_but_name (a b : list Device.row) : Prop :=
  map (Device.set_name EmptyString) a = map (Device.set_name EmptyString) b.

(** A device record, for the runs on concrete inputs. *)
Definition sample_device (id name : string) (trusted : bool) : Device.row :=
  {| Device.id := id; Device.name := name; Device.ip_address := "192.168.1.7";
     Device.fingerprint := None; Device.last_seen := "2024-01-01 08:00:00";
     Device.is_trusted := trusted; Device.created_at := "2024-01-01 08:00:00" |}.

Definition fleet (rows : list Device.row) : World :=
  {| devices := rows; files := []; api_keys := []; disk := ∅ |}.

(** The files table after one more download of [fileId]. *)
Definition counted (fileId : string) (rows : list File.row) : list File.row :=
  db.update_where (λ f, File.id f === fileId)
    (λ f, File.set_download_count (File.download_count f + 1) f) rows.

(** The device row a file record of device [deviceId'] is joined with, if
    any. *)
Definition owner (w : World) (deviceId' : string) : option Device.row :=
  head (List.filter (λ d, deviceId' === Device.id d) (devices w)).

(** The name download puts in X-File-Device. *)
Definition source_device (w : World) (deviceId' : string) : string :=
  match owner w deviceId' with
  | Some d => if Device.name d === EmptyString then "Unknown Device"
              else Device.name d
  | None => "Unknown Device"
  end.

(** The Content-Type of a download. *)
Definition content_type (mime_type : string) : string :=
  if mime_type === EmptyString then "application/octet-stream" else mime_type.


(** The blob of the two octets of [Sample.hello] under the key "s3". *)
Definition sealed_hello : bytes :=
  match EncryptionService.encryptFile (P := Sample.platform) [104; 105] "s3"
          (replicate 16 7) with
  | Ok blob => blob
  | Thrown _ => []
  end.

(** A table with the one record [r] and [blob] stored under its file name. *)
Definition shelf (r : File.row) (blob : bytes) : World :=
  with_disk {[ Path.join "uploads" (File.filename r) := blob ]} (Sample.ledger r).

(** A record whose original name holds a line feed. *)
Definition two_line_record : File.row :=
  {| File.id := "f1"; File.filename := "b1.txt.enc";
     File.original_name := "a" +:+ String (ascii_of_nat 10) "b"; File.size := 2;
     File.mime_type := "text/plain"; File.device_id := "d1";
     File.encryption_key := "s3"; File.upload_time := "2024-01-01 09:00:00";
     File.expires_at := None; File.download_count := 0;
     File.is_deleted := false |}.

(** The files table after the records of [swept] were marked deleted, by
    id. *)
Definition marked (swept rows : list File.row) : list File.row :=
  db.update_where (λ f, existsb (λ e, File.id f === File.id e) swept)
    (File.set_is_deleted true) rows.

(** The disk after the blobs of [swept] were removed from [dir]. *)
Definition unlinked (dir : string) (swept : list File.row)
    (d : gmap string bytes) : gmap string bytes :=
  foldl (λ d e, delete (Path.join dir (File.filename e)) d) d swept.

(** What reading may change: download counts, and nothing else. *)
Definition reads_only : relation World :=
  λ w w', devices w' = devices w ∧ api_keys w' = api_keys w
          ∧ disk w' = disk w
          ∧ map (File.set_download_count 0) (files w')
            = map (File.set_download_count 0) (files w).

(** ** index.js: the initial API key

    The step of [initializeServer] between the services and the routes;
    [API_KEY] is [process.env.API_KEY].  An exception here ends the
    process. *)
Module Index.
Section WithPlatform.
Context {P : Platform} (cfg : Config) (env : Env).

Definition initial_api_key (API_KEY : option string) : M unit :=
  if JS.truthy API_KEY then
    let keyHash := EncryptionService.hashApiKey (default EmptyString API_KEY) in
    existingKey ← gets (λ w,
      List.find (λ r, ApiKey.key_hash r === keyHash) (api_keys w));
    match existingKey with
    | Some _ => mret tt
    | None =>
        db.insert_api_key
          {| ApiKey.id := uuid_key env; ApiKey.key_hash := keyHash;
             ApiKey.device_id := deviceId cfg;
             ApiKey.permissions := "read,write";
             ApiKey.created_at := SQLite.datetime (now env);
             ApiKey.expires_at := None; ApiKey.is_active := true |}
    end
  else mret tt.

End WithPlatform.
End Index.

(** No row is followed at once by one whose key sorts after its own. *)
Fixpoint descending {A} (key : A → string) (l : list A) : bool :=
  match l with
  | x :: (y :: _) as rest =>
      negb (SQLite.text_lt (key x) (key y)) && descending key rest
  | _ => true
  end.

(** * Properties *)

(** The sample platform honours the contract of the cipher. *)
Lemma sample_platform_sound : cipher_sound Sample.platform.
Proof.
  intros password plaintext. split; [reflexivity|].
  cbn. unfold Sample.open. rewrite bool_decide_eq_true_2 by reflexivity.
  f_equal. induction plaintext as [|x l IH]; [reflexivity|].
  cbn [map]. rewrite IH. f_equal.
  rewrite <- Z.lxor_assoc, Z.lxor_nilpotent. apply Z.lxor_0_l.
Qed.


(** ** Blob layout *)
Section Layout.
Context {P : Platform}.

Lemma decryptFile_layout (iv tag encrypted : bytes) (keyBase64 : string) :
  length iv = 16%nat → length tag = 16%nat →
  EncryptionService.decryptFile (iv ++ tag ++ encrypted) keyBase64
  = match createDecipher_final (base64_decode keyBase64) tag encrypted with
    | Some decrypted => Ok decrypted
    | None => Thrown "Decryption failed: Unsupported state or unable to authenticate data"
    end.
Proof.
  intros Hiv Htag. unfold EncryptionService.decryptFile.
  unfold EncryptionService.ivLength, EncryptionService.tagLength.
  rewrite <- drop_drop.
  rewrite (drop_app_length' iv) by done.
  rewrite (take_app_length' tag) by done.
  rewrite (drop_app_length' tag) by done.
  rewrite Htag. reflexivity.
Qed.

Lemma flip_bit_length (i : nat) (buffer : bytes) :
  length (flip_bit i buffer) = length buffer.
Proof. apply length_alter. Qed.

Lemma flip_bit_changes (i : nat) (buffer : bytes) :
  (i < 8 * length buffer)%nat → flip_bit i buffer ≠ buffer.
Proof.
  intros Hi Heq.
  assert (Hlt : (i / 8 < length buffer)%nat)
    by (apply Nat.Div0.div_lt_upper_bound; lia).
  destruct (lookup_lt_is_Some_2 buffer (i / 8)%nat Hlt) as [b Hb].
  unfold flip_bit in Heq.
  pose proof (Z.pow_pos_nonneg 2 (Z.of_nat (i mod 8))) as Hpos.
  rewrite <- Z.shiftl_1_l in Hpos.
  remember (Z.shiftl 1 (Z.of_nat (i mod 8))) as k eqn:Hk. clear Hk.
  assert (Hflip : alter (λ b, Z.lxor b k) (i / 8)%nat buffer !! (i / 8)%nat
                  = Some (Z.lxor b k))
    by (rewrite list_lookup_alter_eq, Hb; reflexivity).
  rewrite Heq, Hb in Hflip.
  assert (Hz : Z.lxor b (Z.lxor b k) = 0)
    by (replace (Z.lxor b k) with b by congruence; apply Z.lxor_nilpotent).
  rewrite <- Z.lxor_assoc, Z.lxor_nilpotent, Z.lxor_0_l in Hz. lia.
Qed.

End Layout.

(** ** Round trip and tampering *)

Lemma encryptFile_blob {P : Platform} (buffer iv : bytes) (keyBase64 : string) :
  EncryptionService.encryptFile buffer keyBase64 iv
  = Ok (iv ++ (createCipher_final (base64_decode keyBase64) buffer).2
           ++ (createCipher_final (base64_decode keyBase64) buffer).1).
Proof.
  unfold EncryptionService.encryptFile.
  destruct (createCipher_final (base64_decode keyBase64) buffer); reflexivity.
Qed.

(** C2: for every plaintext and every key that [generateKey] produces,
    [decryptFile] applied to the blob of [encryptFile] under the same key
    returns exactly the plaintext. *)
Theorem encrypt_decrypt_roundtrip {P : Platform} (plaintext random iv : bytes) :
  cipher_sound P →
  length iv = EncryptionService.ivLength →
  ∃ blob,
    EncryptionService.encryptFile plaintext
      (EncryptionService.generateKey random) iv = Ok blob
    ∧ EncryptionService.decryptFile blob
        (EncryptionService.generateKey random) = Ok plaintext.
Proof.
  intros Hsound Hiv. eexists. split; [apply encryptFile_blob|].
  destruct (Hsound (base64_decode (EncryptionService.generateKey random)) plaintext)
    as [Htag Hopen].
  rewrite decryptFile_layout by assumption.
  rewrite Hopen. reflexivity.
Qed.

Lemma encrypt_decrypt_roundtrip_witness :
  cipher_sound Sample.platform
  ∧ length (replicate 16 7) = EncryptionService.ivLength
  ∧ ∃ blob,
      EncryptionService.encryptFile (P := Sample.platform) [104; 105]
        (EncryptionService.generateKey (P := Sample.platform) [1; 2; 3])
        (replicate 16 7) = Ok blob
      ∧ EncryptionService.decryptFile (P := Sample.platform) blob
          (EncryptionService.generateKey (P := Sample.platform) [1; 2; 3])
        = Ok [104; 105].
Proof.
  split; [apply sample_platform_sound|].
  split; [reflexivity|].
  apply (encrypt_decrypt_roundtrip (P := Sample.platform) [104; 105] [1; 2; 3]
           (replicate 16 7)).
  - apply sample_platform_sound.
  - reflexivity.
Defined.

(** C3, as the code behaves: a blob whose leading IV segment had one bit
    flipped differs from the blob that [encryptFile] produced, and
    [decryptFile] still accepts it and returns the plaintext.  The IV
    segment never reaches the decipher. *)
Theorem decrypt_accepts_flipped_iv {P : Platform} (plaintext iv : bytes)
    (keyBase64 : string) (i : nat) :
  cipher_sound P →
  length iv = EncryptionService.ivLength →
  (i < 8 * EncryptionService.ivLength)%nat →
  ∃ blob,
    EncryptionService.encryptFile plaintext keyBase64 iv = Ok blob
    ∧ flip_bit i blob ≠ blob
    ∧ EncryptionService.decryptFile (flip_bit i blob) keyBase64 = Ok plaintext.
Proof.
  intros Hsound Hiv Hi. unfold EncryptionService.ivLength in *.
  eexists. split; [apply encryptFile_blob|].
  destruct (Hsound (base64_decode keyBase64) plaintext) as [Htag Hopen].
  assert (Hbyte : (i / 8 < length iv)%nat)
    by (rewrite Hiv; apply Nat.Div0.div_lt_upper_bound; lia).
  split.
  - apply flip_bit_changes. rewrite length_app. lia.
  - unfold flip_bit. rewrite alter_app_l by assumption.
    rewrite decryptFile_layout; [|rewrite length_alter|]; try assumption.
    rewrite Hopen. reflexivity.
Qed.

Lemma decrypt_accepts_flipped_iv_witness :
  cipher_sound Sample.platform
  ∧ length (replicate 16 7) = EncryptionService.ivLength
  ∧ (5 < 8 * EncryptionService.ivLength)%nat
  ∧ ∃ blob,
      EncryptionService.encryptFile (P := Sample.platform) [104; 105]
        "key" (replicate 16 7) = Ok blob
      ∧ flip_bit 5 blob ≠ blob
      ∧ EncryptionService.decryptFile (P := Sample.platform) (flip_bit 5 blob)
          "key" = Ok [104; 105].
Proof.
  split; [apply sample_platform_sound|].
  split; [reflexivity|].
  split; [unfold EncryptionService.ivLength; lia|].
  apply (decrypt_accepts_flipped_iv (P := Sample.platform) [104; 105]
           (replicate 16 7) "key" 5).
  - apply sample_platform_sound.
  - reflexivity.
  - unfold EncryptionService.ivLength; lia.
Defined.

(** ** Reasoning about handlers *)

Lemma length_append (s t : string) :
  String.length (s +:+ t) = (String.length s + String.length t)%nat.
Proof.
  induction s as [|c s IH]; [reflexivity|].
  change (String c s +:+ t) with (String c (s +:+ t)).
  cbn [String.length]. rewrite IH. reflexivity.
Qed.

Lemma append_enc_ne (s : string) : s +:+ ".enc" ≠ s.
Proof.
  intros H. apply (f_equal String.length) in H.
  rewrite length_append in H. cbn in H. lia.
Qed.

Lemma join_nonempty (dir name : string) :
  (Path.join dir name === EmptyString) = false.
Proof.
  apply String.eqb_neq. intros H. apply (f_equal String.length) in H.
  unfold Path.join in H. rewrite !length_append in H. cbn in H. lia.
Qed.

Lemma truthy_Some (s : string) : s ≠ EmptyString → JS.truthy (Some s) = true.
Proof. intros H. unfold JS.truthy. apply negb_true_iff, String.eqb_neq, H. Qed.

Ltac munfold :=
  cbv beta iota zeta delta
    [mbind M_bind bind mret M_ret ret try_catch gets modify lift throw
     fs.writeFileSync fs.readFileSync fs.unlinkSync fs.existsSync].
Tactic Notation "munfold" "in" hyp(H) :=
  cbv beta iota zeta delta
    [mbind M_bind bind mret M_ret ret try_catch gets modify lift throw
     fs.writeFileSync fs.readFileSync fs.unlinkSync fs.existsSync] in H.
Ltac wsimpl :=
  cbn [devices files api_keys disk with_devices with_files with_api_keys
       with_disk fst snd req_file req_apiKey req_params with_file with_apiKey
       fresh file_path file_originalname file_mimetype file_size].

Section Respects.
Context (R : relation World) `{!PreOrder R}.

Lemma respects_ret {A} (a : A) : respects R (mret a).
Proof. intros w. reflexivity. Qed.

Lemma respects_throw {A} (e : string) : respects R (@throw A e).
Proof. intros w. reflexivity. Qed.

Lemma respects_lift {A} (r : result A) : respects R (lift r).
Proof. intros w. reflexivity. Qed.

Lemma respects_gets {A} (f : World → A) : respects R (gets f).
Proof. intros w. reflexivity. Qed.

Lemma respects_bind {A B} (m : M A) (k : A → M B) :
  respects R m → (∀ a, respects R (k a)) → respects R (m ≫= k).
Proof.
  intros Hm Hk w. specialize (Hm w).
  unfold mbind, M_bind, bind. destruct (m w) as [[a|e] w']; cbn in *.
  - etransitivity; [exact Hm|apply Hk].
  - exact Hm.
Qed.

Lemma respects_try_catch {A} (m : M A) (h : string → M A) :
  respects R m → (∀ e, respects R (h e)) → respects R (try_catch m h).
Proof.
  intros Hm Hh w. specialize (Hm w).
  unfold try_catch. destruct (m w) as [[a|e] w']; cbn in *.
  - exact Hm.
  - etransitivity; [exact Hm|apply Hh].
Qed.

End Respects.

Ltac respects_step prim :=
  match goal with
  | |- respects _ (mbind _ _) => apply respects_bind; [apply _| |intros ?]
  | |- respects _ (try_catch _ _) =>
      apply respects_try_catch; [apply _| |intros ?]
  | |- respects _ (mret _) => apply respects_ret; apply _
  | |- respects _ (ret _) => apply respects_ret; apply _
  | |- respects _ (throw _) => apply respects_throw; apply _
  | |- respects _ (lift _) => apply respects_lift; apply _
  | |- respects _ (gets _) => apply respects_gets; apply _
  | |- respects _ (if ?b then _ else _) => destruct b
  | |- respects _ (match ?x with _ => _ end) => destruct x
  | |- respects _ _ => prim
  end.
Ltac respects_auto prim := cbv zeta; repeat (respects_step prim).

(** ** Every request is answered *)

Lemma returns_ret {A} (a : A) : returns (mret a).
Proof. intros w. exists a, w. reflexivity. Qed.

Lemma returns_bind {A B} (m : M A) (k : A → M B) :
  returns m → (∀ a, returns (k a)) → returns (m ≫= k).
Proof.
  intros Hm Hk w. destruct (Hm w) as (a & w1 & Hrun).
  unfold mbind, M_bind, bind. rewrite Hrun. apply Hk.
Qed.

Lemma returns_try_catch {A} (m : M A) (h : string → M A) :
  (∀ e, returns (h e)) → returns (try_catch m h).
Proof.
  intros Hh w. unfold try_catch. destruct (m w) as [[a|e] w1].
  - exists a, w1. reflexivity.
  - apply Hh.
Qed.

Section Returns.
Context {P : Platform} (cfg : Config) (env : Env).

Lemma returns_upload_cleanup (ctx : Ctx) : returns (Files.upload_cleanup ctx).
Proof.
  unfold Files.upload_cleanup. apply returns_bind; [|intros _; apply returns_ret].
  destruct (req_file ctx) as [file|]; [|apply returns_ret].
  destruct (file_path file === EmptyString); [apply returns_ret|].
  apply returns_try_catch. intros _. apply returns_ret.
Qed.

Lemma returns_handler (e : Endpoint) (req : Request) (ctx : Ctx) :
  returns (handler cfg env e req ctx).
Proof.
  destruct e; cbn [handler];
    try (apply returns_ret);
    try (apply returns_try_catch; intros _;
         first [apply returns_ret|apply returns_upload_cleanup]).
Qed.

Lemma returns_guard (g : Guard) (req : Request) (ctx : Ctx) :
  returns (guard cfg env g req ctx).
Proof.
  destruct g; cbn [guard].
  - apply returns_try_catch. intros _. apply returns_ret.
  - unfold Auth.requirePermission.
    destruct (req_apiKey ctx) as [key|]; [|apply returns_ret].
    destruct (JS.includes _ _); apply returns_ret.
  - unfold Files.uploadSingle. destruct (upload req) as [part|];
      [|apply returns_ret].
    destruct (_ <? _); [apply returns_ret|].
    apply returns_bind; [|intros _; apply returns_ret].
    intros w. eexists _, _. reflexivity.
Qed.

Lemma returns_run (guards : list Guard) (e : Endpoint) (req : Request)
    (ctx : Ctx) :
  returns (run cfg env guards e req ctx).
Proof.
  revert ctx. induction guards as [|g rest IH]; intros ctx; cbn [run].
  - apply returns_handler.
  - apply returns_bind; [apply returns_guard|].
    intros [r|ctx']; [apply returns_ret|apply IH].
Qed.

(** Whatever the request and the state, [serve] ends in a response. *)
Lemma serve_returns (req : Request) : returns (serve cfg env req).
Proof.
  unfold serve. destruct (find_route _ _ _) as [[r params]|].
  - apply returns_run.
  - apply returns_ret.
Qed.

End Returns.

(** GET /api/devices/discover never reaches the handler declared for it:
    the route GET /:deviceId stands before it in routes/devices.js. *)
Lemma discover_is_shadowed :
  find_route app_routes GET ["devices"; "discover"]
  = Some (route GET [Lit "devices"; Param]
            [AuthenticateRequest; RequirePermission "read"] DevicesGet,
          ["discover"]).
Proof. reflexivity. Qed.

(** ** The ledger only evolves *)

Lemma row_evolves_refl (r : File.row) : row_evolves r r.
Proof. split; [reflexivity|]. split; [lia|tauto]. Qed.

Lemma row_evolves_trans (a b c : File.row) :
  row_evolves a b → row_evolves b c → row_evolves a c.
Proof.
  intros (Hf1 & Hc1 & Hd1) (Hf2 & Hc2 & Hd2).
  split; [congruence|]. split; [lia|tauto].
Qed.

Lemma row_evolves_id (r r' : File.row) : row_evolves r r' → File.id r' = File.id r.
Proof. intros [Hf _]. unfold frozen in Hf. congruence. Qed.

Lemma Forall2_row_evolves_ids (old kept : list File.row) :
  Forall2 row_evolves old kept → map File.id kept = map File.id old.
Proof.
  induction 1 as [|r r' old kept Hr _ IH]; [reflexivity|].
  cbn. rewrite IH. f_equal. apply row_evolves_id, Hr.
Qed.

#[local] Instance row_evolves_preorder : PreOrder row_evolves.
Proof.
  split; [exact row_evolves_refl|exact row_evolves_trans].
Qed.

#[local] Instance ledger_evolves_preorder : PreOrder ledger_evolves.
Proof.
  split.
  - intros rows. exists rows, []. rewrite app_nil_r. split; [reflexivity|].
    split; [reflexivity|constructor].
  - intros a b c (k1 & a1 & -> & Hk1 & Ha1) (k2 & a2 & -> & Hk2 & Ha2).
    apply Forall2_app_inv_l in Hk2 as (k2a & k2b & Hka & Hkb & ->).
    exists k2a, (k2b ++ a2). rewrite <- app_assoc. split; [reflexivity|].
    split.
    + transitivity k1; assumption.
    + apply Forall_app. split.
      * apply Forall_forall. intros r Hr.
        assert (Hin : File.id r ∈ map File.id k2b)
          by (apply list_elem_of_fmap; eauto).
        rewrite (Forall2_row_evolves_ids _ _ Hkb) in Hin.
        apply list_elem_of_fmap in Hin as (r0 & -> & Hr0).
        rewrite Forall_forall in Ha1. apply Ha1, Hr0.
      * eapply Forall_impl; [exact Ha2|]. cbn. intros r Hr Hin. apply Hr.
        rewrite map_app. apply elem_of_app. left.
        rewrite (Forall2_row_evolves_ids _ _ Hk1). exact Hin.
Qed.

#[local] Instance files_evolve_preorder : PreOrder files_evolve.
Proof.
  split.
  - intros w. unfold files_evolve. reflexivity.
  - intros a b c. unfold files_evolve. apply transitivity.
Qed.

Lemma files_evolve_same (w w' : World) : files w' = files w → files_evolve w w'.
Proof. intros H. unfold files_evolve. rewrite H. reflexivity. Qed.

Lemma ledger_evolves_tombstoned (fileId : string) (old new : list File.row) :
  ledger_evolves old new → tombstoned fileId old → tombstoned fileId new.
Proof.
  intros (kept & added & -> & Hkept & Hadded) [(r & Hr & Hid) Hall].
  split.
  - apply list_elem_of_lookup in Hr as [i Hi].
    destruct (Forall2_lookup_l _ _ _ _ _ Hkept Hi) as (r' & Hi' & Hrr').
    exists r'. split.
    + apply elem_of_app. left. apply list_elem_of_lookup. eauto.
    + rewrite (row_evolves_id _ _ Hrr'). exact Hid.
  - intros r' Hr' Hid'. apply elem_of_app in Hr' as [Hr'|Hr'].
    + apply list_elem_of_lookup in Hr' as [i Hi'].
      destruct (Forall2_lookup_r _ _ _ _ _ Hkept Hi') as (r0 & Hi0 & Hrr').
      destruct Hrr' as (Hf & _ & Hdel). apply Hdel, Hall.
      * apply list_elem_of_lookup. eauto.
      * unfold frozen in Hf. congruence.
    + exfalso. rewrite Forall_forall in Hadded. apply (Hadded _ Hr').
      rewrite Hid', <- Hid. apply list_elem_of_fmap. eauto.
Qed.

Lemma respects_same_files {A} (m : M A) :
  (∀ w, files (m w).2 = files w) → respects files_evolve m.
Proof. intros H w. apply files_evolve_same, H. Qed.

Lemma update_where_evolves (p : File.row → bool) (f : File.row → File.row)
    (rows : list File.row) :
  (∀ r, row_evolves r (f r)) →
  Forall2 row_evolves rows (db.update_where p f rows).
Proof.
  intros Hf. induction rows as [|r rows IH]; [constructor|].
  cbn. constructor; [|exact IH]. destruct (p r); [apply Hf|reflexivity].
Qed.

Lemma respects_update_files (p : File.row → bool) (f : File.row → File.row) :
  (∀ r, row_evolves r (f r)) → respects files_evolve (db.update_files p f).
Proof.
  intros Hf w. unfold files_evolve, db.update_files. cbn.
  exists (db.update_where p f (files w)), []. rewrite app_nil_r.
  split; [reflexivity|]. split; [apply update_where_evolves, Hf|constructor].
Qed.

Lemma row_evolves_download (r : File.row) :
  row_evolves r (File.set_download_count (File.download_count r + 1) r).
Proof. split; [reflexivity|]. cbn. split; [lia|tauto]. Qed.

Lemma row_evolves_delete (r : File.row) :
  row_evolves r (File.set_is_deleted true r).
Proof. split; [reflexivity|]. cbn. split; [lia|tauto]. Qed.

Lemma existsb_id_false (rows : list File.row) (fileId : string) :
  existsb (λ r, File.id r === fileId) rows = false →
  fileId ∉ map File.id rows.
Proof.
  intros H Hin. apply list_elem_of_fmap in Hin as (r & -> & Hr).
  apply list_elem_of_In in Hr.
  assert (Ht : existsb (λ r', File.id r' === File.id r) rows = true)
    by (apply existsb_exists; exists r; split; [exact Hr|apply String.eqb_refl]).
  congruence.
Qed.

Lemma respects_insert_file (r : File.row) :
  respects files_evolve (db.insert_file r).
Proof.
  intros w. unfold files_evolve, db.insert_file.
  destruct (existsb _ (files w)) eqn:Hex; cbn.
  - reflexivity.
  - exists (files w), [r]. split; [reflexivity|]. split; [reflexivity|].
    constructor; [|constructor]. apply existsb_id_false, Hex.
Qed.

Ltac same_files :=
  apply respects_same_files; intros ?w;
  cbv beta delta
    [fs.writeFileSync fs.readFileSync fs.unlinkSync fs.existsSync
     db.insert_device db.insert_api_key db.update_devices db.update_api_keys
     db.delete_devices modify gets];
  repeat match goal with
         | |- context [match ?x with _ => _ end] => destruct x
         | |- context [if ?x then _ else _] => destruct x
         end; reflexivity.

Ltac files_prim :=
  first [ apply respects_insert_file
        | apply respects_update_files;
          first [exact row_evolves_download|exact row_evolves_delete]
        | same_files ].

Section LedgerHandlers.
Context {P : Platform} (cfg : Config) (env : Env).

Lemma respects_remove_blob (filename : string) :
  respects files_evolve (Files.remove_blob cfg filename).
Proof. unfold Files.remove_blob. respects_auto files_prim. Qed.

Lemma respects_sweep (expiredFiles : list File.row) (cleanedCount : nat) :
  respects files_evolve (Files.sweep cfg expiredFiles cleanedCount).
Proof.
  revert cleanedCount.
  induction expiredFiles as [|file rest IH]; intros cleanedCount; cbn [Files.sweep].
  - apply respects_ret; apply _.
  - apply respects_bind; [apply _|files_prim|intros _].
    apply respects_bind; [apply _|apply respects_remove_blob|intros removed].
    apply IH.
Qed.

Ltac files_calls :=
  first [ apply respects_remove_blob | apply respects_sweep | files_prim ].

Lemma respects_handler (e : Endpoint) (req : Request) (ctx : Ctx) :
  respects files_evolve (handler cfg env e req ctx).
Proof.
  destruct e; cbn [handler];
    try (unfold Auth.bootstrap, Auth.validate, Auth.list_keys, Auth.revoke,
           Auth.generate, Auth.active_key,
           Devices.list_devices, Devices.me, Devices.get_device,
           Devices.update_device, Devices.trust_device,
           Devices.untrust_device, Devices.delete_device, Devices.stats,
           Devices.register, Devices.discover,
           DeviceManager.getDevices, DeviceManager.getDevice,
           DeviceManager.trustDevice, DeviceManager.untrustDevice,
           DeviceManager.deleteDevice, DeviceManager.addDiscoveredDevice,
           Files.list_files, Files.upload_file, Files.upload_body,
           Files.upload_store, Files.upload_cleanup, Files.anonymous_device,
           Files.rename_device,
           Files.download_file, Files.file_info, Files.delete_file,
           Files.live_file, Files.setHeader;
         respects_auto files_prim; fail).
  - unfold Files.delete_file. respects_auto files_calls.
  - unfold Files.cleanup. respects_auto files_calls.
Qed.

Lemma respects_guard (g : Guard) (req : Request) (ctx : Ctx) :
  respects files_evolve (guard cfg env g req ctx).
Proof.
  destruct g; cbn [guard];
    unfold Auth.authenticateRequest, Auth.requirePermission, Auth.active_key,
      Files.uploadSingle;
    respects_auto files_prim.
Qed.

Lemma respects_run (guards : list Guard) (e : Endpoint) (req : Request)
    (ctx : Ctx) :
  respects files_evolve (run cfg env guards e req ctx).
Proof.
  revert ctx. induction guards as [|g rest IH]; intros ctx; cbn [run].
  - apply respects_handler.
  - apply respects_bind; [apply _|apply respects_guard|intros [r|ctx']].
    + apply respects_ret; apply _.
    + apply IH.
Qed.

Lemma respects_serve (req : Request) : respects files_evolve (serve cfg env req).
Proof.
  unfold serve. destruct (find_route _ _ _) as [[r params]|].
  - apply respects_run.
  - apply respects_ret; apply _.
Qed.

End LedgerHandlers.

(** ** Queries over the joined tables *)

Lemma left_join_fst {A B} (on : A → B → bool) (a : list A) (b : list B)
    (row : A * option B) :
  row ∈ db.left_join on a b → row.1 ∈ a.
Proof.
  unfold db.left_join. intros Hin. apply list_elem_of_In, in_flat_map in Hin.
  destruct Hin as (x & Hx & Hrow). apply list_elem_of_In in Hx.
  destruct (List.filter (on x) b) as [|y ys].
  - destruct Hrow as [<-|[]]. exact Hx.
  - apply in_map_iff in Hrow as (y' & <- & _). exact Hx.
Qed.

Lemma find_none_all {A} (p : A → bool) (l : list A) :
  (∀ x, x ∈ l → p x = false) → List.find p l = None.
Proof.
  induction l as [|x l IH]; intros H; [reflexivity|]. cbn.
  rewrite (H x) by left. apply IH. intros y Hy. apply H. right. exact Hy.
Qed.

Lemma insert_desc_elem {A} (key : A → string) (x y : A) (l : list A) :
  y ∈ db.insert_desc key x l → y = x ∨ y ∈ l.
Proof.
  induction l as [|z l IH]; cbn.
  - intros H. apply list_elem_of_singleton in H. left. exact H.
  - destruct (SQLite.text_lt (key x) (key z)).
    + intros H. apply elem_of_cons in H as [->|H]; [right; left|].
      destruct (IH H) as [->|Hl]; [left; reflexivity|right; right; exact Hl].
    + intros H. apply elem_of_cons in H as [->|H]; [left; reflexivity|].
      right. exact H.
Qed.

Lemma order_by_desc_elem {A} (key : A → string) (y : A) (l : list A) :
  y ∈ db.order_by_desc key l → y ∈ l.
Proof.
  induction l as [|x l IH]; cbn; [trivial|].
  intros H. apply insert_desc_elem in H as [->|H]; [left|right; apply IH, H].
Qed.

Lemma limit_offset_elem {A} (limit offset : Z) (y : A) (l : list A) :
  y ∈ db.limit_offset limit offset l → y ∈ l.
Proof.
  unfold db.limit_offset. intros H.
  destruct (limit <? 0).
  - apply list_elem_of_lookup in H as [i Hi]. rewrite lookup_drop in Hi.
    apply list_elem_of_lookup. eauto.
  - apply list_elem_of_lookup in H as [i Hi].
    apply lookup_take_Some in Hi as [Hi _]. rewrite lookup_drop in Hi.
    apply list_elem_of_lookup. eauto.
Qed.

Section Exclusion.
Context {P : Platform} (cfg : Config) (env : Env).

Lemma live_file_none (fileId : string) (w : World) :
  (∀ r, r ∈ files w → File.id r = fileId → File.is_deleted r = true) →
  Files.live_file fileId w = (Ok None, w).
Proof.
  intros Hall. unfold Files.live_file, gets. f_equal. f_equal.
  apply find_none_all. intros row Hrow.
  apply left_join_fst in Hrow.
  destruct (File.id row.1 === fileId) eqn:Hid; [|reflexivity].
  apply String.eqb_eq in Hid. rewrite (Hall _ Hrow Hid). reflexivity.
Qed.

Lemma file_info_deleted (req : Request) (ctx : Ctx) (w : World) :
  (∀ r, r ∈ files w → File.id r = param ctx → File.is_deleted r = true) →
  Files.file_info env req ctx w = (Ok (error 404 "File not found"), w).
Proof.
  intros Hall. unfold Files.file_info. munfold.
  rewrite (live_file_none _ _ Hall). reflexivity.
Qed.

Lemma download_file_deleted (req : Request) (ctx : Ctx) (w : World) :
  (∀ r, r ∈ files w → File.id r = param ctx → File.is_deleted r = true) →
  Files.download_file cfg env req ctx w = (Ok (error 404 "File not found"), w).
Proof.
  intros Hall. unfold Files.download_file. munfold.
  rewrite (live_file_none _ _ Hall). reflexivity.
Qed.

Lemma list_files_rows (req : Request) (ctx : Ctx) (w : World)
    (listing : list FileView) (v : FileView) :
  (Files.list_files env req ctx w).1 = Ok (json (FilesBody listing)) →
  v ∈ listing →
  ∃ r, r ∈ files w ∧ File.is_deleted r = false ∧ view_id v = File.id r
       ∧ Files.sql_not_expired env r = true.
Proof.
  unfold Files.list_files. munfold.
  destruct (db.int64 _) as [limit|]; [|discriminate].
  destruct (db.int64 _) as [offset|]; [|discriminate].
  cbn [fst]. intros Heq Hv. injection Heq as <-.
  apply list_elem_of_fmap in Hv as (row & -> & Hrow).
  apply limit_offset_elem, order_by_desc_elem in Hrow.
  apply list_elem_of_In, filter_In in Hrow as [Hrow Hp].
  apply list_elem_of_In, left_join_fst in Hrow.
  apply andb_true_iff in Hp as [Hp Hexp]. apply andb_true_iff in Hp as [Hdel _].
  exists row.1. split; [exact Hrow|]. split; [|split; [reflexivity|exact Hexp]].
  apply negb_true_iff, Hdel.
Qed.

End Exclusion.

(** ** Tombstones *)

Lemma replay_evolves {P : Platform} (cfg : Config) (trace : list (Env * Request))
    (w : World) :
  ledger_evolves (files w) (files (replay cfg trace w)).
Proof.
  revert w. induction trace as [|[env req] trace IH]; intros w; cbn.
  - reflexivity.
  - transitivity (files (serve_world cfg env req w)); [|apply IH].
    apply (respects_serve cfg env req w).
Qed.

(** C6: once a record is deleted, no sequence of requests brings it back:
    after any trace every record is the record it was but for a download
    count that grew and a tombstone that was set, the deleted id is still
    deleted, and info, download and list do not serve it. *)
Theorem tombstone_is_final {P : Platform} (cfg : Config)
    (trace : list (Env * Request)) (w : World) (fileId : string) :
  tombstoned fileId (files w) →
  ledger_evolves (files w) (files (replay cfg trace w))
  ∧ tombstoned fileId (files (replay cfg trace w))
  ∧ ∀ (env : Env) (req : Request) (ctx : Ctx),
      (param ctx = fileId →
       Files.file_info env req ctx (replay cfg trace w)
       = (Ok (error 404 "File not found"), replay cfg trace w)
       ∧ Files.download_file cfg env req ctx (replay cfg trace w)
         = (Ok (error 404 "File not found"), replay cfg trace w))
      ∧ ∀ listing v,
          (Files.list_files env req ctx (replay cfg trace w)).1
          = Ok (json (FilesBody listing)) →
          v ∈ listing → view_id v ≠ fileId.
Proof.
  intros Hdead.
  pose proof (replay_evolves cfg trace w) as Hev.
  pose proof (ledger_evolves_tombstoned _ _ _ Hev Hdead) as [Hex Hall].
  split; [exact Hev|]. split; [split; assumption|].
  intros env req ctx. split.
  - intros <-. split.
    + apply file_info_deleted, Hall.
    + apply download_file_deleted, Hall.
  - intros listing v Hlist Hv Hid.
    destruct (list_files_rows env req ctx _ _ _ Hlist Hv)
      as (r & Hr & Hlive & Hview & _).
    rewrite (Hall r Hr) in Hlive by congruence. discriminate.
Qed.

Lemma tombstone_is_final_witness :
  let w := Sample.ledger (Sample.record None true) in
  let trace :=
    [(Sample.clock Sample.morning, Sample.upload_request []);
     (Sample.clock Sample.afternoon, Sample.request GET ["files"; "f1"]);
     (Sample.clock Sample.afternoon, Sample.request POST ["files"; "cleanup"])] in
  tombstoned "f1" (files w)
  ∧ ledger_evolves (files w)
      (files (replay (P := Sample.platform) Sample.config trace w))
  ∧ tombstoned "f1" (files (replay (P := Sample.platform) Sample.config trace w)).
Proof.
  intros w trace.
  assert (Hdead : tombstoned "f1" (files w)).
  { split.
    - exists (Sample.record None true). split; [left|reflexivity].
    - intros r Hr _. apply list_elem_of_singleton in Hr as ->. reflexivity. }
  split; [exact Hdead|].
  destruct (tombstone_is_final (P := Sample.platform) Sample.config trace w "f1" Hdead)
    as (Hev & Hdead' & _).
  split; assumption.
Defined.

(** ** The expiry check *)

Lemma find_app_first {A} (p : A → bool) (l1 l2 : list A) :
  List.find p (l1 ++ l2)
  = match List.find p l1 with
    | Some x => Some x
    | None => List.find p l2
    end.
Proof.
  induction l1 as [|x l1 IH]; [reflexivity|]. cbn.
  destruct (p x); [reflexivity|exact IH].
Qed.

Lemma find_left_join {A B} (on : A → B → bool) (q : A → bool) (a : list A)
    (b : list B) :
  List.find (λ row : A * option B, q row.1) (db.left_join on a b)
  = (λ x, (x, head (List.filter (on x) b))) <$> List.find q a.
Proof.
  unfold db.left_join. induction a as [|x a IH]; [reflexivity|].
  cbn [flat_map List.find]. rewrite find_app_first, IH. clear IH.
  destruct (q x) eqn:Hq.
  - cbn [fmap option_fmap option_map].
    destruct (List.filter (on x) b) as [|y ys]; cbn; rewrite Hq; reflexivity.
  - rewrite find_none_all; [reflexivity|].
    intros row Hrow. replace row.1 with x; [exact Hq|].
    destruct (List.filter (on x) b) as [|y ys].
    + apply list_elem_of_singleton in Hrow as ->. reflexivity.
    + apply list_elem_of_fmap in Hrow as (y' & -> & _). reflexivity.
Qed.

Lemma find_by_key (g : File.row → bool) (rows : list File.row) (r : File.row) :
  NoDup (map File.id rows) → r ∈ rows →
  List.find (λ f, (File.id f === File.id r) && g f) rows
  = if g r then Some r else None.
Proof.
  induction rows as [|x rows IH]; intros Hnd Hr.
  - apply elem_of_nil in Hr as [].
  - cbn in Hnd. apply NoDup_cons in Hnd as [Hx Hnd]. cbn [List.find].
    apply elem_of_cons in Hr as [->|Hr].
    + rewrite String.eqb_refl. cbn. destruct (g x) eqn:Hg; [reflexivity|].
      apply find_none_all. intros y Hy.
      destruct (File.id y === File.id x) eqn:Hid; [|reflexivity].
      apply String.eqb_eq in Hid. exfalso. apply Hx. rewrite <- Hid.
      apply list_elem_of_fmap. eauto.
    + destruct (File.id x === File.id r) eqn:Hid.
      * apply String.eqb_eq in Hid. exfalso. apply Hx. rewrite Hid.
        apply list_elem_of_fmap. eauto.
      * cbn. apply IH; assumption.
Qed.

Section Access.
Context {P : Platform} (cfg : Config) (env : Env).

Lemma live_file_by_key (w : World) (r : File.row) :
  NoDup (map File.id (files w)) → r ∈ files w →
  Files.live_file (File.id r) w
  = (Ok (if File.is_deleted r then None
         else Some (r, head (List.filter
                              (λ d, File.device_id r === Device.id d)
                              (devices w)))), w).
Proof.
  intros Hnd Hr. unfold Files.live_file, gets, Files.files_with_devices.
  pose proof (find_left_join (λ f d, File.device_id f === Device.id d)
                (λ f, (File.id f === File.id r) && negb (File.is_deleted f))
                (files w) (devices w)) as Hjoin.
  cbv beta in Hjoin. unfold db.left_join in *. unfold Files.joined.
  rewrite Hjoin. clear Hjoin.
  rewrite (find_by_key (λ f, negb (File.is_deleted f))) by assumption.
  destruct (File.is_deleted r); reflexivity.
Qed.

Lemma js_expired_accessible (r : File.row) :
  File.is_deleted r = false →
  accessible (now env) r = negb (Files.js_expired env r).
Proof.
  intros Hd. unfold accessible, Files.js_expired. rewrite Hd. cbn.
  destruct (File.expires_at r) as [t|]; [|reflexivity].
  rewrite Z.leb_antisym. reflexivity.
Qed.

End Access.

(** C5, as the code applies the check: info serves a record exactly when it
    is not deleted and has no expiry or [now <= expiresAt]; a record that
    fails this check is refused by info and by download alike, with 404 when
    it is deleted and 410 when it is expired; and no listing shows a deleted
    record. *)
Theorem expiry_check_at_info_and_download {P : Platform} (cfg : Config)
    (env : Env) (w : World) (r : File.row) (req : Request) (ctx : Ctx) :
  NoDup (map File.id (files w)) →
  r ∈ files w →
  param ctx = File.id r →
  (accessible (now env) r = true →
   ∃ v, Files.file_info env req ctx w = (Ok (json (FileInfoBody v)), w)
        ∧ view_id v = File.id r)
  ∧ (accessible (now env) r = false →
     Files.file_info env req ctx w = (Ok (refusal r), w)
     ∧ Files.download_file cfg env req ctx w = (Ok (refusal r), w))
  ∧ (File.is_deleted r = true →
     ∀ listing v,
       (Files.list_files env req ctx w).1 = Ok (json (FilesBody listing)) →
       v ∈ listing → view_id v ≠ File.id r).
Proof.
  intros Hnd Hr Hparam.
  pose proof (live_file_by_key w r Hnd Hr) as Hlive.
  split; [|split].
  - intros Hacc. unfold Files.file_info. munfold. rewrite Hparam, Hlive.
    destruct (File.is_deleted r) eqn:Hd;
      [unfold accessible in Hacc; rewrite Hd in Hacc; discriminate Hacc|].
    rewrite (js_expired_accessible env r Hd) in Hacc.
    apply negb_true_iff in Hacc. cbn [fst]. rewrite Hacc.
    eexists. split; reflexivity.
  - intros Hacc. unfold Files.file_info, Files.download_file, refusal. munfold.
    rewrite Hparam, Hlive.
    destruct (File.is_deleted r) eqn:Hd; [split; reflexivity|].
    rewrite (js_expired_accessible env r Hd) in Hacc.
    apply negb_false_iff in Hacc. cbn [fst]. rewrite Hacc.
    split; reflexivity.
  - intros Hd listing v Hlist Hv Hid.
    destruct (list_files_rows env req ctx _ _ _ Hlist Hv)
      as (r' & Hr' & Hlive' & Hview & _).
    assert (r' = r) as ->.
    { apply list_elem_of_lookup in Hr as [i Hi], Hr' as [j Hj].
      assert (i = j) as ->; [|congruence].
      apply (NoDup_lookup _ _ _ (File.id r) Hnd);
        rewrite list_lookup_fmap; [rewrite Hi|rewrite Hj]; cbn;
        congruence. }
    congruence.
Qed.

Lemma expiry_check_at_info_and_download_witness :
  let r := Sample.record (Some Sample.morning) false in
  let w := Sample.ledger r in
  let env := Sample.clock Sample.afternoon in
  let req := Sample.request GET ["files"; "f1"; "info"] in
  NoDup (map File.id (files w)) ∧ r ∈ files w
  ∧ param (Sample.ctx_of "f1") = File.id r
  ∧ accessible (now env) r = false
  ∧ Files.file_info env req (Sample.ctx_of "f1") w
    = (Ok (error 410 "File expired"), w)
  ∧ Files.download_file (P := Sample.platform) Sample.config env req
      (Sample.ctx_of "f1") w
    = (Ok (error 410 "File expired"), w).
Proof.
  intros r w env req.
  assert (Hnd : NoDup (map File.id (files w)))
    by (apply NoDup_singleton).
  assert (Hr : r ∈ files w) by left.
  assert (Hparam : param (Sample.ctx_of "f1") = File.id r) by reflexivity.
  assert (Hacc : accessible (now env) r = false) by reflexivity.
  split; [exact Hnd|]. split; [exact Hr|]. split; [exact Hparam|].
  split; [exact Hacc|].
  destruct (expiry_check_at_info_and_download (P := Sample.platform)
              Sample.config env w r req (Sample.ctx_of "f1") Hnd Hr Hparam)
    as (_ & Hrefuse & _).
  exact (Hrefuse Hacc).
Defined.

(** C5, as stated, fails twice.  At [now = expiresAt] the stated check
    ([now < expiresAt]) calls the record inaccessible, and info returns it.
    Five hours after it expired, the same day, the record is inaccessible
    and download refuses it, and the listing still shows it: the list query
    compares the ISO text of [expires_at] with SQLite's date text. *)
Lemma expiry_check_counterexample :
  let r := Sample.record (Some Sample.morning) false in
  let w := Sample.ledger r in
  spec_accessible Sample.morning r = false
  ∧ result_status (serve_response (P := Sample.platform) Sample.config
                 (Sample.clock Sample.morning)
                 (Sample.request GET ["files"; "f1"; "info"]) w)
    = Some 200
  ∧ spec_accessible Sample.afternoon r = false
  ∧ serve_response (P := Sample.platform) Sample.config
      (Sample.clock Sample.afternoon) (Sample.request GET ["files"; "f1"]) w
    = Ok (error 410 "File expired")
  ∧ serve_response (P := Sample.platform) Sample.config
      (Sample.clock Sample.afternoon) (Sample.request GET ["files"]) w
    = Ok (json (FilesBody [Files.view (r, None)])).
Proof. vm_compute. repeat split. Qed.

(** ** Authentication *)

Lemma NoDup_fmap_elem_inj {A B} (f : A → B) (l : list A) (x y : A) :
  NoDup (map f l) → x ∈ l → y ∈ l → f x = f y → x = y.
Proof.
  intros Hnd Hx Hy Hf.
  apply list_elem_of_lookup in Hx as [i Hi], Hy as [j Hj].
  assert (i = j) as ->; [|congruence].
  apply (NoDup_lookup _ _ _ (f x) Hnd);
    rewrite list_lookup_fmap; [rewrite Hi|rewrite Hj]; cbn; congruence.
Qed.

Lemma update_where_elem {A} (p : A → bool) (f : A → A) (rows : list A) (x : A) :
  x ∈ db.update_where p f rows →
  ∃ r, r ∈ rows ∧ x = (if p r then f r else r).
Proof.
  unfold db.update_where. intros H.
  apply list_elem_of_fmap in H as (r & -> & Hr). eauto.
Qed.

Section Authentication.
Context {P : Platform} (env : Env).

Lemma key_expired_live (k : ApiKey.row) :
  Auth.key_expired env k = negb (key_live (now env) k).
Proof.
  unfold Auth.key_expired, key_live.
  destruct (ApiKey.expires_at k) as [t|]; [|reflexivity].
  rewrite negb_orb, Z.leb_antisym, negb_involutive. reflexivity.
Qed.

Lemma authenticate_accepts (req : Request) (ctx : Ctx) (w : World)
    (k : ApiKey.row) :
  JS.truthy (Auth.presented_key req) = true →
  Auth.active_key
    (EncryptionService.hashApiKey (default EmptyString (Auth.presented_key req))) w
  = (Ok (Some k), w) →
  key_live (now env) k = true →
  Auth.authenticateRequest env req ctx w
  = (Ok (Continue (with_apiKey
           {| key_id := ApiKey.id k;
              principal_device := ApiKey.device_id k;
              principal_permissions := JS.split_comma (ApiKey.permissions k) |}
           ctx)), w).
Proof.
  intros Hkey Hfind Hlive. unfold Auth.authenticateRequest. munfold.
  rewrite Hkey. cbn [negb]. rewrite Hfind. cbn [fst snd].
  rewrite key_expired_live, Hlive. reflexivity.
Qed.

Lemma authenticate_expired (req : Request) (ctx : Ctx) (w : World)
    (k : ApiKey.row) :
  JS.truthy (Auth.presented_key req) = true →
  Auth.active_key
    (EncryptionService.hashApiKey (default EmptyString (Auth.presented_key req))) w
  = (Ok (Some k), w) →
  key_live (now env) k = false →
  Auth.authenticateRequest env req ctx w
  = (Ok (Respond (error 401 "API key expired")), w).
Proof.
  intros Hkey Hfind Hlive. unfold Auth.authenticateRequest. munfold.
  rewrite Hkey. cbn [negb]. rewrite Hfind. cbn [fst snd].
  rewrite key_expired_live, Hlive. reflexivity.
Qed.

Lemma revoked_lookup (rows : list ApiKey.row) (k : ApiKey.row) :
  NoDup (map ApiKey.key_hash rows) → k ∈ rows →
  List.find (λ r, (ApiKey.key_hash r === ApiKey.key_hash k) && ApiKey.is_active r)
    (db.update_where (λ r, ApiKey.id r === ApiKey.id k)
       (ApiKey.set_is_active false) rows) = None.
Proof.
  intros Hnd Hk. apply find_none_all. intros x Hx.
  apply update_where_elem in Hx as (r & Hr & ->).
  destruct (ApiKey.id r === ApiKey.id k) eqn:Hid.
  - cbn. apply andb_false_r.
  - destruct (ApiKey.key_hash r === ApiKey.key_hash k) eqn:Hh; [|reflexivity].
    apply String.eqb_eq in Hh.
    rewrite (NoDup_fmap_elem_inj _ _ _ _ Hnd Hr Hk Hh), String.eqb_refl in Hid.
    discriminate.
Qed.

Lemma same_but_active_update (p : ApiKey.row → bool) (rows : list ApiKey.row) :
  same_but_active (db.update_where p (ApiKey.set_is_active false) rows) rows.
Proof.
  unfold same_but_active, db.update_where. rewrite map_map.
  apply map_ext. intros r. destruct (p r); reflexivity.
Qed.

End Authentication.

(** C7: a key that authenticates is refused with 401 once [revoke] has run
    on its key id; the revocation leaves every row in place and changes
    nothing but [is_active], so the hash of the key is still stored. *)
Theorem revoked_key_is_refused {P : Platform} (env env' : Env) (w : World)
    (req revocation : Request) (ctx ctx' paramctx : Ctx) (principal : Principal) :
  NoDup (map ApiKey.key_hash (api_keys w)) →
  Auth.authenticateRequest env req ctx w = (Ok (Continue ctx'), w) →
  req_apiKey ctx' = Some principal →
  param paramctx = key_id principal →
  let w' := (Auth.revoke revocation paramctx w).2 in
  Auth.authenticateRequest env' req ctx w'
  = (Ok (Respond (error 401 "Invalid API key")), w')
  ∧ same_but_active (api_keys w') (api_keys w)
  ∧ (∃ k, k ∈ api_keys w'
          ∧ ApiKey.id k = key_id principal
          ∧ ApiKey.key_hash k
            = EncryptionService.hashApiKey
                (default EmptyString (Auth.presented_key req))
          ∧ ApiKey.is_active k = false)
  ∧ devices w' = devices w ∧ files w' = files w ∧ disk w' = disk w.
Proof.
  intros Hnd Hauth Hprincipal Hparam w'.
  unfold Auth.authenticateRequest in Hauth. munfold in Hauth.
  destruct (JS.truthy (Auth.presented_key req)) eqn:Hkey;
    [|discriminate Hauth].
  cbn [negb] in Hauth. unfold Auth.active_key in Hauth. munfold in Hauth.
  destruct (List.find _ (api_keys w)) as [k|] eqn:Hfind; [|discriminate Hauth].
  apply find_some in Hfind as [Hk Hmatch]. apply list_elem_of_In in Hk.
  apply andb_true_iff in Hmatch as [Hhash Hactive].
  apply String.eqb_eq in Hhash.
  destruct (Auth.key_expired env k); [discriminate Hauth|].
  injection Hauth as <-. cbn in Hprincipal. injection Hprincipal as <-.
  cbn [key_id] in Hparam.
  assert (Hw' : api_keys w'
                = db.update_where (λ r, ApiKey.id r === ApiKey.id k)
                    (ApiKey.set_is_active false) (api_keys w)).
  { unfold w', Auth.revoke. munfold. cbn. rewrite Hparam. reflexivity. }
  split; [|split; [|split]].
  - unfold Auth.authenticateRequest. munfold. rewrite Hkey. cbn [negb].
    unfold Auth.active_key. munfold. rewrite Hw', <- Hhash.
    rewrite (revoked_lookup _ _ Hnd Hk). reflexivity.
  - rewrite Hw'. apply same_but_active_update.
  - exists (ApiKey.set_is_active false k). rewrite Hw'. split; [|auto].
    unfold db.update_where. apply list_elem_of_fmap. exists k.
    rewrite String.eqb_refl. auto.
  - unfold w', Auth.revoke. munfold. cbn. auto.
Qed.

Lemma revoked_key_is_refused_witness :
  let w := Sample.keyring [Sample.key_row "k1" "sha256:secret" "read,write" true] in
  let req := Sample.with_key "secret" (Sample.request GET ["devices"]) in
  let principal :=
    {| key_id := "k1"; principal_device := "self";
       principal_permissions := ["read"; "write"] |} in
  let w' := (Auth.revoke (Sample.request DELETE ["auth"; "api-keys"; "k1"])
               (Sample.ctx_of "k1") w).2 in
  NoDup (map ApiKey.key_hash (api_keys w))
  ∧ Auth.authenticateRequest (P := Sample.platform)
      (Sample.clock Sample.morning) req (fresh []) w
    = (Ok (Continue (with_apiKey principal (fresh []))), w)
  ∧ Auth.authenticateRequest (P := Sample.platform)
      (Sample.clock Sample.afternoon) req (fresh []) w'
    = (Ok (Respond (error 401 "Invalid API key")), w')
  ∧ same_but_active (api_keys w') (api_keys w).
Proof.
  intros w req principal w'.
  assert (Hnd : NoDup (map ApiKey.key_hash (api_keys w)))
    by apply NoDup_singleton.
  assert (Hauth : Auth.authenticateRequest (P := Sample.platform)
                    (Sample.clock Sample.morning) req (fresh []) w
                  = (Ok (Continue (with_apiKey principal (fresh []))), w))
    by reflexivity.
  split; [exact Hnd|]. split; [exact Hauth|].
  destruct (revoked_key_is_refused (P := Sample.platform)
              (Sample.clock Sample.morning) (Sample.clock Sample.afternoon)
              w req (Sample.request DELETE ["auth"; "api-keys"; "k1"])
              (fresh []) (with_apiKey principal (fresh []))
              (Sample.ctx_of "k1") principal Hnd Hauth eq_refl eq_refl)
    as (Hrefused & Hsame & _).
  split; assumption.
Defined.

(** ** Where the key travels *)

Lemma find_route_In (routes : list Route) (m : Method) (p : list string)
    (r : Route) (params : list string) :
  find_route routes m p = Some (r, params) → In r routes.
Proof.
  induction routes as [|x routes IH]; cbn; [discriminate|].
  destruct (if method_eqb (route_method x) m then match_path (route_path x) p
            else None).
  - intros H. injection H as <- _. left. reflexivity.
  - intros H. right. apply IH, H.
Qed.

Lemma gated_guards (r : Route) (permission : string) :
  In r app_routes → gated (route_endpoint r) = Some permission →
  route_guards r = [AuthenticateRequest; RequirePermission permission].
Proof.
  intros Hin Hg. cbv in Hin.
  repeat (destruct Hin as [<-|Hin];
          [cbn in Hg; try discriminate Hg; injection Hg as <-; reflexivity|]).
  destruct Hin.
Qed.

Lemma open_guards (r : Route) :
  In r app_routes → open_to_all (route_endpoint r) = true →
  route_guards r = [] ∨ (route_endpoint r = FilesUpload
                         ∧ route_guards r = [UploadSingle]).
Proof.
  intros Hin Hg. cbv in Hin.
  repeat (destruct Hin as [<-|Hin];
          [cbn in Hg; try discriminate Hg; cbn; auto|]).
  destruct Hin.
Qed.

Section Carrier.
Context {P : Platform} (cfg : Config) (env : Env).

Lemma authenticate_carrier (req : Request) (key : string) (ctx : Ctx) :
  Auth.authenticateRequest env (carry_in_query key req) ctx
  = Auth.authenticateRequest env (carry_in_header key req) ctx.
Proof.
  unfold Auth.authenticateRequest, Auth.presented_key, JS.or_else.
  cbn [x_api_key query carry_in_query carry_in_header].
  rewrite lookup_insert_eq, lookup_delete_eq.
  cbn [JS.truthy].
  destruct (key === EmptyString) eqn:Hk; cbn [negb JS.truthy]; rewrite ?Hk;
    reflexivity.
Qed.

Lemma handler_carrier (e : Endpoint) (permission : string) (req : Request)
    (key : string) (ctx : Ctx) :
  gated e = Some permission →
  handler cfg env e (carry_in_query key req) ctx
  = handler cfg env e (carry_in_header key req) ctx.
Proof. destruct e; cbn [gated]; intros H; try discriminate H; reflexivity. Qed.

End Carrier.

(** C9: [authenticateRequest] takes the key from the X-API-Key header and
    from the [apiKey] query parameter alike.  Carried in either place, a key
    whose hash has an active, live row is accepted, and the request goes on
    with the id, the device and the permissions of that row; carried in
    either place, a key with no active row is refused with 401.  The two
    runs are equal in every case, and so are the answers and the effects of
    a gated operation, which runs its handler as that principal when the row
    carries the permission it demands. *)
Theorem key_in_query_as_in_header {P : Platform} (cfg : Config) (env : Env)
    (req : Request) (key : string) (w : World) :
  (∀ ctx, Auth.authenticateRequest env (carry_in_query key req) ctx w
          = Auth.authenticateRequest env (carry_in_header key req) ctx w)
  ∧ (key ≠ EmptyString →
     ∀ k ctx,
       Auth.active_key (EncryptionService.hashApiKey key) w = (Ok (Some k), w) →
       key_live (now env) k = true →
       let principal :=
         {| key_id := ApiKey.id k;
            principal_device := ApiKey.device_id k;
            principal_permissions := JS.split_comma (ApiKey.permissions k) |} in
       Auth.authenticateRequest env (carry_in_query key req) ctx w
       = (Ok (Continue (with_apiKey principal ctx)), w)
       ∧ Auth.authenticateRequest env (carry_in_header key req) ctx w
         = (Ok (Continue (with_apiKey principal ctx)), w))
  ∧ (key ≠ EmptyString →
     ∀ ctx,
       Auth.active_key (EncryptionService.hashApiKey key) w = (Ok None, w) →
       Auth.authenticateRequest env (carry_in_query key req) ctx w
       = (Ok (Respond (error 401 "Invalid API key")), w)
       ∧ Auth.authenticateRequest env (carry_in_header key req) ctx w
         = (Ok (Respond (error 401 "Invalid API key")), w))
  ∧ ∀ r params permission,
      find_route app_routes (method req) (path req) = Some (r, params) →
      gated (route_endpoint r) = Some permission →
      serve cfg env (carry_in_query key req) w
      = serve cfg env (carry_in_header key req) w
      ∧ (key ≠ EmptyString →
         ∀ k,
           Auth.active_key (EncryptionService.hashApiKey key) w
           = (Ok (Some k), w) →
           key_live (now env) k = true →
           JS.includes permission (JS.split_comma (ApiKey.permissions k)) = true →
           serve cfg env (carry_in_query key req) w
           = handler cfg env (route_endpoint r) (carry_in_query key req)
               (with_apiKey
                  {| key_id := ApiKey.id k;
                     principal_device := ApiKey.device_id k;
                     principal_permissions :=
                       JS.split_comma (ApiKey.permissions k) |}
                  (fresh params)) w).
Proof.
  assert (Hquery : key ≠ EmptyString →
            Auth.presented_key (carry_in_query key req) = Some key).
  { intros Hkey. unfold Auth.presented_key, JS.or_else.
    cbn [x_api_key query carry_in_query JS.truthy].
    apply lookup_insert_eq. }
  assert (Haccept : key ≠ EmptyString →
            ∀ k ctx,
              Auth.active_key (EncryptionService.hashApiKey key) w
              = (Ok (Some k), w) →
              key_live (now env) k = true →
              Auth.authenticateRequest env (carry_in_query key req) ctx w
              = (Ok (Continue (with_apiKey
                       {| key_id := ApiKey.id k;
                          principal_device := ApiKey.device_id k;
                          principal_permissions :=
                            JS.split_comma (ApiKey.permissions k) |} ctx)), w)).
  { intros Hkey k ctx Hfind Hlive.
    apply authenticate_accepts;
      [rewrite (Hquery Hkey); apply truthy_Some, Hkey
      |rewrite (Hquery Hkey); exact Hfind|exact Hlive]. }
  split; [|split; [|split]].
  - intros ctx. rewrite authenticate_carrier. reflexivity.
  - intros Hkey k ctx Hfind Hlive. cbv zeta. split.
    + apply Haccept; assumption.
    + rewrite <- authenticate_carrier. apply Haccept; assumption.
  - intros Hkey ctx Hfind.
    assert (Hrefused :
      Auth.authenticateRequest env (carry_in_query key req) ctx w
      = (Ok (Respond (error 401 "Invalid API key")), w)).
    { unfold Auth.authenticateRequest. munfold.
      rewrite (Hquery Hkey), (truthy_Some _ Hkey). cbn [negb].
      change (default EmptyString (Some key)) with key.
      rewrite Hfind. reflexivity. }
    split; [exact Hrefused|]. rewrite <- authenticate_carrier. exact Hrefused.
  - intros r params permission Hroute Hg. split.
    + unfold serve.
      cbn [method path carry_in_query carry_in_header]. rewrite Hroute.
      rewrite (gated_guards r permission (find_route_In _ _ _ _ _ Hroute) Hg).
      cbn [run guard]. rewrite authenticate_carrier.
      unfold mbind, M_bind, bind.
      destruct (Auth.authenticateRequest env (carry_in_header key req) _ w)
        as [[[resp|ctx']|e] w1]; try reflexivity.
      unfold Auth.requirePermission.
      destruct (req_apiKey ctx') as [principal|]; [|reflexivity].
      destruct (JS.includes permission _); [|reflexivity].
      cbn. rewrite (handler_carrier cfg env _ permission req key ctx' Hg).
      reflexivity.
    + intros Hkey k Hfind Hlive Hperm. unfold serve.
      cbn [method path carry_in_query]. rewrite Hroute.
      rewrite (gated_guards r permission (find_route_In _ _ _ _ _ Hroute) Hg).
      cbn [run guard]. unfold mbind, M_bind, bind.
      rewrite (Haccept Hkey k _ Hfind Hlive).
      unfold Auth.requirePermission.
      cbn [req_apiKey with_apiKey principal_permissions]. rewrite Hperm.
      reflexivity.
Qed.

Lemma key_in_query_as_in_header_witness :
  let row := Sample.key_row "k1" "sha256:secret" "read,write" true in
  let w := Sample.keyring [row] in
  let req := Sample.request GET ["devices"] in
  let env := Sample.clock Sample.morning in
  let principal :=
    {| key_id := "k1"; principal_device := "self";
       principal_permissions := ["read"; "write"] |} in
  Auth.authenticateRequest (P := Sample.platform) env
    (carry_in_query "secret" req) (Sample.ctx_of "x") w
  = (Ok (Continue (with_apiKey principal (Sample.ctx_of "x"))), w)
  ∧ Auth.authenticateRequest (P := Sample.platform) env
      (carry_in_header "secret" req) (Sample.ctx_of "x") w
    = (Ok (Continue (with_apiKey principal (Sample.ctx_of "x"))), w)
  ∧ Auth.authenticateRequest (P := Sample.platform) env
      (carry_in_query "guess" req) (Sample.ctx_of "x") w
    = (Ok (Respond (error 401 "Invalid API key")), w)
  ∧ serve (P := Sample.platform) Sample.config env (carry_in_query "secret" req) w
    = serve (P := Sample.platform) Sample.config env (carry_in_header "secret" req) w
  ∧ serve (P := Sample.platform) Sample.config env (carry_in_query "secret" req) w
    = handler (P := Sample.platform) Sample.config env DevicesList
        (carry_in_query "secret" req) (with_apiKey principal (fresh [])) w.
Proof.
  intros row w req env principal.
  destruct (key_in_query_as_in_header (P := Sample.platform) Sample.config
              env req "secret" w) as (_ & Haccept & _ & Hserve).
  destruct (key_in_query_as_in_header (P := Sample.platform) Sample.config
              env req "guess" w) as (_ & _ & Hrefuse & _).
  assert (Hsecret : "secret" ≠ EmptyString) by discriminate.
  assert (Hguess : "guess" ≠ EmptyString) by discriminate.
  destruct (Haccept Hsecret row (Sample.ctx_of "x") eq_refl eq_refl)
    as [Hq Hh].
  destruct (Hrefuse Hguess (Sample.ctx_of "x") eq_refl) as [Hno _].
  destruct (Hserve (route GET [Lit "devices"]
                      [AuthenticateRequest; RequirePermission "read"] DevicesList)
              [] "read" eq_refl eq_refl) as [Hsame Hrun].
  split; [exact Hq|]. split; [exact Hh|]. split; [exact Hno|].
  split; [exact Hsame|].
  exact (Hrun Hsecret row eq_refl eq_refl eq_refl).
Defined.

(** ** The API-key check *)

Section Gate.
Context {P : Platform} (cfg : Config) (env : Env).

Lemma gate_refuses (e : Endpoint) (permission : string) (req : Request)
    (ctx : Ctx) (w : World) :
  authorized env w req permission = false →
  ∃ response,
    run cfg env [AuthenticateRequest; RequirePermission permission] e req ctx w
    = (Ok response, w)
    ∧ (status response = 401 ∨ status response = 403).
Proof.
  intros Hno. unfold authorized in Hno. cbn [run guard].
  unfold Auth.authenticateRequest. munfold.
  destruct (JS.truthy (Auth.presented_key req)) eqn:Hkey; cbn [negb];
    [|eexists; split; [reflexivity|left; reflexivity]].
  cbn [andb] in Hno. unfold Auth.active_key. munfold.
  destruct (List.find _ (api_keys w)) as [k|] eqn:Hfind;
    [|eexists; split; [reflexivity|left; reflexivity]].
  apply find_some in Hfind as [Hk Hmatch].
  destruct (Auth.key_expired env k) eqn:Hexp;
    [eexists; split; [reflexivity|left; reflexivity]|].
  unfold Auth.requirePermission. cbn [req_apiKey with_apiKey principal_permissions].
  destruct (JS.includes permission (JS.split_comma (ApiKey.permissions k)))
    eqn:Hperm; [|eexists; split; [reflexivity|right; reflexivity]].
  exfalso. rewrite key_expired_live in Hexp. apply negb_false_iff in Hexp.
  assert (Hyes : existsb
            (λ k, (ApiKey.key_hash k
                   === EncryptionService.hashApiKey
                         (default EmptyString (Auth.presented_key req)))
                  && ApiKey.is_active k && key_live (now env) k
                  && JS.includes permission
                       (JS.split_comma (ApiKey.permissions k)))
            (api_keys w) = true).
  { apply existsb_exists. exists k. split; [exact Hk|].
    rewrite Hmatch, Hexp, Hperm. reflexivity. }
  congruence.
Qed.

End Gate.

(** C1, as the code gates its operations: a request that resolves to
    generating an API key, to listing, reading, renaming, trusting,
    untrusting or deleting devices, to device statistics, to deleting a file
    or to the cleanup sweep is answered 401 or 403 and changes nothing
    unless the caller presents the key of an active, live row carrying the
    permission the operation demands; file list, upload, download and info,
    and with them bootstrap, device registration and the health check, have
    no authentication in front of their handler. *)
Theorem gate_in_front_of_admin_operations {P : Platform} (cfg : Config)
    (env : Env) (req : Request) (w : World) (r : Route) (params : list string) :
  find_route app_routes (method req) (path req) = Some (r, params) →
  (∀ permission,
     gated (route_endpoint r) = Some permission →
     authorized env w req permission = false →
     serve_world cfg env req w = w
     ∧ (result_status (serve_response cfg env req w) = Some 401
        ∨ result_status (serve_response cfg env req w) = Some 403))
  ∧ (open_to_all (route_endpoint r) = true →
     serve cfg env req w
     = handler cfg env (route_endpoint r) req (fresh params) w
     ∨ (route_endpoint r = FilesUpload
        ∧ serve cfg env req w
          = run cfg env [UploadSingle] FilesUpload req (fresh params) w)).
Proof.
  intros Hroute. pose proof (find_route_In _ _ _ _ _ Hroute) as Hin.
  unfold serve_world, serve_response, serve. rewrite Hroute. split.
  - intros permission Hg Hno. rewrite (gated_guards r permission Hin Hg).
    destruct (gate_refuses cfg env (route_endpoint r) permission req
                (fresh params) w Hno) as (response & -> & Hstatus).
    split; [reflexivity|]. cbn. destruct Hstatus as [->| ->]; auto.
  - intros Hopen. destruct (open_guards r Hin Hopen) as [->|[He ->]].
    + left. reflexivity.
    + right. split; [exact He|]. rewrite He. reflexivity.
Qed.

Lemma gate_in_front_of_admin_operations_witness :
  let w := Sample.keyring [Sample.key_row "k1" "sha256:secret" "read" true] in
  let req := Sample.with_key "secret" (Sample.request POST ["files"; "cleanup"]) in
  find_route app_routes (method req) (path req)
  = Some (route POST [Lit "files"; Lit "cleanup"]
            [AuthenticateRequest; RequirePermission "write"] FilesCleanup, [])
  ∧ gated FilesCleanup = Some "write"
  ∧ authorized (P := Sample.platform) (Sample.clock Sample.morning) w req "write"
    = false
  ∧ serve_world (P := Sample.platform) Sample.config
      (Sample.clock Sample.morning) req w = w
  ∧ (result_status (serve_response (P := Sample.platform) Sample.config
                      (Sample.clock Sample.morning) req w) = Some 401
     ∨ result_status (serve_response (P := Sample.platform) Sample.config
                        (Sample.clock Sample.morning) req w) = Some 403).
Proof.
  intros w req. split; [reflexivity|]. split; [reflexivity|].
  split; [reflexivity|].
  destruct (gate_in_front_of_admin_operations (P := Sample.platform)
              Sample.config (Sample.clock Sample.morning) req w _ _ eq_refl)
    as [Hgated _].
  exact (Hgated "write" eq_refl eq_refl).
Defined.

(** C1, as stated, fails.  With no API key at all: bootstrap creates the
    first admin key, registration creates a device, the health check
    answers, the key listing is served, and a revocation switches a key
    off. *)
Lemma gate_counterexample :
  let w := Sample.keyring [Sample.key_row "k1" "sha256:secret" "read,write" true] in
  let env := Sample.clock Sample.morning in
  let register :=
    {| method := POST; path := ["devices"; "register"]; ip := "192.168.1.9";
       user_agent := None; x_api_key := None; query := ∅;
       body := list_to_map [("deviceName", "phone"); ("publicKey", "pk")];
       expiresInHours := None; upload := None |} in
  (serve (P := Sample.platform) Sample.config env
     (Sample.request POST ["auth"; "bootstrap"]) Sample.empty).1
  = Ok (json (ApiKeyBody "k1" "u-key" ["read"; "write"; "admin"] None))
  ∧ result_status
      (serve_response (P := Sample.platform) Sample.config env register w)
    = Some 200
  ∧ map Device.id
      (devices (serve_world (P := Sample.platform) Sample.config env register w))
    = ["u-device"]
  ∧ result_status
      (serve_response (P := Sample.platform) Sample.config env
         (Sample.request GET ["health"]) w)
    = Some 200
  ∧ result_status
      (serve_response (P := Sample.platform) Sample.config env
         (Sample.request GET ["auth"; "api-keys"]) w)
    = Some 200
  ∧ serve_response (P := Sample.platform) Sample.config env
      (Sample.request DELETE ["auth"; "api-keys"; "k1"]) w
    = Ok (json SuccessBody)
  ∧ map ApiKey.is_active
      (api_keys (serve_world (P := Sample.platform) Sample.config env
                   (Sample.request DELETE ["auth"; "api-keys"; "k1"]) w))
    = [false].
Proof. vm_compute. repeat split. Qed.

(** ** Uploads *)

Lemma route_of_upload :
  find_route app_routes POST ["files"]
  = Some (route POST [Lit "files"] [UploadSingle] FilesUpload, []).
Proof. reflexivity. Qed.

Section Upload.
Context {P : Platform} (cfg : Config) (env : Env).

Lemma upload_fails_at_expiry (req : Request) (w : World) (part : Upload)
    (minutes : string) :
  method req = POST → path req = ["files"] →
  upload req = Some part →
  Z.of_nat (length (content part)) ≤ Files.fileSize_limit →
  JS.truthy (body req !! "deviceId") = true →
  body req !! "expiresInMinutes" = Some minutes →
  minutes ≠ EmptyString → JS.parseInt minutes = None →
  ∃ blob,
    serve cfg env req w
    = (Ok (error 500 "File upload failed"),
       with_disk (delete (Files.stored_path cfg env part)
                    (<[Files.stored_path cfg env part +:+ ".enc" := blob]>
                       (<[Files.stored_path cfg env part := content part]>
                          (disk w)))) w).
Proof.
  intros Hm Hp Hup Hsize Hdev Hmin Hne Hnan.
  unfold serve. rewrite Hm, Hp, route_of_upload.
  cbn [run route_guards route_endpoint route guard handler].
  unfold Files.uploadSingle. rewrite Hup.
  destruct (Files.fileSize_limit <? _) eqn:Hlim; [apply Z.ltb_lt in Hlim; lia|].
  unfold Files.upload_file, Files.upload_body, Files.upload_store,
    Files.upload_cleanup.
  munfold. wsimpl. rewrite Hdev. wsimpl.
  rewrite lookup_insert_eq, encryptFile_blob. wsimpl.
  rewrite lookup_insert_ne by apply append_enc_ne.
  rewrite lookup_insert_eq. wsimpl.
  unfold Files.upload_expiry. rewrite Hmin, (truthy_Some _ Hne).
  change (default EmptyString (Some minutes)) with minutes. rewrite Hnan.
  cbn [Date.addMinutes Date.add mbind option_bind Date.toISOString].
  wsimpl. unfold Files.stored_path at 1. rewrite join_nonempty.
  cbv beta iota. wsimpl. rewrite lookup_delete_eq. eexists. reflexivity.
Qed.

End Upload.

(** C4, as the code behaves: an upload whose [expiresInMinutes] is not a
    number fails while the expiry is computed, after the ciphertext was
    written and the plaintext removed.  The request ends in 500 and no file
    record is created, but the catch block's first [unlinkSync] throws on
    the plaintext that is already gone, so the second never runs and the
    ciphertext blob stays on disk. *)
Theorem failed_upload_leaves_ciphertext {P : Platform} (cfg : Config)
    (env : Env) (req : Request) (w : World) (part : Upload) (minutes : string) :
  method req = POST → path req = ["files"] →
  upload req = Some part →
  Z.of_nat (length (content part)) ≤ Files.fileSize_limit →
  JS.truthy (body req !! "deviceId") = true →
  body req !! "expiresInMinutes" = Some minutes →
  minutes ≠ EmptyString → JS.parseInt minutes = None →
  serve_response cfg env req w = Ok (error 500 "File upload failed")
  ∧ files (serve_world cfg env req w) = files w
  ∧ is_Some (disk (serve_world cfg env req w)
             !! (Files.stored_path cfg env part +:+ ".enc")).
Proof.
  intros Hm Hp Hup Hsize Hdev Hmin Hne Hnan.
  unfold serve_response, serve_world.
  destruct (upload_fails_at_expiry cfg env req w part minutes) as [blob ->];
    try assumption.
  split; [reflexivity|]. split; [reflexivity|]. cbn [snd disk with_disk].
  rewrite lookup_delete_ne by (intros H; symmetry in H; exact (append_enc_ne _ H)).
  rewrite lookup_insert_eq. eauto.
Qed.

Lemma failed_upload_leaves_ciphertext_witness :
  let req := Sample.upload_request [("deviceId", "d1"); ("expiresInMinutes", "abc")] in
  let env := Sample.clock Sample.morning in
  JS.parseInt "abc" = None
  ∧ serve_response (P := Sample.platform) Sample.config env req Sample.empty
    = Ok (error 500 "File upload failed")
  ∧ files (serve_world (P := Sample.platform) Sample.config env req Sample.empty)
    = []
  ∧ is_Some (disk (serve_world (P := Sample.platform) Sample.config env req
                     Sample.empty) !! "uploads/u-stored.txt.enc").
Proof.
  intros req env. split; [reflexivity|].
  apply (failed_upload_leaves_ciphertext (P := Sample.platform) Sample.config
           env req Sample.empty Sample.hello "abc");
    try reflexivity.
  - vm_compute. discriminate.
  - discriminate.
Defined.

(** ** Devices and trust *)

#[local] Instance same_trust_preorder : PreOrder same_trust.
Proof.
  split.
  - intros w. split; reflexivity.
  - intros a b c [Hi1 Ht1] [Hi2 Ht2]. split; congruence.
Qed.

Lemma same_trust_same (w w' : World) : devices w' = devices w → same_trust w w'.
Proof. intros H. unfold same_trust. rewrite H. split; reflexivity. Qed.

Lemma respects_same_devices {A} (m : M A) :
  (∀ w, devices (m w).2 = devices w) → respects same_trust m.
Proof. intros H w. apply same_trust_same, H. Qed.

Lemma respects_set_name (p : Device.row → bool) (name : string) :
  respects same_trust (db.update_devices p (Device.set_name name)).
Proof.
  intros w. unfold same_trust, db.update_devices, db.update_where. cbn.
  rewrite !map_map. split; apply map_ext; intros d; destruct (p d); reflexivity.
Qed.

Ltac same_devices :=
  apply respects_same_devices; intros ?w;
  cbv beta delta
    [fs.writeFileSync fs.readFileSync fs.unlinkSync fs.existsSync
     db.insert_file db.insert_api_key db.update_files db.update_api_keys
     modify gets];
  repeat match goal with
         | |- context [match ?x with _ => _ end] => destruct x
         | |- context [if ?x then _ else _] => destruct x
         end; reflexivity.
Ltac devices_prim := first [ apply respects_set_name | same_devices ].

Section UploadDevices.
Context {P : Platform} (cfg : Config) (env : Env).


Lemma respects_upload_store (req : Request) (file : StoredFile) (source : string) :
  respects same_trust (Files.upload_store cfg env req file source).
Proof.
  unfold Files.upload_store, Files.rename_device. respects_auto devices_prim.
Qed.

Lemma respects_upload_cleanup (ctx : Ctx) :
  respects same_trust (Files.upload_cleanup ctx).
Proof. unfold Files.upload_cleanup. respects_auto devices_prim. Qed.


Lemma fresh_device_id (rows : list Device.row) (id : string) :
  id ∉ map Device.id rows → existsb (λ r, Device.id r === id) rows = false.
Proof.
  intros Hfresh. apply not_true_is_false. intros Hex.
  apply existsb_exists in Hex as (r & Hr & Hid). apply String.eqb_eq in Hid.
  apply Hfresh. rewrite <- Hid. apply list_elem_of_fmap. exists r.
  split; [reflexivity|]. apply list_elem_of_In, Hr.
Qed.

End UploadDevices.



Section TrustDefaults.
Context {P : Platform} (cfg : Config) (env : Env).

Lemma anonymous_device_creates (req : Request) (w : World) :
  (∀ d, d ∈ devices w →
        ¬ (Device.name d = Files.anonymousDeviceName req
           ∧ Device.ip_address d = Files.clientIP req)) →
  uuid_device env ∉ map Device.id (devices w) →
  ∃ d, Files.anonymous_device env req w
       = (Ok (uuid_device env), with_devices (devices w ++ [d]) w)
       ∧ Device.id d = uuid_device env ∧ Device.is_trusted d = true.
Proof.
  intros Hnone Hfresh. unfold Files.anonymous_device. munfold.
  rewrite find_none_all.
  - unfold db.insert_device. cbn [Device.id].
    rewrite (fresh_device_id _ _ Hfresh). eexists. split; [reflexivity|].
    split; reflexivity.
  - intros d Hd. apply not_true_is_false. intros Hmatch.
    apply andb_true_iff in Hmatch as [Hn Hi].
    apply String.eqb_eq in Hn, Hi. apply (Hnone d Hd). split; assumption.
Qed.

Lemma upload_creates_trusted_device (req : Request) (ctx : Ctx)
    (file : StoredFile) (w : World) :
  req_file ctx = Some file →
  JS.truthy (body req !! "deviceId") = false →
  (∀ d, d ∈ devices w →
        ¬ (Device.name d = Files.anonymousDeviceName req
           ∧ Device.ip_address d = Files.clientIP req)) →
  uuid_device env ∉ map Device.id (devices w) →
  map Device.id (devices (Files.upload_file cfg env req ctx w).2)
  = map Device.id (devices w) ++ [uuid_device env]
  ∧ map Device.is_trusted (devices (Files.upload_file cfg env req ctx w).2)
    = map Device.is_trusted (devices w) ++ [true].
Proof.
  intros Hfile Hanon Hnone Hfresh.
  destruct (anonymous_device_creates req w Hnone Hfresh)
    as (d & Hcreate & Hid & Htrusted).
  assert (Hrest : same_trust (with_devices (devices w ++ [d]) w)
                    (Files.upload_file cfg env req ctx w).2).
  { unfold Files.upload_file, Files.upload_body. rewrite Hfile, Hanon.
    unfold try_catch, mbind, M_bind, bind. rewrite Hcreate.
    pose proof (respects_upload_store cfg env req file (uuid_device env)
                  (with_devices (devices w ++ [d]) w)) as Hstore.
    destruct (Files.upload_store cfg env req file (uuid_device env) _)
      as [[response|e] w1]; cbn [snd] in *; [exact Hstore|].
    etransitivity; [exact Hstore|]. apply respects_upload_cleanup. }
  destruct Hrest as [Hids Htrust]. cbn [devices with_devices] in Hids, Htrust.
  rewrite Hids, Htrust, !map_app. cbn [map]. rewrite Hid, Htrusted.
  split; reflexivity.
Qed.

Lemma registerDevice_creates (w : World) :
  deviceId cfg ∉ map Device.id (devices w) →
  ∃ d, DeviceManager.registerDevice cfg env w
       = (Ok tt, with_devices (devices w ++ [d]) w)
       ∧ Device.id d = deviceId cfg ∧ Device.is_trusted d = true.
Proof.
  intros Hfresh. unfold DeviceManager.registerDevice. munfold.
  pose proof (fresh_device_id _ _ Hfresh) as Hex.
  rewrite find_none_all.
  - unfold db.insert_device. cbn [Device.id]. rewrite Hex.
    eexists. split; [reflexivity|]. split; reflexivity.
  - intros d Hd. apply not_true_is_false. intros Hid.
    assert (existsb (λ r, Device.id r === deviceId cfg) (devices w) = true)
      by (apply existsb_exists; exists d; split;
          [apply list_elem_of_In, Hd|exact Hid]).
    congruence.
Qed.

Lemma addDiscoveredDevice_creates (id name address key : string) (w : World) :
  id ≠ deviceId cfg → id ∉ map Device.id (devices w) →
  ∃ d, DeviceManager.addDiscoveredDevice cfg env id name address key w
       = (Ok tt, with_devices (devices w ++ [d]) w)
       ∧ Device.id d = id ∧ Device.is_trusted d = false.
Proof.
  intros Hself Hfresh. unfold DeviceManager.addDiscoveredDevice.
  apply String.eqb_neq in Hself. rewrite Hself. munfold.
  pose proof (fresh_device_id _ _ Hfresh) as Hex.
  rewrite find_none_all.
  - unfold db.insert_device. cbn [Device.id]. rewrite Hex.
    eexists. split; [reflexivity|]. split; reflexivity.
  - intros d Hd. apply not_true_is_false. intros Hid.
    assert (existsb (λ r, Device.id r === id) (devices w) = true)
      by (apply existsb_exists; exists d; split;
          [apply list_elem_of_In, Hd|exact Hid]).
    congruence.
Qed.

Lemma register_creates (req : Request) (ctx : Ctx) (name key : string)
    (w : World) :
  body req !! "deviceName" = Some name → name ≠ EmptyString →
  body req !! "publicKey" = Some key → key ≠ EmptyString →
  uuid_device env ≠ deviceId cfg →
  uuid_device env ∉ map Device.id (devices w) →
  ∃ d, Devices.register cfg env req ctx w
       = (Ok (json (RegisteredBody (uuid_device env))),
          with_devices (devices w ++ [d]) w)
       ∧ Device.id d = uuid_device env ∧ Device.is_trusted d = false.
Proof.
  intros Hname Hn Hkey Hk Hself Hfresh. unfold Devices.register.
  rewrite Hname, Hkey, (truthy_Some _ Hn), (truthy_Some _ Hk).
  cbn [negb orb].
  destruct (addDiscoveredDevice_creates (uuid_device env) name
              (if JS.truthy (body req !! "ipAddress")
               then default EmptyString (body req !! "ipAddress") else ip req)
              key w Hself Hfresh) as (d & Hadd & Hid & Htrust).
  exists d. unfold try_catch, mbind, M_bind, bind.
  change (default EmptyString (Some name)) with name.
  change (default EmptyString (Some key)) with key.
  rewrite Hadd. auto.
Qed.

End TrustDefaults.

(** C8: the device record that an upload without a deviceId creates is
    trusted, the record that [registerDevice] creates for the node itself is
    trusted, and the record that [addDiscoveredDevice] creates on the
    registration and discovery path, POST /register included, is not
    trusted. *)
Theorem trust_defaults {P : Platform} (cfg : Config) (env : Env) (w : World) :
  (∀ req ctx file,
     req_file ctx = Some file →
     JS.truthy (body req !! "deviceId") = false →
     (∀ d, d ∈ devices w →
           ¬ (Device.name d = Files.anonymousDeviceName req
              ∧ Device.ip_address d = Files.clientIP req)) →
     uuid_device env ∉ map Device.id (devices w) →
     map Device.id (devices (Files.upload_file cfg env req ctx w).2)
     = map Device.id (devices w) ++ [uuid_device env]
     ∧ map Device.is_trusted (devices (Files.upload_file cfg env req ctx w).2)
       = map Device.is_trusted (devices w) ++ [true])
  ∧ (deviceId cfg ∉ map Device.id (devices w) →
     ∃ d, DeviceManager.registerDevice cfg env w
          = (Ok tt, with_devices (devices w ++ [d]) w)
          ∧ Device.id d = deviceId cfg ∧ Device.is_trusted d = true)
  ∧ (∀ id name address key,
       id ≠ deviceId cfg → id ∉ map Device.id (devices w) →
       ∃ d, DeviceManager.addDiscoveredDevice cfg env id name address key w
            = (Ok tt, with_devices (devices w ++ [d]) w)
            ∧ Device.id d = id ∧ Device.is_trusted d = false)
  ∧ (∀ req ctx name key,
       body req !! "deviceName" = Some name → name ≠ EmptyString →
       body req !! "publicKey" = Some key → key ≠ EmptyString →
       uuid_device env ≠ deviceId cfg →
       uuid_device env ∉ map Device.id (devices w) →
       ∃ d, Devices.register cfg env req ctx w
            = (Ok (json (RegisteredBody (uuid_device env))),
               with_devices (devices w ++ [d]) w)
            ∧ Device.id d = uuid_device env ∧ Device.is_trusted d = false).
Proof.
  split; [|split; [|split]].
  - intros req ctx file. apply upload_creates_trusted_device.
  - apply registerDevice_creates.
  - intros id name address key. apply addDiscoveredDevice_creates.
  - intros req ctx name key. apply register_creates.
Qed.

Lemma trust_defaults_witness :
  let env := Sample.clock Sample.morning in
  let req := Sample.upload_request [] in
  let file := {| file_path := "uploads/u-stored.txt";
                 file_originalname := "hello.txt";
                 file_mimetype := "text/plain"; file_size := 2 |} in
  let w := with_disk (<["uploads/u-stored.txt" := [104; 105]]> ∅) Sample.empty in
  map Device.is_trusted
    (devices (Files.upload_file (P := Sample.platform) Sample.config env req
                (with_file file (fresh [])) w).2) = [true]
  ∧ map Device.is_trusted
      (devices (DeviceManager.registerDevice (P := Sample.platform)
                  Sample.config env w).2) = [true]
  ∧ map Device.is_trusted
      (devices (DeviceManager.addDiscoveredDevice (P := Sample.platform)
                  Sample.config env "peer" "phone" "192.168.1.7" "pk" w).2)
    = [false].
Proof.
  intros env req file w.
  destruct (trust_defaults (P := Sample.platform) Sample.config env w)
    as (Hupload & Hself & Hpeer & _).
  split; [|split].
  - destruct (Hupload req (with_file file (fresh [])) file) as [_ Htrusted];
      [reflexivity|reflexivity| |apply not_elem_of_nil|exact Htrusted].
    intros d Hd. apply elem_of_nil in Hd as [].
  - destruct Hself as (d & Heq & _ & Htrusted); [apply not_elem_of_nil|].
    rewrite Heq. cbn. rewrite Htrusted. reflexivity.
  - destruct (Hpeer "peer" "phone" "192.168.1.7" "pk") as (d & Heq & _ & Hno);
      [discriminate|apply not_elem_of_nil|].
    rewrite Heq. cbn. rewrite Hno. reflexivity.
Defined.

(** * Further properties *)

(** ** The API-key check admits *)

(** X1: a request to a gated operation reaches the handler, with the
    identity and permissions of the key row attached, when the first active
    row under the hash of the presented key is live and carries the
    permission the operation demands. *)
Theorem gate_admits {P : Platform} (cfg : Config) (env : Env) (req : Request)
    (w : World) (r : Route) (params : list string) (permission : string)
    (k : ApiKey.row) :
  find_route app_routes (method req) (path req) = Some (r, params) →
  gated (route_endpoint r) = Some permission →
  JS.truthy (Auth.presented_key req) = true →
  Auth.active_key
    (EncryptionService.hashApiKey (default EmptyString (Auth.presented_key req))) w
  = (Ok (Some k), w) →
  key_live (now env) k = true →
  JS.includes permission (JS.split_comma (ApiKey.permissions k)) = true →
  serve cfg env req w
  = handler cfg env (route_endpoint r) req
      (with_apiKey
         {| key_id := ApiKey.id k;
            principal_device := ApiKey.device_id k;
            principal_permissions := JS.split_comma (ApiKey.permissions k) |}
         (fresh params)) w.
Proof.
  intros Hroute Hg Hkey Hfind Hlive Hperm. unfold serve. rewrite Hroute.
  rewrite (gated_guards r permission (find_route_In _ _ _ _ _ Hroute) Hg).
  cbn [run guard]. unfold mbind, M_bind, bind.
  rewrite (authenticate_accepts env req _ w k Hkey Hfind Hlive).
  unfold Auth.requirePermission.
  cbn [req_apiKey with_apiKey principal_permissions]. rewrite Hperm.
  reflexivity.
Qed.

Lemma gate_admits_witness :
  let w := Sample.keyring [Sample.key_row "k1" "sha256:secret" "read,write" true] in
  let req := Sample.with_key "secret" (Sample.request POST ["files"; "cleanup"]) in
  serve (P := Sample.platform) Sample.config (Sample.clock Sample.morning) req w
  = (Ok (json (CleanupBody 0 0)), w).
Proof.
  intros w req.
  rewrite (gate_admits (P := Sample.platform) Sample.config
             (Sample.clock Sample.morning) req w _ _ "write"
             (Sample.key_row "k1" "sha256:secret" "read,write" true)
             eq_refl eq_refl eq_refl eq_refl eq_refl eq_refl).
  reflexivity.
Defined.

(** X2: POST /validate decides on a key in the body as
    [authenticateRequest] decides on the same key in the header: the same
    401 for an unknown, revoked or expired key, and for an accepted key the
    same key id, device id and permissions. *)
Theorem validate_agrees_with_middleware {P : Platform} (env : Env)
    (validation req : Request) (ctx ctx' : Ctx) (w : World) (key : string) :
  body validation !! "apiKey" = Some key →
  Auth.presented_key req = Some key →
  key ≠ EmptyString →
  match Auth.authenticateRequest env req ctx w with
  | (Ok (Continue attached), w') =>
      w' = w
      ∧ ∃ p, req_apiKey attached = Some p
             ∧ Auth.validate env validation ctx' w
               = (Ok (json (ValidBody (key_id p) (principal_device p)
                              (principal_permissions p))), w)
  | (Ok (Respond refusal), w') =>
      w' = w ∧ Auth.validate env validation ctx' w = (Ok refusal, w)
  | (Thrown _, _) => False
  end.
Proof.
  intros Hbody Hkey Hne.
  unfold Auth.authenticateRequest, Auth.validate. munfold.
  rewrite Hbody, Hkey, (truthy_Some _ Hne). cbn [negb].
  unfold Auth.active_key. munfold.
  destruct (List.find _ (api_keys w)) as [k|]; [|split; reflexivity].
  destruct (Auth.key_expired env k); [split; reflexivity|].
  split; [reflexivity|]. eexists. split; reflexivity.
Qed.

Lemma validate_agrees_with_middleware_witness :
  let w := Sample.keyring [Sample.key_row "k1" "sha256:secret" "read,write" true] in
  let validation :=
    {| method := POST; path := ["auth"; "validate"]; ip := "192.168.1.9";
       user_agent := None; x_api_key := None; query := ∅;
       body := {["apiKey" := "secret"]};
       expiresInHours := None; upload := None |} in
  Auth.validate (P := Sample.platform) (Sample.clock Sample.morning) validation
    (fresh []) w
  = (Ok (json (ValidBody "k1" "self" ["read"; "write"])), w).
Proof.
  intros w validation.
  pose proof (validate_agrees_with_middleware (P := Sample.platform)
                (Sample.clock Sample.morning) validation
                (Sample.with_key "secret" (Sample.request GET ["devices"]))
                (fresh []) (fresh []) w "secret" eq_refl eq_refl) as H.
  cbn in H. destruct H as (_ & p & Hp & Hv); [discriminate|].
  injection Hp as <-. exact Hv.
Defined.

(** ** The life of an API key *)

Lemma find_app_last {A} (p : A → bool) (l : list A) (x : A) :
  (∀ y, y ∈ l → p y = false) → p x = true → List.find p (l ++ [x]) = Some x.
Proof.
  intros Hl Hx. rewrite find_app_first, (find_none_all p l Hl). cbn.
  rewrite Hx. reflexivity.
Qed.

Lemma fresh_key_id (rows : list ApiKey.row) (id : string) :
  id ∉ map ApiKey.id rows → existsb (λ r, ApiKey.id r === id) rows = false.
Proof.
  intros Hfresh. apply not_true_is_false. intros Hex.
  apply existsb_exists in Hex as (r & Hr & Hid). apply String.eqb_eq in Hid.
  apply Hfresh. rewrite <- Hid. apply list_elem_of_fmap. exists r.
  split; [reflexivity|]. apply list_elem_of_In, Hr.
Qed.

Lemma filter_nil_all {A} (p : A → bool) (l : list A) :
  List.filter p l = [] → ∀ x, x ∈ l → p x = false.
Proof.
  intros Hnil x Hx. apply not_true_is_false. intros Hp.
  assert (Hin : In x (List.filter p l))
    by (apply filter_In; split; [apply list_elem_of_In, Hx|exact Hp]).
  rewrite Hnil in Hin. destruct Hin.
Qed.

(** X3: bootstrap works exactly while no key is active.  With an active key
    in the table it answers 400 and changes nothing.  With none (an empty
    table, or every key revoked) it stores one more key row with the
    permissions read, write and admin, and the key it hands out is accepted
    by [authenticateRequest] from then on, at any time. *)
Theorem bootstrap_while_no_key_is_active {P : Platform} (cfg : Config)
    (env : Env) (req : Request) (ctx : Ctx) (w : World) :
  (∀ k, k ∈ api_keys w → ApiKey.is_active k = true →
        Auth.bootstrap cfg env req ctx w
        = (Ok (error 400 "Admin API keys already exist. Use the admin interface to create more keys."),
           w))
  ∧ (List.filter ApiKey.is_active (api_keys w) = [] →
     uuid_key env ∉ map ApiKey.id (api_keys w) →
     EncryptionService.generateApiKey (random_api_key env) ≠ EmptyString →
     ∃ row,
       Auth.bootstrap cfg env req ctx w
       = (Ok (json (ApiKeyBody
                      (EncryptionService.generateApiKey (random_api_key env))
                      (uuid_key env) ["read"; "write"; "admin"] None)),
          with_api_keys (api_keys w ++ [row]) w)
       ∧ ∀ env' req' ctx',
           Auth.presented_key req'
           = Some (EncryptionService.generateApiKey (random_api_key env)) →
           Auth.authenticateRequest env' req' ctx'
             (with_api_keys (api_keys w ++ [row]) w)
           = (Ok (Continue (with_apiKey
                    {| key_id := uuid_key env;
                       principal_device := deviceId cfg;
                       principal_permissions := ["read"; "write"; "admin"] |}
                    ctx')),
              with_api_keys (api_keys w ++ [row]) w)).
Proof.
  split.
  - intros k Hk Hactive. unfold Auth.bootstrap. munfold.
    assert (Hin : In k (List.filter ApiKey.is_active (api_keys w)))
      by (apply filter_In; split; [apply list_elem_of_In, Hk|exact Hactive]).
    destruct (List.filter ApiKey.is_active (api_keys w)); [destruct Hin|].
    reflexivity.
  - intros Hnone Hfresh Hkey. unfold Auth.bootstrap. munfold.
    rewrite Hnone. cbn [length Nat.ltb Nat.leb].
    unfold db.insert_api_key. cbn [ApiKey.id].
    rewrite (fresh_key_id _ _ Hfresh).
    set (row := {| ApiKey.id := uuid_key env;
                   ApiKey.key_hash :=
                     EncryptionService.hashApiKey
                       (EncryptionService.generateApiKey (random_api_key env));
                   ApiKey.device_id := deviceId cfg;
                   ApiKey.permissions := "read,write,admin";
                   ApiKey.created_at := SQLite.datetime (now env);
                   ApiKey.expires_at := None; ApiKey.is_active := true |}).
    exists row. split; [reflexivity|].
    intros env' req' ctx' Hpresented.
    rewrite (authenticate_accepts env' req' ctx' _ row); [reflexivity| | |reflexivity].
    + rewrite Hpresented. apply truthy_Some, Hkey.
    + rewrite Hpresented. unfold Auth.active_key, gets.
      cbn [api_keys with_api_keys].
      rewrite find_app_last; [reflexivity| |].
      * intros y Hy. rewrite (filter_nil_all _ _ Hnone y Hy). apply andb_false_r.
      * cbn. rewrite String.eqb_refl. reflexivity.
Qed.

Lemma bootstrap_while_no_key_is_active_witness :
  let w := Sample.keyring [Sample.key_row "k0" "sha256:old" "read,write" false] in
  let env := Sample.clock Sample.morning in
  ∃ w',
    Auth.bootstrap (P := Sample.platform) Sample.config env
      (Sample.request POST ["auth"; "bootstrap"]) (fresh []) w
    = (Ok (json (ApiKeyBody "k1" "u-key" ["read"; "write"; "admin"] None)), w')
    ∧ result_status
        (serve_response (P := Sample.platform) Sample.config
           (Sample.clock Sample.afternoon)
           (Sample.with_key "k1" (Sample.request GET ["devices"])) w')
      = Some 200.
Proof.
  intros w env.
  destruct (bootstrap_while_no_key_is_active (P := Sample.platform)
              Sample.config env (Sample.request POST ["auth"; "bootstrap"])
              (fresh []) w) as [_ Hopen].
  destruct Hopen as (row & Hrun & _).
  - reflexivity.
  - cbn. intros H. apply list_elem_of_singleton in H. discriminate.
  - discriminate.
  - eexists. split; [exact Hrun|]. 
    vm_compute in Hrun. injection Hrun as <-. reflexivity.
Defined.

Lemma fresh_key_hash (rows : list ApiKey.row) (hash : string) :
  hash ∉ map ApiKey.key_hash rows →
  ∀ y, y ∈ rows → (ApiKey.key_hash y === hash) && ApiKey.is_active y = false.
Proof.
  intros Hfresh y Hy. destruct (ApiKey.key_hash y === hash) eqn:Hh; [|reflexivity].
  apply String.eqb_eq in Hh. exfalso. apply Hfresh. rewrite <- Hh.
  apply list_elem_of_fmap. eauto.
Qed.

(** X4: POST /api-key stores a key row with the permissions the body asks
    for, whoever the caller is (read,write when it asks for none).  The key
    it hands out is then accepted by [authenticateRequest] with these
    permissions for as long as the row is live, and refused with 401 once it
    expired; a key asked for with [expiresInHours = h > 0] is live up to
    [h] hours after its creation and not after. *)
Theorem generated_key_authenticates {P : Platform} (cfg : Config) (env : Env)
    (req : Request) (ctx : Ctx) (w : World) :
  uuid_key env ∉ map ApiKey.id (api_keys w) →
  EncryptionService.generateApiKey (random_api_key env) ≠ EmptyString →
  EncryptionService.hashApiKey
    (EncryptionService.generateApiKey (random_api_key env))
  ∉ map ApiKey.key_hash (api_keys w) →
  ∃ row,
    Auth.generate cfg env req ctx w
    = (Ok (json (ApiKeyBody
                   (EncryptionService.generateApiKey (random_api_key env))
                   (uuid_key env) (JS.split_comma (ApiKey.permissions row))
                   (ApiKey.expires_at row))),
       with_api_keys (api_keys w ++ [row]) w)
    ∧ ApiKey.permissions row = default "read,write" (body req !! "permissions")
    ∧ (∀ env' req' ctx',
         Auth.presented_key req'
         = Some (EncryptionService.generateApiKey (random_api_key env)) →
         Auth.authenticateRequest env' req' ctx'
           (with_api_keys (api_keys w ++ [row]) w)
         = (Ok (if key_live (now env') row
                then Continue (with_apiKey
                       {| key_id := uuid_key env;
                          principal_device := ApiKey.device_id row;
                          principal_permissions :=
                            JS.split_comma (ApiKey.permissions row) |} ctx')
                else Respond (error 401 "API key expired")),
            with_api_keys (api_keys w ++ [row]) w))
    ∧ (∀ h now',
         expiresInHours req = Some h → 0 < h → 0 ≤ now env →
         now env + 3600000 * h ≤ Date.maxTime →
         key_live now' row = (now' <=? now env + 3600000 * h)).
Proof.
  intros Hfresh Hkey Hhash. unfold Auth.generate. munfold.
  unfold db.insert_api_key. cbn [ApiKey.id].
  rewrite (fresh_key_id _ _ Hfresh).
  match goal with
  | |- context [api_keys w ++ [?r]] => set (row := r)
  end.
  exists row. split; [reflexivity|]. split; [reflexivity|]. split.
  - intros env' req' ctx' Hpresented.
    assert (Htruthy : JS.truthy (Auth.presented_key req') = true)
      by (rewrite Hpresented; apply truthy_Some, Hkey).
    assert (Hfind : Auth.active_key
                      (EncryptionService.hashApiKey
                         (default EmptyString (Auth.presented_key req')))
                      (with_api_keys (api_keys w ++ [row]) w)
                    = (Ok (Some row), with_api_keys (api_keys w ++ [row]) w)).
    { rewrite Hpresented. unfold Auth.active_key, gets.
      cbn [api_keys with_api_keys].
      rewrite find_app_last; [reflexivity|apply fresh_key_hash, Hhash|].
      cbn. rewrite String.eqb_refl. reflexivity. }
    destruct (key_live (now env') row) eqn:Hlive.
    + rewrite (authenticate_accepts env' req' ctx' _ row Htruthy Hfind Hlive).
      reflexivity.
    + rewrite (authenticate_expired env' req' ctx' _ row Htruthy Hfind Hlive).
      reflexivity.
  - intros h now' Hh Hpos Hnow Hmax. unfold key_live. cbn [ApiKey.expires_at row].
    rewrite Hh. destruct (h =? 0) eqn:Hz; [apply Z.eqb_eq in Hz; lia|].
    unfold Date.addHours, Date.add. cbn [mbind option_bind].
    unfold Date.make.
    assert (Hin : (- Date.maxTime <=? now env + 3600000 * h)
                  && (now env + 3600000 * h <=? Date.maxTime) = true).
    { apply andb_true_iff. split; apply Z.leb_le; [unfold Date.maxTime; lia|lia]. }
    rewrite Hin.
    destruct (now env + 3600000 * h =? 0) eqn:Ht; [apply Z.eqb_eq in Ht; lia|].
    reflexivity.
Qed.

Lemma generated_key_authenticates_witness :
  let env := Sample.clock Sample.morning in
  let req :=
    {| method := POST; path := ["auth"; "api-key"]; ip := "192.168.1.9";
       user_agent := None; x_api_key := None; query := ∅;
       body := {["permissions" := "read"]};
       expiresInHours := Some 2; upload := None |} in
  ∃ row,
    (Auth.generate (P := Sample.platform) Sample.config env req (fresh [])
       Sample.empty).2
    = with_api_keys [row] Sample.empty
    ∧ ApiKey.permissions row = "read"
    ∧ key_live (Sample.morning + 7200000) row = true
    ∧ key_live (Sample.morning + 7200001) row = false.
Proof.
  intros env req.
  destruct (generated_key_authenticates (P := Sample.platform) Sample.config
              env req (fresh []) Sample.empty)
    as (row & Hrun & Hperm & _ & Hlive).
  - apply not_elem_of_nil.
  - discriminate.
  - apply not_elem_of_nil.
  - exists row. split; [rewrite Hrun; reflexivity|]. split; [exact Hperm|].
    split; rewrite (Hlive 2) by (try reflexivity; vm_compute; discriminate);
      reflexivity.
Defined.

Lemma update_where_no_match {A} (p : A → bool) (f : A → A) (rows : list A) :
  (∀ r, r ∈ rows → p r = false) → db.update_where p f rows = rows.
Proof.
  intros Hno. unfold db.update_where. induction rows as [|r rows IH];
    [reflexivity|].
  cbn. rewrite (Hno r) by left. f_equal. apply IH. intros y Hy. apply Hno.
  right. exact Hy.
Qed.

Lemma update_where_twice {A} (p : A → bool) (f : A → A) (rows : list A) :
  (∀ r, f (f r) = f r) → (∀ r, p (f r) = p r) →
  db.update_where p f (db.update_where p f rows) = db.update_where p f rows.
Proof.
  intros Hf Hp. unfold db.update_where. rewrite map_map. apply map_ext.
  intros r. destruct (p r) eqn:Hr.
  - rewrite Hp, Hr. apply Hf.
  - rewrite Hr. reflexivity.
Qed.

Lemma with_api_keys_same (w : World) : with_api_keys (api_keys w) w = w.
Proof. destruct w. reflexivity. Qed.

Lemma find_after_revocation (hash keyId : string) (rows : list ApiKey.row)
    (k : ApiKey.row) :
  List.find (λ r, (ApiKey.key_hash r === hash) && ApiKey.is_active r) rows
  = Some k →
  ApiKey.id k ≠ keyId →
  List.find (λ r, (ApiKey.key_hash r === hash) && ApiKey.is_active r)
    (db.update_where (λ r, ApiKey.id r === keyId) (ApiKey.set_is_active false)
       rows) = Some k.
Proof.
  intros Hfind Hid. induction rows as [|r rows IH]; [discriminate|].
  cbn in Hfind. cbn.
  destruct ((ApiKey.key_hash r === hash) && ApiKey.is_active r) eqn:Hr.
  - injection Hfind as ->. apply String.eqb_neq in Hid. rewrite Hid, Hr.
    reflexivity.
  - destruct (ApiKey.id r === keyId).
    + cbn. rewrite andb_false_r. apply IH, Hfind.
    + rewrite Hr. apply IH, Hfind.
Qed.

(** X5: revocation answers success whatever the key id, and changes
    nothing but [is_active] columns: the rows under the id are inactive
    afterwards, every other row and every other column is as it was, and
    devices, files and disk are untouched.  For an id the table does not
    hold it changes nothing; run again on the same id it changes nothing
    more; and every key that was accepted under another key id is accepted
    afterwards with the same identity and permissions. *)
Theorem revoke_touches_one_key {P : Platform} (env : Env)
    (revocation req : Request) (paramctx ctx ctx' : Ctx) (w : World)
    (p : Principal) :
  Auth.revoke revocation paramctx w
  = (Ok (json SuccessBody), (Auth.revoke revocation paramctx w).2)
  ∧ api_keys (Auth.revoke revocation paramctx w).2
    = db.update_where (λ r, ApiKey.id r === param paramctx)
        (ApiKey.set_is_active false) (api_keys w)
  ∧ same_but_active (api_keys (Auth.revoke revocation paramctx w).2) (api_keys w)
  ∧ (∀ r, r ∈ api_keys (Auth.revoke revocation paramctx w).2 →
          ApiKey.id r = param paramctx → ApiKey.is_active r = false)
  ∧ (∀ r, r ∈ api_keys w → ApiKey.id r ≠ param paramctx →
          r ∈ api_keys (Auth.revoke revocation paramctx w).2)
  ∧ devices (Auth.revoke revocation paramctx w).2 = devices w
  ∧ files (Auth.revoke revocation paramctx w).2 = files w
  ∧ disk (Auth.revoke revocation paramctx w).2 = disk w
  ∧ (param paramctx ∉ map ApiKey.id (api_keys w) →
     (Auth.revoke revocation paramctx w).2 = w)
  ∧ (Auth.revoke revocation paramctx (Auth.revoke revocation paramctx w).2).2
    = (Auth.revoke revocation paramctx w).2
  ∧ (Auth.authenticateRequest env req ctx w = (Ok (Continue ctx'), w) →
     req_apiKey ctx' = Some p →
     key_id p ≠ param paramctx →
     Auth.authenticateRequest env req ctx (Auth.revoke revocation paramctx w).2
     = (Ok (Continue ctx'), (Auth.revoke revocation paramctx w).2)).
Proof.
  unfold Auth.revoke. munfold. cbn [fst snd]. unfold db.update_api_keys.
  cbn [fst snd api_keys devices files disk with_api_keys].
  split; [reflexivity|]. split; [reflexivity|].
  split; [apply same_but_active_update|].
  split; [|split; [|split; [reflexivity|split; [reflexivity|split;
    [reflexivity|split; [|split]]]]]].
  - intros r Hr Hid. apply update_where_elem in Hr as (r0 & Hr0 & ->).
    destruct (ApiKey.id r0 === param paramctx) eqn:Hmatch; [reflexivity|].
    apply String.eqb_neq in Hmatch. contradiction.
  - intros r Hr Hid. unfold db.update_where. apply list_elem_of_fmap.
    exists r. apply String.eqb_neq in Hid. rewrite Hid.
    split; [reflexivity|exact Hr].
  - intros Hfresh. rewrite update_where_no_match; [apply with_api_keys_same|].
    intros r Hr. apply String.eqb_neq. intros Hid. apply Hfresh.
    rewrite <- Hid. apply list_elem_of_fmap. eauto.
  - unfold with_api_keys. cbn. f_equal.
    apply update_where_twice; intros r; reflexivity.
  - intros Hauth Hp Hother.
    unfold Auth.authenticateRequest in *. munfold in Hauth. munfold.
    destruct (JS.truthy (Auth.presented_key req)); [|discriminate Hauth].
    cbn [negb] in *. unfold Auth.active_key in *. munfold in Hauth. munfold.
    cbn [api_keys with_api_keys].
    destruct (List.find _ (api_keys w)) as [k|] eqn:Hfind; [|discriminate Hauth].
    destruct (Auth.key_expired env k) eqn:Hexp; [discriminate Hauth|].
    injection Hauth as <-. cbn in Hp. injection Hp as <-. cbn [key_id] in Hother.
    rewrite (find_after_revocation _ _ _ _ Hfind Hother), Hexp. reflexivity.
Qed.

Lemma revoke_touches_one_key_witness :
  let w := Sample.keyring [Sample.key_row "k1" "sha256:secret" "read,write" true;
                           Sample.key_row "k2" "sha256:other" "read" true] in
  let w' := (Auth.revoke (Sample.request DELETE ["auth"; "api-keys"; "k2"])
               (Sample.ctx_of "k2") w).2 in
  let req := Sample.with_key "secret" (Sample.request GET ["devices"]) in
  let p := {| key_id := "k1"; principal_device := "self";
              principal_permissions := ["read"; "write"] |} in
  Auth.authenticateRequest (P := Sample.platform) (Sample.clock Sample.morning)
    req (fresh []) w'
  = (Ok (Continue (with_apiKey p (fresh []))), w')
  ∧ api_keys w' = [Sample.key_row "k1" "sha256:secret" "read,write" true;
                   Sample.key_row "k2" "sha256:other" "read" false]
  ∧ (Auth.revoke (Sample.request DELETE ["auth"; "api-keys"; "zz"])
       (Sample.ctx_of "zz") w).2 = w.
Proof.
  intros w w' req p.
  destruct (revoke_touches_one_key (P := Sample.platform)
              (Sample.clock Sample.morning)
              (Sample.request DELETE ["auth"; "api-keys"; "k2"]) req
              (Sample.ctx_of "k2") (fresh []) (with_apiKey p (fresh [])) w p)
    as (_ & Hkeys & _ & _ & _ & _ & _ & _ & _ & _ & Hkeep).
  split; [|split].
  - apply Hkeep; [reflexivity|reflexivity|discriminate].
  - unfold w'. rewrite Hkeys. reflexivity.
  - reflexivity.
Defined.

Lemma insert_desc_elem_back {A} (key : A → string) (x y : A) (l : list A) :
  y = x ∨ y ∈ l → y ∈ db.insert_desc key x l.
Proof.
  induction l as [|z l IH]; cbn.
  - intros [->|H]; [left|apply elem_of_nil in H as []].
  - destruct (SQLite.text_lt (key x) (key z)).
    + intros [->|H]; [right; apply IH; left; reflexivity|].
      apply elem_of_cons in H as [->|H]; [left|right; apply IH; right; exact H].
    + intros [->|H]; [left|right; exact H].
Qed.

Lemma order_by_desc_elem_back {A} (key : A → string) (y : A) (l : list A) :
  y ∈ l → y ∈ db.order_by_desc key l.
Proof.
  induction l as [|x l IH]; cbn; [trivial|].
  intros H. apply insert_desc_elem_back.
  apply elem_of_cons in H as [->|H]; [left; reflexivity|right; apply IH, H].
Qed.

Lemma left_join_covers {A B} (on : A → B → bool) (a : list A) (b : list B)
    (x : A) :
  x ∈ a → ∃ y, (x, y) ∈ db.left_join on a b.
Proof.
  intros Hx. unfold db.left_join.
  destruct (List.filter (on x) b) as [|y ys] eqn:Hf.
  - exists None. apply list_elem_of_In, in_flat_map. exists x.
    split; [apply list_elem_of_In, Hx|]. rewrite Hf. left. reflexivity.
  - exists (Some y). apply list_elem_of_In, in_flat_map. exists x.
    split; [apply list_elem_of_In, Hx|]. rewrite Hf. left. reflexivity.
Qed.

(** X6: GET /api-keys lists the active keys and only them: every entry
    stands for an active row and shows its id and permissions, every active
    row has an entry, and a revoked key never appears. *)
Theorem key_listing_shows_active_keys (req : Request) (ctx : Ctx) (w : World) :
  ∃ listing,
    Auth.list_keys req ctx w = (Ok (json (ApiKeysBody listing)), w)
    ∧ (∀ v, v ∈ listing →
         kv_isActive v = true
         ∧ ∃ k, k ∈ api_keys w ∧ ApiKey.is_active k = true
                ∧ kv_id v = ApiKey.id k
                ∧ kv_permissions v = JS.split_comma (ApiKey.permissions k))
    ∧ (∀ k, k ∈ api_keys w → ApiKey.is_active k = true →
         ∃ v, v ∈ listing ∧ kv_id v = ApiKey.id k).
Proof.
  unfold Auth.list_keys. munfold. eexists. split; [reflexivity|]. split.
  - intros v Hv. apply list_elem_of_fmap in Hv as (row & -> & Hrow).
    apply order_by_desc_elem in Hrow.
    apply list_elem_of_In, filter_In in Hrow as [Hrow Hactive].
    apply list_elem_of_In, left_join_fst in Hrow. cbn.
    split; [exact Hactive|]. exists row.1. auto.
  - intros k Hk Hactive.
    destruct (left_join_covers (λ k d, ApiKey.device_id k === Device.id d)
                (api_keys w) (devices w) k Hk) as [d Hrow].
    eexists. split.
    + apply list_elem_of_fmap. exists (k, d). split; [reflexivity|].
      apply order_by_desc_elem_back, list_elem_of_In, filter_In.
      split; [apply list_elem_of_In, Hrow|exact Hactive].
    + reflexivity.
Qed.

Lemma key_listing_shows_active_keys_witness :
  let w := Sample.keyring [Sample.key_row "k0" "sha256:old" "read" false;
                           Sample.key_row "k1" "sha256:secret" "read,write" true] in
  ∃ listing,
    Auth.list_keys (Sample.request GET ["auth"; "api-keys"]) (fresh []) w
    = (Ok (json (ApiKeysBody listing)), w)
    ∧ (∃ v, v ∈ listing ∧ kv_id v = "k1")
    ∧ ∀ v, v ∈ listing → kv_isActive v = true.
Proof.
  intros w.
  destruct (key_listing_shows_active_keys
              (Sample.request GET ["auth"; "api-keys"]) (fresh []) w)
    as (listing & Hrun & Hall & Hex).
  exists listing. split; [exact Hrun|]. split.
  - apply (Hex (Sample.key_row "k1" "sha256:secret" "read,write" true));
      [right; left|reflexivity].
  - intros v Hv. apply (Hall v Hv).
Defined.

(** ** Device records over time *)

Lemma with_devices_same (w : World) : with_devices (devices w) w = w.
Proof. destruct w. reflexivity. Qed.

Lemma device_id_found (rows : list Device.row) (id : string) :
  id ∈ map Device.id rows →
  ∃ d, List.find (λ r, Device.id r === id) rows = Some d.
Proof.
  intros Hin. apply list_elem_of_fmap in Hin as (d & -> & Hd).
  destruct (List.find (λ r, Device.id r === Device.id d) rows) as [d'|] eqn:Hf;
    [eauto|].
  exfalso. apply list_elem_of_In in Hd.
  pose proof (find_none _ _ Hf d Hd) as Hno. cbn in Hno.
  rewrite String.eqb_refl in Hno. discriminate.
Qed.

Lemma device_id_unknown (rows : list Device.row) (id : string) :
  id ∉ map Device.id rows →
  ∀ r, r ∈ rows → (Device.id r === id) = false.
Proof.
  intros Hfresh r Hr. apply String.eqb_neq. intros Hid. apply Hfresh.
  rewrite <- Hid. apply list_elem_of_fmap. eauto.
Qed.

(** X7: a device that is sighted again keeps its trust.  On an id the table
    already holds, [addDiscoveredDevice] adds no row and leaves every id,
    trust flag and creation time as it was, and the rows under that id carry
    the new name, address, fingerprint and sighting time; called with the
    node's own id it does nothing.  [registerDevice] treats the node's own
    record in the same way at every start. *)
Theorem resighting_keeps_trust {P : Platform} (cfg : Config) (env : Env)
    (w : World) (id name address key : string) :
  (id = deviceId cfg →
   DeviceManager.addDiscoveredDevice cfg env id name address key w = (Ok tt, w))
  ∧ (id ≠ deviceId cfg → id ∈ map Device.id (devices w) →
     ∃ w', DeviceManager.addDiscoveredDevice cfg env id name address key w
           = (Ok tt, w')
           ∧ same_trust w w'
           ∧ map Device.created_at (devices w') = map Device.created_at (devices w)
           ∧ files w' = files w ∧ api_keys w' = api_keys w ∧ disk w' = disk w
           ∧ ∀ d, d ∈ devices w' → Device.id d = id →
                  Device.name d = name ∧ Device.ip_address d = address
                  ∧ Device.fingerprint d
                    = Some (EncryptionService.generateFingerprint key)
                  ∧ Device.last_seen d = SQLite.datetime (now env))
  ∧ (deviceId cfg ∈ map Device.id (devices w) →
     ∃ w', DeviceManager.registerDevice cfg env w = (Ok tt, w')
           ∧ same_trust w w'
           ∧ map Device.created_at (devices w') = map Device.created_at (devices w)
           ∧ files w' = files w ∧ api_keys w' = api_keys w ∧ disk w' = disk w).
Proof.
  split; [|split].
  - intros ->. unfold DeviceManager.addDiscoveredDevice.
    rewrite String.eqb_refl. reflexivity.
  - intros Hself Hknown. unfold DeviceManager.addDiscoveredDevice.
    apply String.eqb_neq in Hself. rewrite Hself. munfold.
    destruct (device_id_found _ _ Hknown) as [d0 ->].
    unfold db.update_devices. cbn [fst snd]. eexists. split; [reflexivity|].
    cbn [devices files api_keys disk with_devices]. unfold same_trust.
    cbn [devices with_devices]. unfold db.update_where. rewrite !map_map.
    repeat split.
    + apply map_ext. intros r. destruct (Device.id r === id); reflexivity.
    + apply map_ext. intros r. destruct (Device.id r === id); reflexivity.
    + apply map_ext. intros r. destruct (Device.id r === id); reflexivity.
    + apply list_elem_of_fmap in H as (r & -> & Hr).
      destruct (Device.id r === id) eqn:Hr'; [reflexivity|].
      apply String.eqb_neq in Hr'. contradiction.
    + apply list_elem_of_fmap in H as (r & -> & Hr).
      destruct (Device.id r === id) eqn:Hr'; [reflexivity|].
      apply String.eqb_neq in Hr'. contradiction.
    + apply list_elem_of_fmap in H as (r & -> & Hr).
      destruct (Device.id r === id) eqn:Hr'; [reflexivity|].
      apply String.eqb_neq in Hr'. contradiction.
    + apply list_elem_of_fmap in H as (r & -> & Hr).
      destruct (Device.id r === id) eqn:Hr'; [reflexivity|].
      apply String.eqb_neq in Hr'. contradiction.
  - intros Hknown. unfold DeviceManager.registerDevice. munfold.
    destruct (device_id_found _ _ Hknown) as [d0 ->].
    unfold db.update_devices. cbn [fst snd]. eexists. split; [reflexivity|].
    cbn [devices files api_keys disk with_devices]. unfold same_trust.
    cbn [devices with_devices]. unfold db.update_where. rewrite !map_map.
    repeat split; apply map_ext; intros r;
      destruct (Device.id r === deviceId cfg); reflexivity.
Qed.

Lemma resighting_keeps_trust_witness :
  let w := fleet [sample_device "peer" "phone" true] in
  ∃ w', DeviceManager.addDiscoveredDevice (P := Sample.platform) Sample.config
          (Sample.clock Sample.morning) "peer" "tablet" "192.168.1.8" "pk" w
        = (Ok tt, w')
        ∧ map Device.is_trusted (devices w') = [true]
        ∧ map Device.name (devices w') = ["tablet"].
Proof.
  intros w.
  destruct (resighting_keeps_trust (P := Sample.platform) Sample.config
              (Sample.clock Sample.morning) w "peer" "tablet" "192.168.1.8" "pk")
    as (_ & Hagain & _).
  destruct Hagain as (w' & Hrun & [_ Htrust] & _); [discriminate|left|].
  exists w'. split; [exact Hrun|]. split; [exact Htrust|].
  vm_compute in Hrun. injection Hrun as <-. reflexivity.
Defined.

Section DeviceRoutes.
Context {P : Platform} (cfg : Config) (env : Env).

Lemma set_trust_flag (flag : bool) (id : string) (w : World) :
  let w' := with_devices
              (db.update_where (λ r, Device.id r === id)
                 (Device.set_is_trusted flag) (devices w)) w in
  (id ∉ map Device.id (devices w) → w' = w)
  ∧ same_but_trust (devices w') (devices w)
  ∧ (∀ d, d ∈ devices w' → Device.id d = id → Device.is_trusted d = flag)
  ∧ (∀ d, d ∈ devices w → Device.id d ≠ id → d ∈ devices w')
  ∧ files w' = files w ∧ api_keys w' = api_keys w ∧ disk w' = disk w.
Proof.
  intros w'. unfold w'. cbn [devices files api_keys disk with_devices].
  split; [|split; [|split; [|split]]].
  - intros Hfresh.
    rewrite update_where_no_match by (apply device_id_unknown, Hfresh).
    apply with_devices_same.
  - unfold same_but_trust, db.update_where. rewrite map_map. apply map_ext.
    intros r. destruct (Device.id r === id); reflexivity.
  - intros d Hd Hid. apply update_where_elem in Hd as (r & Hr & ->).
    destruct (Device.id r === id) eqn:Hr'; [reflexivity|].
    apply String.eqb_neq in Hr'. contradiction.
  - intros d Hd Hid. unfold db.update_where. apply list_elem_of_fmap.
    exists d. apply String.eqb_neq in Hid. rewrite Hid. auto.
  - auto.
Qed.

End DeviceRoutes.

(** X8: trusting and untrusting a device answers success and sets the flag
    of the rows under that id, leaving every other column, every other
    row, the files, the keys and the disk as they were; for an id the table
    does not hold they still answer success and change nothing; and
    untrusting a device that was untrusted before it was trusted restores
    the table. *)
Theorem trust_sets_one_flag (req : Request) (ctx : Ctx) (w : World) :
  (∃ w', Devices.trust_device req ctx w = (Ok (json SuccessBody), w')
         ∧ (param ctx ∉ map Device.id (devices w) → w' = w)
         ∧ same_but_trust (devices w') (devices w)
         ∧ (∀ d, d ∈ devices w' → Device.id d = param ctx →
                 Device.is_trusted d = true)
         ∧ (∀ d, d ∈ devices w → Device.id d ≠ param ctx → d ∈ devices w')
         ∧ files w' = files w ∧ api_keys w' = api_keys w ∧ disk w' = disk w)
  ∧ (∃ w', Devices.untrust_device req ctx w = (Ok (json SuccessBody), w')
           ∧ (param ctx ∉ map Device.id (devices w) → w' = w)
           ∧ same_but_trust (devices w') (devices w)
           ∧ (∀ d, d ∈ devices w' → Device.id d = param ctx →
                   Device.is_trusted d = false)
           ∧ (∀ d, d ∈ devices w → Device.id d ≠ param ctx → d ∈ devices w')
           ∧ files w' = files w ∧ api_keys w' = api_keys w ∧ disk w' = disk w)
  ∧ ((∀ d, d ∈ devices w → Device.id d = param ctx →
           Device.is_trusted d = false) →
     (Devices.untrust_device req ctx (Devices.trust_device req ctx w).2).2 = w).
Proof.
  split; [|split].
  - eexists. split; [reflexivity|]. apply (set_trust_flag true).
  - eexists. split; [reflexivity|]. apply (set_trust_flag false).
  - intros Hwas. unfold Devices.trust_device, Devices.untrust_device,
      DeviceManager.trustDevice, DeviceManager.untrustDevice. munfold.
    unfold db.update_devices. cbn [fst snd devices with_devices].
    unfold with_devices. cbn. destruct w as [ds fs ks dk]. cbn in *. f_equal.
    unfold db.update_where. rewrite map_map.
    rewrite <- (map_id ds) at 2. apply map_ext_in. intros d Hd.
    destruct (Device.id d === param ctx) eqn:Hid.
    + cbn. rewrite Hid. apply String.eqb_eq in Hid.
      rewrite <- (Hwas d (proj2 (list_elem_of_In _ _) Hd) Hid).
      destruct d. reflexivity.
    + rewrite Hid. reflexivity.
Qed.

Lemma trust_sets_one_flag_witness :
  let w := fleet [sample_device "peer" "phone" false;
                  sample_device "other" "laptop" false] in
  map Device.is_trusted
    (devices (Devices.trust_device (Sample.request POST ["devices"; "peer"; "trust"])
                (Sample.ctx_of "peer") w).2) = [true; false]
  ∧ (Devices.untrust_device (Sample.request POST ["devices"; "peer"; "untrust"])
       (Sample.ctx_of "peer")
       (Devices.trust_device (Sample.request POST ["devices"; "peer"; "untrust"])
          (Sample.ctx_of "peer") w).2).2 = w.
Proof.
  intros w.
  destruct (trust_sets_one_flag
              (Sample.request POST ["devices"; "peer"; "untrust"])
              (Sample.ctx_of "peer") w) as (_ & _ & Hback).
  split; [reflexivity|]. apply Hback.
  intros d Hd _. apply elem_of_cons in Hd as [->|Hd]; [reflexivity|].
  apply list_elem_of_singleton in Hd as ->. reflexivity.
Defined.

Lemma trim_empty : Devices.trim EmptyString = EmptyString.
Proof. reflexivity. Qed.

Lemma changes_zero {A} (p : A → bool) (rows : list A) :
  (∀ r, r ∈ rows → p r = false) → db.changes p rows = 0%nat.
Proof.
  intros Hno. unfold db.changes. induction rows as [|r rows IH]; [reflexivity|].
  cbn. rewrite (Hno r) by left. apply IH. intros y Hy. apply Hno. right. exact Hy.
Qed.

Lemma changes_positive {A} (p : A → bool) (rows : list A) (r : A) :
  r ∈ rows → p r = true → (db.changes p rows =? 0)%nat = false.
Proof.
  intros Hr Hp. unfold db.changes.
  assert (Hin : In r (List.filter p rows))
    by (apply filter_In; split; [apply list_elem_of_In, Hr|exact Hp]).
  destruct (List.filter p rows); [destruct Hin|reflexivity].
Qed.

(** X9: PUT /:deviceId refuses a missing or blank name with 400 and an id
    the table does not hold with 404, changing nothing either time;
    otherwise it answers success and gives the rows under that id the
    trimmed name, leaving every other column, the trust flags included,
    and the files, keys and disk as they were. *)
Theorem rename_checks_name_and_id (req : Request) (ctx : Ctx) (w : World) :
  (body req !! "name" = None →
   Devices.update_device req ctx w
   = (Ok (error 400 "Valid device name required"), w))
  ∧ (∀ name,
       body req !! "name" = Some name → Devices.trim name = EmptyString →
       Devices.update_device req ctx w
       = (Ok (error 400 "Valid device name required"), w))
  ∧ (∀ name,
       body req !! "name" = Some name → Devices.trim name ≠ EmptyString →
       param ctx ∉ map Device.id (devices w) →
       Devices.update_device req ctx w = (Ok (error 404 "Device not found"), w))
  ∧ (∀ name,
       body req !! "name" = Some name → Devices.trim name ≠ EmptyString →
       param ctx ∈ map Device.id (devices w) →
       ∃ w', Devices.update_device req ctx w = (Ok (json SuccessBody), w')
             ∧ same_but_name (devices w') (devices w)
             ∧ (∀ d, d ∈ devices w' → Device.id d = param ctx →
                     Device.name d = Devices.trim name)
             ∧ (∀ d, d ∈ devices w → Device.id d ≠ param ctx → d ∈ devices w')
             ∧ files w' = files w ∧ api_keys w' = api_keys w
             ∧ disk w' = disk w).
Proof.
  unfold Devices.update_device. munfold. split; [|split; [|split]].
  - intros ->. reflexivity.
  - intros name -> Hblank. rewrite Hblank, String.eqb_refl, orb_true_r.
    reflexivity.
  - intros name -> Hname Hfresh.
    assert (Hn : (name === EmptyString) = false).
    { apply String.eqb_neq. intros ->. apply Hname, trim_empty. }
    apply String.eqb_neq in Hname. rewrite Hn, Hname. cbn [orb].
    unfold db.update_devices. cbn [fst snd].
    rewrite changes_zero by (apply device_id_unknown, Hfresh).
    cbn [Nat.eqb].
    rewrite update_where_no_match by (apply device_id_unknown, Hfresh).
    rewrite with_devices_same. reflexivity.
  - intros name -> Hname Hknown.
    assert (Hn : (name === EmptyString) = false).
    { apply String.eqb_neq. intros ->. apply Hname, trim_empty. }
    apply String.eqb_neq in Hname. rewrite Hn, Hname. cbn [orb].
    unfold db.update_devices. cbn [fst snd].
    apply list_elem_of_fmap in Hknown as (d0 & Hid0 & Hd0).
    rewrite (changes_positive _ _ d0 Hd0)
      by (rewrite Hid0; apply String.eqb_refl).
    eexists. split; [reflexivity|].
    cbn [devices files api_keys disk with_devices].
    split; [|split; [|split]].
    + unfold same_but_name, db.update_where. rewrite map_map. apply map_ext.
      intros r. destruct (Device.id r === param ctx); reflexivity.
    + intros d Hd Hid. apply update_where_elem in Hd as (r & Hr & ->).
      destruct (Device.id r === param ctx) eqn:Hr'; [reflexivity|].
      apply String.eqb_neq in Hr'. contradiction.
    + intros d Hd Hid. unfold db.update_where. apply list_elem_of_fmap.
      exists d. apply String.eqb_neq in Hid. rewrite Hid. auto.
    + auto.
Qed.

Lemma rename_checks_name_and_id_witness :
  let w := fleet [sample_device "peer" "phone" true] in
  let req (name : string) :=
    {| method := PUT; path := ["devices"; "peer"]; ip := "192.168.1.9";
       user_agent := None; x_api_key := None; query := ∅;
       body := {["name" := name]};
       expiresInHours := None; upload := None |} in
  Devices.update_device (req "   ") (Sample.ctx_of "peer") w
  = (Ok (error 400 "Valid device name required"), w)
  ∧ Devices.update_device (req "tablet") (Sample.ctx_of "ghost") w
    = (Ok (error 404 "Device not found"), w)
  ∧ map Device.name
      (devices (Devices.update_device (req " tablet ") (Sample.ctx_of "peer") w).2)
    = ["tablet"].
Proof.
  intros w req.
  destruct (rename_checks_name_and_id (req "   ") (Sample.ctx_of "peer") w)
    as (_ & Hblank & _).
  destruct (rename_checks_name_and_id (req "tablet") (Sample.ctx_of "ghost") w)
    as (_ & _ & Hunknown & _).
  split; [apply (Hblank "   "); reflexivity|].
  split; [|reflexivity].
  apply (Hunknown "tablet"); [reflexivity|discriminate|].
  cbn. intros H. apply list_elem_of_singleton in H. discriminate.
Defined.

(** ** The node's own record *)

#[local] Instance keeps_device_preorder (id : string) : PreOrder (keeps_device id).
Proof.
  split.
  - intros w H. exact H.
  - intros a b c Hab Hbc H. apply Hbc, Hab, H.
Qed.

Lemma respects_keeps_same (id : string) {A} (m : M A) :
  (∀ w, devices (m w).2 = devices w) → respects (keeps_device id) m.
Proof. intros H w Hin. rewrite H. exact Hin. Qed.

Lemma respects_keeps_insert (id : string) (r : Device.row) :
  respects (keeps_device id) (db.insert_device r).
Proof.
  intros w Hin. unfold db.insert_device. destruct (existsb _ _); cbn;
    [exact Hin|].
  rewrite map_app. apply elem_of_app. left. exact Hin.
Qed.

Lemma respects_keeps_update (id : string) (p : Device.row → bool)
    (f : Device.row → Device.row) :
  (∀ r, Device.id (f r) = Device.id r) →
  respects (keeps_device id) (db.update_devices p f).
Proof.
  intros Hf w Hin. unfold db.update_devices, db.update_where. cbn.
  rewrite map_map.
  replace (map (λ r, Device.id (if p r then f r else r)) (devices w))
    with (map Device.id (devices w)); [exact Hin|].
  apply map_ext. intros r. destruct (p r); [rewrite Hf|]; reflexivity.
Qed.

Lemma respects_keeps_delete (id other : string) :
  other ≠ id →
  respects (keeps_device id) (db.delete_devices (λ r, Device.id r === other)).
Proof.
  intros Hother w Hin. unfold db.delete_devices, modify. cbn.
  apply list_elem_of_fmap in Hin as (d & -> & Hd).
  apply list_elem_of_fmap. exists d. split; [reflexivity|].
  apply list_elem_of_In, filter_In. split; [apply list_elem_of_In, Hd|].
  apply negb_true_iff, String.eqb_neq. congruence.
Qed.

Ltac keeps_same :=
  apply respects_keeps_same; intros ?w;
  cbv beta delta
    [fs.writeFileSync fs.readFileSync fs.unlinkSync fs.existsSync
     db.insert_file db.insert_api_key db.update_files db.update_api_keys
     modify gets];
  repeat match goal with
         | |- context [match ?x with _ => _ end] => destruct x
         | |- context [if ?x then _ else _] => destruct x
         end; reflexivity.
Ltac keeps_prim :=
  first [ apply respects_keeps_insert
        | apply respects_keeps_update; intros ?r; reflexivity
        | keeps_same ].

Section SelfRecord.
Context {P : Platform} (cfg : Config) (env : Env).

Lemma keeps_remove_blob (id filename : string) :
  respects (keeps_device id) (Files.remove_blob cfg filename).
Proof. unfold Files.remove_blob. respects_auto keeps_prim. Qed.

Lemma keeps_sweep (id : string) (expiredFiles : list File.row)
    (cleanedCount : nat) :
  respects (keeps_device id) (Files.sweep cfg expiredFiles cleanedCount).
Proof.
  revert cleanedCount.
  induction expiredFiles as [|file rest IH]; intros cleanedCount; cbn [Files.sweep].
  - apply respects_ret; apply _.
  - apply respects_bind; [apply _|keeps_prim|intros _].
    apply respects_bind; [apply _|apply keeps_remove_blob|intros removed].
    apply IH.
Qed.

Lemma keeps_delete_device (req : Request) (ctx : Ctx) :
  respects (keeps_device (deviceId cfg)) (Devices.delete_device cfg req ctx).
Proof.
  unfold Devices.delete_device. cbv zeta.
  apply respects_try_catch; [apply _| |intros _; apply respects_ret; apply _].
  destruct (param ctx === deviceId cfg) eqn:Hself;
    [apply respects_ret; apply _|].
  apply respects_bind; [apply _| |intros _; apply respects_ret; apply _].
  unfold DeviceManager.deleteDevice. rewrite Hself.
  apply respects_keeps_delete. apply String.eqb_neq, Hself.
Qed.

Ltac keeps_calls :=
  first [ apply keeps_remove_blob | apply keeps_sweep | keeps_prim ].

Lemma keeps_handler (e : Endpoint) (req : Request) (ctx : Ctx) :
  respects (keeps_device (deviceId cfg)) (handler cfg env e req ctx).
Proof.
  destruct e; cbn [handler];
    try (unfold Auth.bootstrap, Auth.validate, Auth.list_keys, Auth.revoke,
           Auth.generate, Auth.active_key,
           Devices.list_devices, Devices.me, Devices.get_device,
           Devices.update_device, Devices.trust_device,
           Devices.untrust_device, Devices.stats,
           Devices.register, Devices.discover,
           DeviceManager.getDevices, DeviceManager.getDevice,
           DeviceManager.trustDevice, DeviceManager.untrustDevice,
           DeviceManager.addDiscoveredDevice,
           Files.list_files, Files.upload_file, Files.upload_body,
           Files.upload_store, Files.upload_cleanup, Files.anonymous_device,
           Files.rename_device,
           Files.download_file, Files.file_info, Files.delete_file,
           Files.cleanup, Files.live_file, Files.setHeader;
         respects_auto keeps_calls; fail).
  apply keeps_delete_device.
Qed.

Lemma keeps_guard (g : Guard) (req : Request) (ctx : Ctx) :
  respects (keeps_device (deviceId cfg)) (guard cfg env g req ctx).
Proof.
  destruct g; cbn [guard];
    unfold Auth.authenticateRequest, Auth.requirePermission, Auth.active_key,
      Files.uploadSingle;
    respects_auto keeps_prim.
Qed.

Lemma keeps_run (guards : list Guard) (e : Endpoint) (req : Request) (ctx : Ctx) :
  respects (keeps_device (deviceId cfg)) (run cfg env guards e req ctx).
Proof.
  revert ctx. induction guards as [|g rest IH]; intros ctx; cbn [run].
  - apply keeps_handler.
  - apply respects_bind; [apply _|apply keeps_guard|intros [r|ctx']].
    + apply respects_ret; apply _.
    + apply IH.
Qed.

Lemma keeps_serve (req : Request) :
  respects (keeps_device (deviceId cfg)) (serve cfg env req).
Proof.
  unfold serve. destruct (find_route _ _ _) as [[r params]|].
  - apply keeps_run.
  - apply respects_ret; apply _.
Qed.

End SelfRecord.

(** X10: no sequence of requests removes the node's own device record:
    DELETE /:deviceId answers 400 on the node's id and changes nothing, and
    once the record is in the table it is there after every trace. *)
Theorem self_record_survives {P : Platform} (cfg : Config)
    (trace : list (Env * Request)) (w : World) :
  (∀ req ctx,
     param ctx = deviceId cfg →
     Devices.delete_device cfg req ctx w
     = (Ok (error 400 "Cannot delete own device"), w))
  ∧ (deviceId cfg ∈ map Device.id (devices w) →
     deviceId cfg ∈ map Device.id (devices (replay cfg trace w))).
Proof.
  split.
  - intros req ctx Hself. unfold Devices.delete_device. munfold.
    rewrite Hself, String.eqb_refl. reflexivity.
  - revert w. induction trace as [|[env req] trace IH]; intros w Hin; cbn.
    + exact Hin.
    + apply IH. apply (keeps_serve cfg env req w Hin).
Qed.

Lemma self_record_survives_witness :
  let w := Sample.keyring [Sample.key_row "k1" "sha256:secret" "read,write" true] in
  let w0 := with_devices [sample_device "self" "host-linux" true] w in
  let trace :=
    [(Sample.clock Sample.morning,
      Sample.with_key "secret" (Sample.request DELETE ["devices"; "self"]));
     (Sample.clock Sample.morning,
      Sample.with_key "secret" (Sample.request DELETE ["devices"; "SELF"]))] in
  "self" ∈ map Device.id
             (devices (replay (P := Sample.platform) Sample.config trace w0)).
Proof.
  intros w w0 trace.
  destruct (self_record_survives (P := Sample.platform) Sample.config trace w0)
    as [_ Hkeep].
  apply Hkeep. left.
Defined.

(** X11: deleting a device (any but the node's own) answers success and
    removes the rows under that id and nothing else: files and API keys are
    left in place, so the files it owned are still served by info, now with
    no device name, and keys issued to it are still accepted. *)
Theorem deleted_device_leaves_files_and_keys {P : Platform} (cfg : Config)
    (env : Env) (req : Request) (ctx : Ctx) (w : World) :
  param ctx ≠ deviceId cfg →
  ∃ w',
    Devices.delete_device cfg req ctx w = (Ok (json SuccessBody), w')
    ∧ (param ctx ∉ map Device.id (devices w'))
    ∧ (∀ d, d ∈ devices w → Device.id d ≠ param ctx → d ∈ devices w')
    ∧ files w' = files w ∧ api_keys w' = api_keys w ∧ disk w' = disk w
    ∧ (∀ req' ctx',
         fst (Auth.authenticateRequest env req' ctx' w')
         = fst (Auth.authenticateRequest env req' ctx' w))
    ∧ (∀ r req' ctx',
         NoDup (map File.id (files w)) → r ∈ files w →
         File.device_id r = param ctx → param ctx' = File.id r →
         accessible (now env) r = true →
         Files.file_info env req' ctx' w'
         = (Ok (json (FileInfoBody (Files.view (r, None)))), w')).
Proof.
  intros Hself. unfold Devices.delete_device, DeviceManager.deleteDevice.
  apply String.eqb_neq in Hself. rewrite Hself. munfold. rewrite ?Hself.
  unfold db.delete_devices, modify. cbn [fst snd].
  eexists. split; [reflexivity|].
  cbn [devices files api_keys disk with_devices].
  split; [|split; [|split; [reflexivity|split; [reflexivity|split;
    [reflexivity|split; [|]]]]]].
  - intros Hin. apply list_elem_of_fmap in Hin as (d & Hid & Hd).
    apply list_elem_of_In, filter_In in Hd as [_ Hd].
    rewrite <- Hid, String.eqb_refl in Hd. discriminate.
  - intros d Hd Hid. apply list_elem_of_In, filter_In.
    split; [apply list_elem_of_In, Hd|]. apply negb_true_iff, String.eqb_neq, Hid.
  - intros req' ctx'. unfold Auth.authenticateRequest, Auth.active_key.
    munfold. destruct (negb _); [reflexivity|].
    cbv beta. cbn [api_keys with_devices].
    destruct (find _ _) as [k|]; [|reflexivity].
    destruct (Auth.key_expired env k); reflexivity.
  - intros r req' ctx' Hnd Hr Howner Hparam Hacc.
    unfold Files.file_info. munfold. rewrite Hparam.
    rewrite live_file_by_key by assumption.
    destruct (File.is_deleted r) eqn:Hd;
      [unfold accessible in Hacc; rewrite Hd in Hacc; discriminate Hacc|].
    rewrite (js_expired_accessible env r Hd) in Hacc.
    apply negb_true_iff in Hacc. cbn [fst snd devices with_devices].
    rewrite Hacc.
    assert (Hgone : List.filter (λ d, File.device_id r === Device.id d)
                      (List.filter (λ r0, negb (Device.id r0 === param ctx))
                         (devices w)) = []).
    { destruct (List.filter _ (List.filter _ (devices w))) as [|d ds] eqn:Hf;
        [reflexivity|].
      assert (Hin : In d (List.filter (λ d, File.device_id r === Device.id d)
                            (List.filter (λ r0, negb (Device.id r0 === param ctx))
                               (devices w))))
        by (rewrite Hf; left; reflexivity).
      apply filter_In in Hin as [Hin Hown]. apply filter_In in Hin as [_ Hnot].
      apply String.eqb_eq in Hown. rewrite <- Hown, Howner, String.eqb_refl in Hnot.
      discriminate. }
    rewrite Hgone. reflexivity.
Qed.

Lemma deleted_device_leaves_files_and_keys_witness :
  let r := Sample.record None false in
  let w := with_devices [sample_device "d1" "phone" true] (Sample.ledger r) in
  ∃ w',
    Devices.delete_device Sample.config
      (Sample.request DELETE ["devices"; "d1"]) (Sample.ctx_of "d1") w
    = (Ok (json SuccessBody), w')
    ∧ files w' = [r]
    ∧ Files.file_info (Sample.clock Sample.morning)
        (Sample.request GET ["files"; "f1"; "info"]) (Sample.ctx_of "f1") w'
      = (Ok (json (FileInfoBody (Files.view (r, None)))), w').
Proof.
  intros r w.
  destruct (deleted_device_leaves_files_and_keys (P := Sample.platform)
              Sample.config (Sample.clock Sample.morning)
              (Sample.request DELETE ["devices"; "d1"]) (Sample.ctx_of "d1") w)
    as (w' & Hrun & _ & _ & Hfiles & _ & _ & _ & Hinfo); [discriminate|].
  exists w'. split; [exact Hrun|]. split; [exact Hfiles|].
  apply (Hinfo r); try reflexivity; [apply NoDup_singleton|left].
Defined.

(** ** Downloads *)
Section Download.
Context {P : Platform} (cfg : Config) (env : Env).

Lemma header_ok_append (s t : string) :
  Files.header_ok (s +:+ t) = Files.header_ok s && Files.header_ok t.
Proof.
  induction s as [|c s IH]; [reflexivity|].
  change (String c s +:+ t) with (String c (s +:+ t)). cbn [Files.header_ok].
  rewrite IH. apply andb_assoc.
Qed.

Lemma download_of_live_record (w : World) (r : File.row) (req : Request)
    (ctx : Ctx) (blob : bytes) :
  NoDup (map File.id (files w)) → r ∈ files w → param ctx = File.id r →
  accessible (now env) r = true →
  disk w !! Path.join (uploadsDir cfg) (File.filename r) = Some blob →
  Files.download_file cfg env req ctx w
  = match EncryptionService.decryptFile blob (File.encryption_key r) with
    | Thrown _ => (Ok (error 500 "File decryption failed"), w)
    | Ok data =>
        (Ok (if Files.header_ok (File.mime_type r)
                && Files.header_ok (File.original_name r)
                && Files.header_ok (source_device w (File.device_id r))
                && Files.header_ok (File.upload_time r)
             then json (DownloadBody data (content_type (File.mime_type r)) (File.original_name r)
                          (source_device w (File.device_id r)) (File.upload_time r))
             else error 500 "File decryption failed"),
         with_files (counted (File.id r) (files w)) w)
    end.
Proof.
  intros Hnd Hr Hparam Hacc Hblob.
  unfold Files.download_file. munfold. rewrite Hparam, live_file_by_key by assumption.
  destruct (File.is_deleted r) eqn:Hd;
    [unfold accessible in Hacc; rewrite Hd in Hacc; discriminate Hacc|].
  rewrite (js_expired_accessible env r Hd) in Hacc.
  apply negb_true_iff in Hacc. cbn [fst snd]. rewrite Hacc, Hblob.
  rewrite bool_decide_eq_true_2 by (eexists; reflexivity). cbn [negb].
  cbv beta. rewrite Hblob.
  destruct (EncryptionService.decryptFile blob (File.encryption_key r))
    as [data|e]; [|reflexivity].
  unfold db.update_files, Files.setHeader. munfold. wsimpl.
  fold (counted (File.id r) (files w)).
  fold (content_type (File.mime_type r)).
  assert (Hct : Files.header_ok (content_type (File.mime_type r))
                = Files.header_ok (File.mime_type r)).
  { unfold content_type. destruct (File.mime_type r === EmptyString) eqn:Hm;
      [|reflexivity].
    apply String.eqb_eq in Hm. rewrite Hm. reflexivity. }
  assert (Hdisp : Files.header_ok
                    ("attachment; filename=" +:+ Files.dquote
                     +:+ File.original_name r +:+ Files.dquote)
                  = Files.header_ok (File.original_name r)).
  { rewrite !header_ok_append.
    change (Files.header_ok "attachment; filename=") with true.
    change (Files.header_ok Files.dquote) with true.
    rewrite andb_true_r. reflexivity. }
  assert (Hdev : (if JS.truthy (Device.name <$> owner w (File.device_id r))
                  then default EmptyString (Device.name <$> owner w (File.device_id r))
                  else "Unknown Device") = source_device w (File.device_id r)).
  { unfold source_device. destruct (owner w (File.device_id r)) as [d|]; [|reflexivity].
    cbn. destruct (Device.name d === EmptyString); reflexivity. }
  fold (owner w (File.device_id r)). rewrite Hct, Hdisp, Hdev.
  destruct (Files.header_ok (File.mime_type r)); [|reflexivity].
  destruct (Files.header_ok (File.original_name r)); [|reflexivity].
  destruct (Files.header_ok (source_device w (File.device_id r))); [|reflexivity].
  destruct (Files.header_ok (File.upload_time r)); reflexivity.
Qed.

Lemma download_without_blob (w : World) (r : File.row) (req : Request)
    (ctx : Ctx) :
  NoDup (map File.id (files w)) → r ∈ files w → param ctx = File.id r →
  accessible (now env) r = true →
  disk w !! Path.join (uploadsDir cfg) (File.filename r) = None →
  Files.download_file cfg env req ctx w
  = (Ok (error 404 "File not found on disk"), w).
Proof.
  intros Hnd Hr Hparam Hacc Hblob.
  unfold Files.download_file. munfold. rewrite Hparam, live_file_by_key by assumption.
  destruct (File.is_deleted r) eqn:Hd;
    [unfold accessible in Hacc; rewrite Hd in Hacc; discriminate Hacc|].
  rewrite (js_expired_accessible env r Hd) in Hacc.
  apply negb_true_iff in Hacc. cbn [fst snd]. rewrite Hacc, Hblob.
  rewrite bool_decide_eq_false_2 by (intros [? ?]; discriminate).
  reflexivity.
Qed.

End Download.

(** X12: a download of a stored record that is accessible, whose blob is on
    disk and decrypts, and whose header values Node accepts, answers with the
    decrypted octets, the stored original name and MIME type
    (application/octet-stream when it is empty) and the joined device's
    name (Unknown Device when there is none); it adds one to the download
    count of that record and changes nothing else. *)
Theorem download_returns_plaintext_and_counts {P : Platform} (cfg : Config)
    (env : Env) (w : World) (r : File.row) (req : Request) (ctx : Ctx)
    (blob data : bytes) :
  NoDup (map File.id (files w)) → r ∈ files w → param ctx = File.id r →
  accessible (now env) r = true →
  disk w !! Path.join (uploadsDir cfg) (File.filename r) = Some blob →
  EncryptionService.decryptFile blob (File.encryption_key r) = Ok data →
  Files.header_ok (File.mime_type r) = true →
  Files.header_ok (File.original_name r) = true →
  Files.header_ok (source_device w (File.device_id r)) = true →
  Files.header_ok (File.upload_time r) = true →
  ∃ w',
    Files.download_file cfg env req ctx w
    = (Ok (json (DownloadBody data (content_type (File.mime_type r)) (File.original_name r)
                   (source_device w (File.device_id r)) (File.upload_time r))), w')
    ∧ File.set_download_count (File.download_count r + 1) r ∈ files w'
    ∧ files w' = counted (File.id r) (files w)
    ∧ devices w' = devices w ∧ api_keys w' = api_keys w ∧ disk w' = disk w.
Proof.
  intros Hnd Hr Hparam Hacc Hblob Hdec Hm Hn Hs Hu.
  rewrite (download_of_live_record cfg env w r req ctx blob) by assumption.
  rewrite Hdec, Hm, Hn, Hs, Hu. cbn [andb].
  eexists. split; [reflexivity|]. cbn [files devices api_keys disk with_files].
  split; [|repeat split].
  unfold counted, db.update_where.
  apply list_elem_of_fmap. exists r. rewrite String.eqb_refl.
  split; [reflexivity|exact Hr].
Qed.

Lemma download_returns_plaintext_and_counts_witness :
  let r := Sample.record None false in
  ∃ w',
    Files.download_file (P := Sample.platform) Sample.config
      (Sample.clock Sample.morning) (Sample.request GET ["files"; "f1"])
      (Sample.ctx_of "f1") (shelf r sealed_hello)
    = (Ok (json (DownloadBody [104; 105] "text/plain" "notes.txt"
                   "Unknown Device" "2024-01-01 09:00:00")), w')
    ∧ map File.download_count (files w') = [1].
Proof.
  intros r.
  destruct (download_returns_plaintext_and_counts (P := Sample.platform)
              Sample.config (Sample.clock Sample.morning) (shelf r sealed_hello)
              r (Sample.request GET ["files"; "f1"]) (Sample.ctx_of "f1")
              sealed_hello [104; 105])
    as (w' & Hrun & _ & Hrows & _); try reflexivity.
  - apply NoDup_singleton.
  - left.
  - exists w'. split; [exact Hrun|]. rewrite Hrows. reflexivity.
Defined.

(** X13: what a download that fails does to the download count.  For an
    accessible record: a blob missing from disk answers 404 and a blob that
    does not decrypt answers 500, both with the tables untouched; but when
    the blob decrypts and Node refuses one of the response headers (a
    control character in the stored name, MIME type or device name), the
    answer is 500 File decryption failed and the download has been counted
    all the same. *)
Theorem failed_download_and_the_count {P : Platform} (cfg : Config)
    (env : Env) (w : World) (r : File.row) (req : Request) (ctx : Ctx) :
  NoDup (map File.id (files w)) → r ∈ files w → param ctx = File.id r →
  accessible (now env) r = true →
  (disk w !! Path.join (uploadsDir cfg) (File.filename r) = None →
   Files.download_file cfg env req ctx w
   = (Ok (error 404 "File not found on disk"), w))
  ∧ (∀ blob e,
       disk w !! Path.join (uploadsDir cfg) (File.filename r) = Some blob →
       EncryptionService.decryptFile blob (File.encryption_key r) = Thrown e →
       Files.download_file cfg env req ctx w
       = (Ok (error 500 "File decryption failed"), w))
  ∧ (∀ blob data,
       disk w !! Path.join (uploadsDir cfg) (File.filename r) = Some blob →
       EncryptionService.decryptFile blob (File.encryption_key r) = Ok data →
       Files.header_ok (File.mime_type r)
       && Files.header_ok (File.original_name r)
       && Files.header_ok (source_device w (File.device_id r))
       && Files.header_ok (File.upload_time r) = false →
       Files.download_file cfg env req ctx w
       = (Ok (error 500 "File decryption failed"),
          with_files (counted (File.id r) (files w)) w)).
Proof.
  intros Hnd Hr Hparam Hacc. split; [|split].
  - intros Hblob. apply (download_without_blob cfg env w r); assumption.
  - intros blob e Hblob Hdec.
    rewrite (download_of_live_record cfg env w r req ctx blob) by assumption.
    rewrite Hdec. reflexivity.
  - intros blob data Hblob Hdec Hbad.
    rewrite (download_of_live_record cfg env w r req ctx blob) by assumption.
    rewrite Hdec, Hbad. reflexivity.
Qed.

Lemma failed_download_and_the_count_witness :
  let env := Sample.clock Sample.morning in
  let req := Sample.request GET ["files"; "f1"] in
  let w := shelf two_line_record sealed_hello in
  Files.download_file (P := Sample.platform) Sample.config env req
    (Sample.ctx_of "f1") (Sample.ledger two_line_record)
  = (Ok (error 404 "File not found on disk"), Sample.ledger two_line_record)
  ∧ Files.download_file (P := Sample.platform) Sample.config env req
      (Sample.ctx_of "f1") (shelf two_line_record [1; 2; 3])
    = (Ok (error 500 "File decryption failed"), shelf two_line_record [1; 2; 3])
  ∧ (Files.download_file (P := Sample.platform) Sample.config env req
       (Sample.ctx_of "f1") w).1
    = Ok (error 500 "File decryption failed")
  ∧ map File.download_count
      (files (Files.download_file (P := Sample.platform) Sample.config env req
                (Sample.ctx_of "f1") w).2) = [1].
Proof.
  intros env req w.
  assert (Hnd : NoDup [File.id two_line_record]) by apply NoDup_singleton.
  assert (Hr : two_line_record ∈ [two_line_record]) by left.
  split; [|split].
  - apply (failed_download_and_the_count (P := Sample.platform) Sample.config
             env (Sample.ledger two_line_record) two_line_record req
             (Sample.ctx_of "f1") Hnd Hr eq_refl eq_refl).
    reflexivity.
  - destruct (failed_download_and_the_count (P := Sample.platform) Sample.config
                env (shelf two_line_record [1; 2; 3]) two_line_record req
                (Sample.ctx_of "f1") Hnd Hr eq_refl eq_refl) as (_ & Hbad & _).
    eapply Hbad; reflexivity.
  - destruct (failed_download_and_the_count (P := Sample.platform) Sample.config
                env w two_line_record req (Sample.ctx_of "f1") Hnd Hr eq_refl
                eq_refl) as (_ & _ & Hcounted).
    rewrite (Hcounted sealed_hello [104; 105]); try reflexivity.
    split; reflexivity.
Defined.

(** ** Stored paths *)










(** ** The text of a time stamp *)




(** ** From upload to download *)


Section UploadOutcome.
Context {P : Platform} (cfg : Config) (env : Env).


End UploadOutcome.



(** ** Deletion *)

(** X15: DELETE /api/files/:fileId, past its guards.  With no live record
    under the id it answers 404 and changes nothing.  With one, it answers
    success, marks the record deleted and leaves every other column and
    record alone, removes the record's blob from the uploads directory
    (whether or not it was there), and touches neither devices nor keys;
    the same request made again then answers 404. *)
Theorem delete_marks_record_and_removes_blob (cfg : Config) (req : Request)
    (ctx : Ctx) (w : World) :
  ((∀ f, f ∈ files w → File.id f = param ctx → File.is_deleted f = true) →
   Files.delete_file cfg req ctx w = (Ok (error 404 "File not found"), w))
  ∧ (∀ r, NoDup (map File.id (files w)) → r ∈ files w →
       File.id r = param ctx → File.is_deleted r = false →
       ∃ w',
         Files.delete_file cfg req ctx w = (Ok (json SuccessBody), w')
         ∧ files w'
           = db.update_where (λ f, File.id f === File.id r)
               (File.set_is_deleted true) (files w)
         ∧ tombstoned (File.id r) (files w')
         ∧ disk w' = delete (Path.join (uploadsDir cfg) (File.filename r)) (disk w)
         ∧ devices w' = devices w ∧ api_keys w' = api_keys w
         ∧ Files.delete_file cfg req ctx w'
           = (Ok (error 404 "File not found"), w')).
Proof.
  assert (Hgone : ∀ w0,
    (∀ f, f ∈ files w0 → File.id f = param ctx → File.is_deleted f = true) →
    Files.delete_file cfg req ctx w0 = (Ok (error 404 "File not found"), w0)).
  { intros w0 Hall. unfold Files.delete_file. munfold.
    rewrite find_none_all; [reflexivity|]. intros f Hf.
    destruct (File.id f === param ctx) eqn:Hid; [|reflexivity].
    apply String.eqb_eq in Hid. rewrite (Hall f Hf Hid). reflexivity. }
  split; [apply Hgone|].
  intros r Hnd Hr Hid Hlive.
  assert (Hdead : tombstoned (File.id r)
            (db.update_where (λ f, File.id f === File.id r)
               (File.set_is_deleted true) (files w))).
  { split.
    - exists (File.set_is_deleted true r). split; [|reflexivity].
      unfold db.update_where. apply list_elem_of_fmap. exists r.
      rewrite String.eqb_refl. split; [reflexivity|exact Hr].
    - intros f Hf Hfid. apply update_where_elem in Hf as (f0 & Hf0 & ->).
      destruct (File.id f0 === File.id r) eqn:Hmatch; [reflexivity|].
      apply String.eqb_neq in Hmatch. contradiction. }
  assert (Hrun : ∃ w',
    Files.delete_file cfg req ctx w = (Ok (json SuccessBody), w')
    ∧ files w' = db.update_where (λ f, File.id f === File.id r)
                   (File.set_is_deleted true) (files w)
    ∧ disk w' = delete (Path.join (uploadsDir cfg) (File.filename r)) (disk w)
    ∧ devices w' = devices w ∧ api_keys w' = api_keys w).
  { unfold Files.delete_file. munfold. rewrite <- Hid.
    rewrite (find_by_key (λ f, negb (File.is_deleted f)) _ r Hnd Hr), Hlive.
    cbn [negb]. unfold db.update_files, Files.remove_blob. munfold. wsimpl.
    destruct (disk w !! Path.join (uploadsDir cfg) (File.filename r)) as [data|]
      eqn:Hblob.
    - rewrite bool_decide_eq_true_2 by (eexists; reflexivity). wsimpl.
      rewrite Hblob. eexists. split; [reflexivity|]. repeat split.
    - rewrite bool_decide_eq_false_2 by (intros [? ?]; discriminate).
      eexists. split; [reflexivity|]. wsimpl. repeat split.
      symmetry. apply delete_id, Hblob. }
  destruct Hrun as (w' & Hrun & Hfiles & Hdisk & Hdevices & Hkeys).
  exists w'. split; [exact Hrun|]. split; [exact Hfiles|].
  rewrite Hfiles. split; [exact Hdead|]. repeat (split; [assumption|]).
  apply Hgone. intros f Hf Hfid. rewrite Hfiles in Hf.
  destruct Hdead as [_ Hall]. apply (Hall f Hf). congruence.
Qed.

Lemma delete_marks_record_and_removes_blob_witness :
  let r := Sample.record None false in
  let req := Sample.request DELETE ["files"; "f1"] in
  ∃ w',
    Files.delete_file Sample.config req (Sample.ctx_of "f1") (shelf r sealed_hello)
    = (Ok (json SuccessBody), w')
    ∧ map File.is_deleted (files w') = [true]
    ∧ disk w' = ∅
    ∧ Files.delete_file Sample.config req (Sample.ctx_of "f1") w'
      = (Ok (error 404 "File not found"), w').
Proof.
  intros r req.
  destruct (delete_marks_record_and_removes_blob Sample.config req
              (Sample.ctx_of "f1") (shelf r sealed_hello)) as [_ Hlive].
  destruct (Hlive r) as (w' & Hrun & Hfiles & _ & Hdisk & _ & _ & Hagain);
    try reflexivity.
  - apply NoDup_singleton.
  - left.
  - exists w'. split; [exact Hrun|]. split; [rewrite Hfiles; reflexivity|].
    split; [|exact Hagain]. rewrite Hdisk. apply delete_singleton_eq.
Defined.

(** ** Cleanup *)
Section Cleanup.
Context {P : Platform} (cfg : Config) (env : Env).

Lemma marked_cons (e : File.row) (swept rows : list File.row) :
  marked swept
    (db.update_where (λ f, File.id f === File.id e) (File.set_is_deleted true) rows)
  = marked (e :: swept) rows.
Proof.
  unfold marked, db.update_where. rewrite map_map. apply map_ext. intros f.
  cbn [existsb]. destruct (File.id f === File.id e) eqn:He; [|reflexivity].
  cbn [orb]. destruct f; cbn. destruct (existsb _ swept); reflexivity.
Qed.

Lemma sweep_runs (swept : list File.row) (cleanedCount : nat) (w : World) :
  Files.sweep cfg swept cleanedCount w
  = (Ok (cleanedCount + length swept)%nat,
     with_disk (unlinked (uploadsDir cfg) swept (disk w))
       (with_files (marked swept (files w)) w)).
Proof.
  revert cleanedCount w. induction swept as [|e swept IH]; intros n w.
  - cbn. rewrite Nat.add_0_r. unfold marked. cbn [existsb].
    rewrite update_where_no_match by reflexivity. destruct w. reflexivity.
  - cbn [Files.sweep]. unfold db.update_files, Files.remove_blob. munfold. wsimpl.
    destruct (disk w !! Path.join (uploadsDir cfg) (File.filename e)) as [data|]
      eqn:Hblob.
    + rewrite bool_decide_eq_true_2 by (eexists; reflexivity). wsimpl.
      rewrite Hblob. wsimpl. rewrite IH. wsimpl. rewrite marked_cons.
      cbn [length unlinked foldl]. rewrite Nat.add_succ_r. reflexivity.
    + rewrite bool_decide_eq_false_2 by (intros [? ?]; discriminate). wsimpl.
      rewrite IH. wsimpl. rewrite marked_cons.
      cbn [length unlinked foldl]. rewrite (delete_id _ _ Hblob), Nat.add_succ_r.
      reflexivity.
Qed.

Lemma filter_all_nil {A} (p : A → bool) (l : list A) :
  (∀ x, x ∈ l → p x = false) → List.filter p l = [].
Proof.
  induction l as [|x l IH]; intros H; [reflexivity|]. cbn.
  rewrite (H x) by left. apply IH. intros y Hy. apply H. right. exact Hy.
Qed.

Lemma nothing_left_to_sweep (rows : list File.row) :
  List.filter (λ f, Files.sql_expired env f && negb (File.is_deleted f))
    (marked (List.filter (λ f, Files.sql_expired env f
                               && negb (File.is_deleted f)) rows) rows) = [].
Proof.
  apply filter_all_nil. intros f Hf.
  apply update_where_elem in Hf as (f0 & Hf0 & ->).
  destruct (existsb _ _) eqn:Hex.
  - cbn. apply andb_false_r.
  - destruct (Files.sql_expired env f0 && negb (File.is_deleted f0)) eqn:Hsel;
      [|reflexivity].
    exfalso. apply (eq_true_false_abs _ eq_refl). rewrite <- Hex. symmetry.
    apply existsb_exists. exists f0. split; [|apply String.eqb_refl].
    apply filter_In. split; [apply list_elem_of_In, Hf0|exact Hsel].
Qed.

End Cleanup.

(** X16: POST /api/files/cleanup, past its guards, selects the records that
    are not deleted and whose expiry text sorts before SQLite's current
    time stamp, marks them deleted by id, removes their blobs from the
    uploads directory and reports their number twice (every removal
    succeeds on this disk); devices and keys are untouched, and the same
    request made again at the same time finds nothing: it reports 0 and 0
    and changes nothing. *)
Theorem cleanup_sweeps_once (cfg : Config) (env : Env)
    (req : Request) (ctx : Ctx) (w : World) :
  ∃ expired w',
    expired = List.filter (λ f, Files.sql_expired env f
                                && negb (File.is_deleted f)) (files w)
    ∧ Files.cleanup cfg env req ctx w
      = (Ok (json (CleanupBody (length expired) (length expired))), w')
    ∧ files w' = marked expired (files w)
    ∧ (∀ f, f ∈ expired → tombstoned (File.id f) (files w'))
    ∧ disk w' = unlinked (uploadsDir cfg) expired (disk w)
    ∧ devices w' = devices w ∧ api_keys w' = api_keys w
    ∧ Files.cleanup cfg env req ctx w' = (Ok (json (CleanupBody 0 0)), w').
Proof.
  eexists. eexists. split; [reflexivity|].
  unfold Files.cleanup at 1. munfold. rewrite sweep_runs. cbn [fst snd Nat.add].
  split; [reflexivity|]. wsimpl. split; [reflexivity|].
  split; [|split; [reflexivity|split; [reflexivity|split; [reflexivity|]]]].
  - intros f Hf. apply list_elem_of_In in Hf.
    assert (Hmark : ∀ g, File.id g = File.id f →
              existsb (λ e, File.id g === File.id e)
                (List.filter (λ f, Files.sql_expired env f
                                   && negb (File.is_deleted f)) (files w)) = true).
    { intros g Hg. apply existsb_exists. exists f. split; [exact Hf|].
      apply String.eqb_eq, Hg. }
    apply filter_In in Hf as [Hf _]. apply list_elem_of_In in Hf. split.
    + exists (File.set_is_deleted true f). split; [|reflexivity].
      unfold marked, db.update_where. apply list_elem_of_fmap. exists f.
      rewrite (Hmark f eq_refl). split; [reflexivity|exact Hf].
    + intros g Hg Hid. apply update_where_elem in Hg as (g0 & Hg0 & ->).
      destruct (existsb _ _) eqn:Hex; [reflexivity|].
      rewrite (Hmark g0 Hid) in Hex. discriminate.
  - unfold Files.cleanup. munfold. wsimpl.
    rewrite nothing_left_to_sweep. cbn [Files.sweep length].
    munfold. reflexivity.
Qed.

Lemma cleanup_sweeps_once_witness :
  let r := Sample.record (Some Sample.morning) false in
  let env := Sample.clock (Sample.afternoon + 86400000) in
  let req := Sample.request POST ["files"; "cleanup"] in
  ∃ w',
    Files.cleanup Sample.config env req (Sample.ctx_of "x") (shelf r sealed_hello)
    = (Ok (json (CleanupBody 1 1)), w')
    ∧ tombstoned "f1" (files w')
    ∧ Files.cleanup Sample.config env req (Sample.ctx_of "x") w'
      = (Ok (json (CleanupBody 0 0)), w').
Proof.
  intros r env req.
  destruct (cleanup_sweeps_once Sample.config env req (Sample.ctx_of "x")
              (shelf r sealed_hello))
    as (expired & w' & Hexpired & Hrun & _ & Hdead & _ & _ & _ & Hagain).
  assert (Hone : expired = [r]) by (rewrite Hexpired; reflexivity).
  rewrite Hone in Hrun, Hdead.
  exists w'. split; [exact Hrun|]. split; [|exact Hagain].
  apply (Hdead r). left.
Defined.

(** ** Expiry as SQLite compares it *)

Lemma ascii_compare_refl (c : ascii) : Ascii.compare c c = Eq.
Proof. unfold Ascii.compare. apply N.compare_refl. Qed.

Lemma compare_append_prefix (p s t : string) :
  String.compare (p +:+ s) (p +:+ t) = String.compare s t.
Proof.
  induction p as [|c p IH]; [reflexivity|].
  change (String c p +:+ s) with (String c (p +:+ s)).
  change (String c p +:+ t) with (String c (p +:+ t)).
  cbn [String.compare]. rewrite ascii_compare_refl. exact IH.
Qed.

Section SameDay.
Context {P : Platform} (cfg : Config) (env : Env).

Lemma same_day_texts (t : Z) :
  t / 86400000 = now env / 86400000 →
  0 ≤ (Date.civil_from_days (now env / 86400000)).1.1 ≤ 9999 →
  String.compare (SQLite.datetime (now env)) (Date.iso_string t) = Lt
  ∧ String.compare (Date.iso_string t) (SQLite.datetime (now env)) = Gt.
Proof.
  intros Hday Hyear. unfold SQLite.datetime, Date.iso_string. rewrite Hday.
  destruct (Date.civil_from_days (now env / 86400000)) as [[y m] d].
  cbn [fst] in Hyear. unfold Date.year_string.
  replace ((0 <=? y) && (y <=? 9999)) with true
    by (symmetry; apply andb_true_iff; split; apply Z.leb_le; lia).
  rewrite !compare_append_prefix. split; reflexivity.
Qed.

Lemma same_day_comparisons (r : File.row) (t : Z) :
  File.expires_at r = Some t →
  t / 86400000 = now env / 86400000 →
  0 ≤ (Date.civil_from_days (now env / 86400000)).1.1 ≤ 9999 →
  Files.sql_not_expired env r = true ∧ Files.sql_expired env r = false
  ∧ Devices.sql_expires_after_now env r = true.
Proof.
  intros Hexp Hday Hyear. destruct (same_day_texts t Hday Hyear) as [Hlt Hgt].
  unfold Files.sql_not_expired, Files.sql_expired, Devices.sql_expires_after_now.
  rewrite Hexp. unfold SQLite.text_gt, SQLite.text_lt. rewrite Hlt, Hgt.
  repeat split.
Qed.

End SameDay.

(** X17: SQLite compares the stored ISO text of an expiry with its own
    time stamp as text, and the two differ in the separator after the date.
    So for a record whose expiry falls on the current UTC day (in a year of
    four digits), whatever the time of day, and even when download already
    answers 410 for it: the list and stats queries count it as not expired,
    the cleanup query does not select it, and a cleanup run leaves the
    record in the table as it is. *)
Theorem expiry_on_the_current_day_is_not_seen {P : Platform} (cfg : Config)
    (env : Env) (req : Request) (ctx : Ctx) (w : World) (r : File.row) (t : Z) :
  NoDup (map File.id (files w)) → r ∈ files w →
  File.is_deleted r = false → File.expires_at r = Some t →
  t / 86400000 = now env / 86400000 →
  0 ≤ (Date.civil_from_days (now env / 86400000)).1.1 ≤ 9999 →
  Files.sql_not_expired env r = true
  ∧ Devices.sql_expires_after_now env r = true
  ∧ Files.sql_expired env r = false
  ∧ r ∈ files (Files.cleanup cfg env req ctx w).2
  ∧ (∀ ctx', param ctx' = File.id r → t < now env →
       Files.download_file cfg env req ctx' w
       = (Ok (error 410 "File expired"), w)).
Proof.
  intros Hnd Hr Hlive Hexp Hday Hyear.
  destruct (same_day_comparisons env r t Hexp Hday Hyear) as (Hlist & Hsweep & Hstats).
  split; [exact Hlist|]. split; [exact Hstats|]. split; [exact Hsweep|]. split.
  - unfold Files.cleanup. munfold. rewrite sweep_runs. cbn [fst snd]. wsimpl.
    unfold marked, db.update_where. apply list_elem_of_fmap. exists r.
    split; [|exact Hr].
    destruct (existsb _ _) eqn:Hex; [|reflexivity].
    apply existsb_exists in Hex as (e & He & Hid).
    apply filter_In in He as [He Hsel]. apply String.eqb_eq in Hid.
    assert (r = e) as <-
      by (apply (NoDup_fmap_elem_inj File.id (files w)); try assumption;
          apply list_elem_of_In, He).
    rewrite Hsweep in Hsel. discriminate.
  - intros ctx' Hparam Hpast. unfold Files.download_file. munfold.
    rewrite Hparam, live_file_by_key by assumption. rewrite Hlive. cbn [fst snd].
    unfold Files.js_expired. rewrite Hexp.
    apply Z.ltb_lt in Hpast. rewrite Hpast. reflexivity.
Qed.

Lemma expiry_on_the_current_day_is_not_seen_witness :
  let r := Sample.record (Some Sample.morning) false in
  let env := Sample.clock Sample.afternoon in
  let req := Sample.request POST ["files"; "cleanup"] in
  Files.sql_expired env r = false
  ∧ r ∈ files (Files.cleanup Sample.config env req
                 (Sample.ctx_of "f1") (Sample.ledger r)).2
  ∧ Files.download_file (P := Sample.platform) Sample.config env req
      (Sample.ctx_of "f1") (Sample.ledger r)
    = (Ok (error 410 "File expired"), Sample.ledger r).
Proof.
  intros r env req.
  destruct (expiry_on_the_current_day_is_not_seen (P := Sample.platform)
              Sample.config env req (Sample.ctx_of "f1") (Sample.ledger r) r
              Sample.morning) as (_ & _ & Hsel & Hkept & Hgone);
    try reflexivity.
  - apply NoDup_singleton.
  - left.
  - vm_compute. split; discriminate.
  - split; [exact Hsel|]. split; [exact Hkept|]. apply Hgone; reflexivity.
Defined.

(** ** Reading *)

#[local] Instance reads_only_preorder : PreOrder reads_only.
Proof.
  split.
  - intros w. repeat split.
  - intros a b c (Hd & Hk & Hf & Hr) (Hd' & Hk' & Hf' & Hr').
    repeat split; congruence.
Qed.

Lemma reads_only_same {A} (m : M A) :
  (∀ w, (m w).2 = w) → respects reads_only m.
Proof. intros Hm w. rewrite Hm. reflexivity. Qed.

Lemma reads_only_count (p : File.row → bool) (f : File.row → Z) :
  respects reads_only
    (db.update_files p (λ r, File.set_download_count (f r) r)).
Proof.
  intros w. unfold db.update_files, db.update_where, reads_only.
  cbn [snd devices api_keys disk files with_files].
  repeat split. rewrite map_map. apply map_ext. intros r.
  destruct (p r); destruct r; reflexivity.
Qed.

Ltac reads_prim :=
  first [ apply reads_only_count
        | apply reads_only_same; intros ?w;
          cbv beta delta [fs.readFileSync fs.existsSync gets];
          repeat match goal with
                 | |- context [match ?x with _ => _ end] => destruct x
                 | |- context [if ?x then _ else _] => destruct x
                 end; reflexivity ].

Lemma find_route_method (routes : list Route) (m : Method) (p : list string)
    (r : Route) (params : list string) :
  find_route routes m p = Some (r, params) → route_method r = m.
Proof.
  induction routes as [|x routes IH]; cbn; [discriminate|].
  destruct (method_eqb (route_method x) m) eqn:Hm.
  - destruct (match_path (route_path x) p).
    + intros H. injection H as <- _.
      destruct (route_method x), m; (reflexivity || discriminate).
    + apply IH.
  - apply IH.
Qed.

Section Reads.
Context {P : Platform} (cfg : Config) (env : Env).

Lemma reads_only_get (r : Route) (req : Request) (ctx : Ctx) :
  In r app_routes → route_method r = GET →
  respects reads_only
    (run cfg env (route_guards r) (route_endpoint r) req ctx).
Proof.
  intros Hin Hget. cbv in Hin.
  repeat (destruct Hin as [<-|Hin]; [try discriminate Hget|]);
    try (destruct Hin);
    cbn [run route_guards route_endpoint route guard handler];
    unfold Auth.authenticateRequest, Auth.requirePermission, Auth.active_key,
      Auth.list_keys,
      Devices.list_devices, Devices.me, Devices.get_device, Devices.stats,
      Devices.discover, DeviceManager.getDevices, DeviceManager.getDevice,
      Files.list_files, Files.download_file, Files.file_info, Files.live_file,
      Files.setHeader;
    respects_auto reads_prim.
Qed.

Lemma reads_only_serve (req : Request) :
  method req = GET → respects reads_only (serve cfg env req).
Proof.
  intros Hget. unfold serve.
  destruct (find_route app_routes (method req) (path req)) as [[r params]|]
    eqn:Hroute; [|apply respects_ret; apply _].
  apply reads_only_get.
  - apply (find_route_In _ _ _ _ _ Hroute).
  - rewrite (find_route_method _ _ _ _ _ Hroute). exact Hget.
Qed.

End Reads.

(** X18: GET requests only read.  Whatever the path, the keys presented and
    the state, a sequence of GET requests leaves the devices, the API keys
    and the disk as they were and the files table with the same records in
    the same order; the one column that may differ is a download count. *)
Theorem get_requests_only_read {P : Platform} (cfg : Config)
    (trace : list (Env * Request)) (w : World) :
  Forall (λ step, method step.2 = GET) trace →
  reads_only w (replay cfg trace w).
Proof.
  intros Hget. revert w. unfold replay.
  induction Hget as [|step trace Hstep _ IH]; intros w; cbn [foldl].
  - reflexivity.
  - transitivity (serve_world cfg step.1 step.2 w); [|apply IH].
    apply (reads_only_serve cfg step.1 step.2 Hstep w).
Qed.

Lemma get_requests_only_read_witness :
  let r := Sample.record None false in
  let w := shelf r sealed_hello in
  let trace := [(Sample.clock Sample.morning, Sample.request GET ["files"; "f1"]);
                (Sample.clock Sample.afternoon, Sample.request GET ["auth"; "api-keys"])] in
  reads_only w (replay (P := Sample.platform) Sample.config trace w)
  ∧ map File.download_count
      (files (replay (P := Sample.platform) Sample.config trace w)) = [1].
Proof.
  intros r w trace. split; [|reflexivity].
  apply (get_requests_only_read (P := Sample.platform) Sample.config trace w).
  repeat constructor.
Defined.

(** ** The configured API key *)
Section InitialKey.
Context {P : Platform} (cfg : Config) (env : Env).

Lemma initial_key_inserted (key : string) (w : World) :
  key ≠ EmptyString →
  (∀ r, r ∈ api_keys w →
     ApiKey.key_hash r ≠ EncryptionService.hashApiKey key) →
  uuid_key env ∉ map ApiKey.id (api_keys w) →
  Index.initial_api_key cfg env (Some key) w
  = (Ok tt,
     with_api_keys
       (api_keys w
        ++ [{| ApiKey.id := uuid_key env;
               ApiKey.key_hash := EncryptionService.hashApiKey key;
               ApiKey.device_id := deviceId cfg;
               ApiKey.permissions := "read,write";
               ApiKey.created_at := SQLite.datetime (now env);
               ApiKey.expires_at := None; ApiKey.is_active := true |}]) w).
Proof.
  intros Hkey Hnew Hfresh. unfold Index.initial_api_key.
  rewrite (truthy_Some _ Hkey). munfold. cbn [default].
  rewrite find_none_all.
  - unfold db.insert_api_key. cbn [fst snd ApiKey.id].
    rewrite (fresh_key_id _ _ Hfresh). reflexivity.
  - intros r Hr. apply String.eqb_neq, Hnew, Hr.
Qed.

Lemma initial_key_present (key : string) (w : World) (k : ApiKey.row) :
  k ∈ api_keys w → ApiKey.key_hash k = EncryptionService.hashApiKey key →
  Index.initial_api_key cfg env (Some key) w = (Ok tt, w).
Proof.
  intros Hk Hhash. unfold Index.initial_api_key.
  destruct (JS.truthy (Some key)); [|reflexivity]. munfold. cbn [default].
  destruct (List.find _ (api_keys w)) as [r|] eqn:Hfind; [reflexivity|].
  exfalso. apply list_elem_of_In in Hk.
  pose proof (find_none _ _ Hfind k Hk) as Hno. cbv beta in Hno.
  rewrite Hhash, String.eqb_refl in Hno. discriminate.
Qed.

End InitialKey.

(** X19: a server started with API_KEY set to a key whose hash the table
    does not hold appends one row to the key table, an active key of the
    node's own device with the permissions read and write and no expiry,
    and changes nothing else: the rows the table held, the devices, the
    files and the disk are as they were.  From then on a request that
    presents the key passes [authenticateRequest] as that principal, at any
    time. *)
Theorem configured_key_is_admitted {P : Platform} (cfg : Config)
    (env env' : Env) (key : string) (req : Request) (ctx : Ctx) (w : World) :
  key ≠ EmptyString →
  (∀ r, r ∈ api_keys w →
     ApiKey.key_hash r ≠ EncryptionService.hashApiKey key) →
  uuid_key env ∉ map ApiKey.id (api_keys w) →
  Auth.presented_key req = Some key →
  ∃ w',
    Index.initial_api_key cfg env (Some key) w = (Ok tt, w')
    ∧ devices w' = devices w ∧ files w' = files w ∧ disk w' = disk w
    ∧ api_keys w'
      = api_keys w
        ++ [{| ApiKey.id := uuid_key env;
               ApiKey.key_hash := EncryptionService.hashApiKey key;
               ApiKey.device_id := deviceId cfg;
               ApiKey.permissions := "read,write";
               ApiKey.created_at := SQLite.datetime (now env);
               ApiKey.expires_at := None; ApiKey.is_active := true |}]
    ∧ Auth.authenticateRequest env' req ctx w'
      = (Ok (Continue (with_apiKey
               {| key_id := uuid_key env;
                  principal_device := deviceId cfg;
                  principal_permissions := ["read"; "write"] |} ctx)), w').
Proof.
  intros Hkey Hnew Hfresh Hreq.
  rewrite (initial_key_inserted cfg env key w Hkey Hnew Hfresh).
  eexists. split; [reflexivity|]. cbn [devices files disk api_keys with_api_keys].
  split; [reflexivity|]. split; [reflexivity|]. split; [reflexivity|].
  split; [reflexivity|].
  set (row := {| ApiKey.id := uuid_key env;
                 ApiKey.key_hash := EncryptionService.hashApiKey key;
                 ApiKey.device_id := deviceId cfg;
                 ApiKey.permissions := "read,write";
                 ApiKey.created_at := SQLite.datetime (now env);
                 ApiKey.expires_at := None; ApiKey.is_active := true |}).
  rewrite (authenticate_accepts env' req ctx _ row); [reflexivity| | |reflexivity].
  - rewrite Hreq. apply truthy_Some, Hkey.
  - rewrite Hreq. cbn [default]. unfold Auth.active_key, gets.
    cbn [api_keys with_api_keys]. f_equal. f_equal. apply find_app_last.
    + intros r Hr. apply andb_false_iff. left. apply String.eqb_neq, Hnew, Hr.
    + cbn. rewrite String.eqb_refl. reflexivity.
Qed.

Lemma configured_key_is_admitted_witness :
  let req := Sample.with_key "s3cret" (Sample.request GET ["devices"]) in
  ∃ w',
    Index.initial_api_key (P := Sample.platform) Sample.config
      (Sample.clock Sample.morning) (Some "s3cret") Sample.empty = (Ok tt, w')
    ∧ map ApiKey.permissions (api_keys w') = ["read,write"]
    ∧ Auth.authenticateRequest (P := Sample.platform)
        (Sample.clock Sample.afternoon) req (Sample.ctx_of "x") w'
      = (Ok (Continue (with_apiKey
               {| key_id := "u-key"; principal_device := "self";
                  principal_permissions := ["read"; "write"] |}
               (Sample.ctx_of "x"))), w').
Proof.
  intros req.
  destruct (configured_key_is_admitted (P := Sample.platform) Sample.config
              (Sample.clock Sample.morning) (Sample.clock Sample.afternoon)
              "s3cret" req (Sample.ctx_of "x") Sample.empty)
    as (w' & Hrun & _ & _ & _ & Hkeys & Hauth); try reflexivity.
  - discriminate.
  - intros r Hr. apply elem_of_nil in Hr as [].
  - apply not_elem_of_nil.
  - exists w'. split; [exact Hrun|]. split; [rewrite Hkeys; reflexivity|].
    exact Hauth.
Defined.

(** X20: revoking the configured key is not undone by a restart.  After a
    start that recorded the key of API_KEY, a DELETE of that key's id and a
    second start with the same API_KEY, the table is what the revocation
    left: the start finds the key's hash in the table, inserts nothing and
    does not reactivate the row, so a request presenting the configured key
    is answered 401 Invalid API key. *)
Theorem restart_keeps_the_configured_key_revoked {P : Platform} (cfg : Config)
    (env env2 env' : Env) (key : string) (req del : Request) (ctx at_key : Ctx)
    (w : World) :
  key ≠ EmptyString →
  (∀ r, r ∈ api_keys w →
     ApiKey.key_hash r ≠ EncryptionService.hashApiKey key) →
  uuid_key env ∉ map ApiKey.id (api_keys w) →
  Auth.presented_key req = Some key →
  param at_key = uuid_key env →
  let started := (Index.initial_api_key cfg env (Some key) w).2 in
  let revoked := (Auth.revoke del at_key started).2 in
  Index.initial_api_key cfg env2 (Some key) revoked = (Ok tt, revoked)
  ∧ Auth.authenticateRequest env' req ctx revoked
    = (Ok (Respond (error 401 "Invalid API key")), revoked).
Proof.
  intros Hkey Hnew Hfresh Hreq Hparam. cbv zeta.
  rewrite (initial_key_inserted cfg env key w Hkey Hnew Hfresh).
  unfold Auth.revoke, db.update_api_keys. munfold.
  cbn [fst snd api_keys with_api_keys].
  rewrite Hparam. unfold db.update_where.
  rewrite map_app. cbn [map ApiKey.id].
  rewrite String.eqb_refl. cbn [ApiKey.set_is_active].
  cbn [ApiKey.id ApiKey.key_hash ApiKey.device_id ApiKey.permissions
       ApiKey.created_at ApiKey.expires_at].
  match goal with
  | |- Index.initial_api_key _ _ _ ?w2 = _ ∧ _ => set (revoked := w2)
  end.
  split.
  - eapply initial_key_present.
    + unfold revoked. cbn [api_keys with_api_keys]. apply elem_of_app. right. left.
    + reflexivity.
  - unfold Auth.authenticateRequest, Auth.active_key. munfold.
    rewrite Hreq, (truthy_Some _ Hkey). cbn [negb default].
    rewrite find_none_all; [reflexivity|].
    intros r Hr. unfold revoked in Hr. cbn [api_keys with_api_keys] in Hr.
    apply elem_of_app in Hr as [Hr|Hr].
    + apply list_elem_of_fmap in Hr as (r0 & -> & Hr0).
      apply andb_false_iff. left.
      destruct (ApiKey.id r0 === uuid_key env);
        apply String.eqb_neq, (Hnew r0 Hr0).
    + apply list_elem_of_singleton in Hr as ->. apply andb_false_r.
Qed.

Lemma restart_keeps_the_configured_key_revoked_witness :
  let req := Sample.with_key "s3cret" (Sample.request GET ["devices"]) in
  let del := Sample.request DELETE ["auth"; "api-keys"; "u-key"] in
  let started := (Index.initial_api_key (P := Sample.platform) Sample.config
                    (Sample.clock Sample.morning) (Some "s3cret") Sample.empty).2 in
  let revoked := (Auth.revoke del (Sample.ctx_of "u-key") started).2 in
  Index.initial_api_key (P := Sample.platform) Sample.config
    (Sample.clock Sample.afternoon) (Some "s3cret") revoked = (Ok tt, revoked)
  ∧ Auth.authenticateRequest (P := Sample.platform)
      (Sample.clock Sample.afternoon) req (Sample.ctx_of "x") revoked
    = (Ok (Respond (error 401 "Invalid API key")), revoked).
Proof.
  intros req del.
  apply (restart_keeps_the_configured_key_revoked (P := Sample.platform)
           Sample.config (Sample.clock Sample.morning)
           (Sample.clock Sample.afternoon) (Sample.clock Sample.afternoon)
           "s3cret" req del (Sample.ctx_of "x") (Sample.ctx_of "u-key")
           Sample.empty); try reflexivity.
  - discriminate.
  - intros r Hr. apply elem_of_nil in Hr as [].
  - apply not_elem_of_nil.
Defined.

(** ** Listings *)

Lemma text_lt_asym (a b : string) :
  SQLite.text_lt a b = true → SQLite.text_lt b a = false.
Proof.
  unfold SQLite.text_lt. rewrite (String.compare_antisym a b).
  destruct (String.compare b a); cbn; congruence.
Qed.

Lemma descending_tail {A} (key : A → string) (x : A) (l : list A) :
  descending key (x :: l) = true → descending key l = true.
Proof.
  destruct l as [|y l]; [reflexivity|]. cbn [descending].
  intros H. apply andb_true_iff in H as [_ H]. exact H.
Qed.

Lemma descending_insert {A} (key : A → string) (x : A) (l : list A) :
  descending key l = true → descending key (db.insert_desc key x l) = true.
Proof.
  induction l as [|y l IH]; intros Hl; [reflexivity|].
  cbn [db.insert_desc]. destruct (SQLite.text_lt (key x) (key y)) eqn:Hxy.
  - specialize (IH (descending_tail key y l Hl)).
    destruct l as [|z l].
    + cbn. rewrite (text_lt_asym _ _ Hxy). reflexivity.
    + cbn [db.insert_desc] in *.
      destruct (SQLite.text_lt (key x) (key z)) eqn:Hxz.
      * cbn [descending] in Hl |- *. apply andb_true_iff in Hl as [Hyz _].
        rewrite Hyz. exact IH.
      * cbn [descending] in IH |- *. rewrite (text_lt_asym _ _ Hxy). exact IH.
  - cbn [descending] in Hl |- *. rewrite Hxy. exact Hl.
Qed.

Lemma descending_order_by {A} (key : A → string) (l : list A) :
  descending key (db.order_by_desc key l) = true.
Proof.
  induction l as [|x l IH]; [reflexivity|]. apply descending_insert, IH.
Qed.

Lemma descending_drop {A} (key : A → string) (n : nat) (l : list A) :
  descending key l = true → descending key (drop n l) = true.
Proof.
  revert l. induction n as [|n IH]; intros l Hl; [destruct l; exact Hl|].
  destruct l as [|x l]; [reflexivity|]. cbn [drop].
  apply IH, (descending_tail key x l Hl).
Qed.

Lemma descending_take {A} (key : A → string) (n : nat) (l : list A) :
  descending key l = true → descending key (take n l) = true.
Proof.
  revert l. induction n as [|n IH]; intros l Hl; [destruct l; reflexivity|].
  destruct l as [|x l]; [reflexivity|]. cbn [take].
  specialize (IH l (descending_tail key x l Hl)).
  destruct l as [|y l]; [destruct n; reflexivity|].
  destruct n as [|n]; [reflexivity|].
  cbn [take descending] in *. apply andb_true_iff in Hl as [Hxy _].
  rewrite Hxy. exact IH.
Qed.

Lemma descending_limit_offset {A} (key : A → string) (limit offset : Z)
    (l : list A) :
  descending key l = true →
  descending key (db.limit_offset limit offset l) = true.
Proof.
  intros Hl. unfold db.limit_offset. destruct (limit <? 0).
  - apply descending_drop, Hl.
  - apply descending_take, descending_drop, Hl.
Qed.

Lemma descending_map {A B} (f : A → B) (key : B → string) (l : list A) :
  descending key (map f l) = descending (λ x, key (f x)) l.
Proof.
  induction l as [|x l IH]; [reflexivity|].
  destruct l as [|y l]; [reflexivity|].
  cbn [map descending] in *. rewrite IH. reflexivity.
Qed.

Lemma limit_offset_length {A} (limit offset : Z) (l : list A) :
  0 ≤ limit → Z.of_nat (length (db.limit_offset limit offset l)) ≤ limit.
Proof.
  intros Hlimit. unfold db.limit_offset.
  destruct (limit <? 0) eqn:Hneg; [apply Z.ltb_lt in Hneg; lia|].
  rewrite length_take. lia.
Qed.

Lemma int64_value (n : option Z) (v : Z) : db.int64 n = Ok v → n = Some v.
Proof.
  unfold db.int64. destruct n as [n|]; [|discriminate].
  destruct (_ && _); [|discriminate]. congruence.
Qed.

(** X21: the listing of GET /api/files.  When it answers with a listing,
    every entry is a record of the table that is not deleted and that the
    query counts as not expired, of the device asked for when the query
    names one; entries come newest first; and there are at most [limit] of
    them, 50 when no limit is given (a negative limit lifts the bound).  A
    limit or an offset that does not parse to a number is answered with
    500 and changes nothing. *)
Theorem listing_is_filtered_ordered_and_bounded (env : Env) (req : Request)
    (ctx : Ctx) (w : World) :
  (∀ listing,
     (Files.list_files env req ctx w).1 = Ok (json (FilesBody listing)) →
     (∀ v, v ∈ listing →
        ∃ r, r ∈ files w ∧ File.is_deleted r = false
             ∧ Files.sql_not_expired env r = true
             ∧ view_id v = File.id r
             ∧ ∀ d, query req !! "deviceId" = Some d → d ≠ EmptyString →
                    view_deviceId v = d)
     ∧ descending view_uploadTime listing = true
     ∧ (query req !! "limit" = None → (length listing ≤ 50)%nat)
     ∧ (∀ s n, query req !! "limit" = Some s → JS.parseInt s = Some n →
               0 ≤ n → Z.of_nat (length listing) ≤ n))
  ∧ (∀ s, (query req !! "limit" = Some s ∨ query req !! "offset" = Some s) →
          JS.parseInt s = None →
          Files.list_files env req ctx w
          = (Ok (error 500 "Failed to list files"), w)).
Proof.
  split.
  - intros listing. unfold Files.list_files. munfold.
    destruct (db.int64 _) as [limit|] eqn:Hlimit; [|discriminate].
    apply int64_value in Hlimit.
    destruct (db.int64 _) as [offset|]; [|discriminate].
    cbn [fst]. intros Heq. injection Heq as <-.
    split; [|split; [|split]].
    + intros v Hv. apply list_elem_of_fmap in Hv as (row & -> & Hrow).
      apply limit_offset_elem, order_by_desc_elem in Hrow.
      apply list_elem_of_In, filter_In in Hrow as [Hrow Hp].
      apply list_elem_of_In, left_join_fst in Hrow.
      apply andb_true_iff in Hp as [Hp Hexp].
      apply andb_true_iff in Hp as [Hdel Hdev].
      exists row.1. split; [exact Hrow|].
      split; [apply negb_true_iff, Hdel|]. split; [exact Hexp|].
      split; [reflexivity|]. intros d Hd Hne. rewrite Hd in Hdev.
      rewrite (truthy_Some _ Hne) in Hdev. apply String.eqb_eq in Hdev.
      exact Hdev.
    + rewrite descending_map. apply descending_limit_offset.
      apply (descending_order_by (λ row : Files.joined, File.upload_time row.1)).
    + intros Hnone. rewrite Hnone in Hlimit. injection Hlimit as <-.
      rewrite length_map.
      apply Nat2Z.inj_le. apply (limit_offset_length 50). lia.
    + intros s n Hs Hn Hpos. rewrite Hs, Hn in Hlimit. injection Hlimit as <-.
      rewrite length_map. apply limit_offset_length, Hpos.
  - intros s Hs Hnan. unfold Files.list_files. munfold.
    destruct Hs as [Hs|Hs]; rewrite Hs, Hnan; cbn [db.int64].
    + reflexivity.
    + destruct (db.int64 _); reflexivity.
Qed.

Lemma listing_is_filtered_ordered_and_bounded_witness :
  let r := Sample.record None false in
  let req := Sample.request GET ["files"] in
  (Files.list_files (Sample.clock Sample.morning) req (Sample.ctx_of "x")
     (Sample.ledger r)).1
  = Ok (json (FilesBody [Files.view (r, None)]))
  ∧ descending view_uploadTime [Files.view (r, None)] = true
  ∧ (length [Files.view (r, None)] ≤ 50)%nat.
Proof.
  intros r req.
  destruct (listing_is_filtered_ordered_and_bounded
              (Sample.clock Sample.morning) req (Sample.ctx_of "x")
              (Sample.ledger r)) as [Hlisting _].
  destruct (Hlisting [Files.view (r, None)] eq_refl)
    as (_ & Hsorted & Hbound & _).
  split; [reflexivity|]. split; [exact Hsorted|]. apply Hbound. reflexivity.
Defined.

(** ** Routes that are never taken *)

(** X22: the handler of GET /discover in routes/devices.js is dead code.
    No method and path resolve to it: a GET of /api/devices/discover, in
    any letter case, is taken by the route GET /:deviceId declared before
    it, and so is answered by the device lookup behind the key check. *)
Theorem discover_is_never_reached (m : Method) (p : list string) (r : Route)
    (params : list string) :
  find_route app_routes m p = Some (r, params) →
  route_endpoint r ≠ DevicesDiscover
  ∧ (m = GET → (∃ a b, p = [a; b] ∧ lower a = "devices" ∧ lower b = "discover") →
     route_endpoint r = DevicesGet
     ∧ route_guards r = [AuthenticateRequest; RequirePermission "read"]).
Proof.
  intros Hroute. split.
  - destruct m; destruct p as [|a [|b [|c [|d p]]]]; cbn in Hroute;
      repeat match type of Hroute with
             | context [if ?b then _ else _] =>
                 destruct b eqn:?; cbn in Hroute
             end;
      try discriminate Hroute;
      try (injection Hroute as <- _; discriminate);
      match goal with
      | H : (?s === EmptyString) = true, H' : (lower ?s === _) = true |- _ =>
          apply String.eqb_eq in H; subst s; discriminate H'
      end.
  - intros -> (a & b & -> & Ha & Hb). cbn in Hroute.
    rewrite Ha, Hb in Hroute. cbn in Hroute.
    destruct (b === EmptyString) eqn:Hempty.
    + apply String.eqb_eq in Hempty. subst b. discriminate Hb.
    + cbn in Hroute. injection Hroute as <- _. split; reflexivity.
Qed.

Lemma discover_is_never_reached_witness :
  let r := route GET [Lit "devices"; Param]
             [AuthenticateRequest; RequirePermission "read"] DevicesGet in
  find_route app_routes GET ["Devices"; "DISCOVER"] = Some (r, ["DISCOVER"])
  ∧ route_endpoint r ≠ DevicesDiscover
  ∧ route_guards r = [AuthenticateRequest; RequirePermission "read"].
Proof.
  intros r.
  destruct (discover_is_never_reached GET ["Devices"; "DISCOVER"] r ["DISCOVER"]
              eq_refl) as [Hdead Hget].
  split; [reflexivity|]. split; [exact Hdead|].
  apply Hget; [reflexivity|]. exists "Devices", "DISCOVER". repeat split.
Defined.

(** ** Expiry of an upload *)


Section UploadExpiry.
Context {P : Platform} (cfg : Config) (env : Env).




End UploadExpiry.



(** ** The anonymous uploader *)



(** ** Device views *)

Lemma insert_desc_perm {A} (key : A → string) (x : A) (l : list A) :
  db.insert_desc key x l ≡ₚ x :: l.
Proof.
  induction l as [|y l IH]; [reflexivity|]. cbn [db.insert_desc].
  destruct (SQLite.text_lt (key x) (key y)); [|reflexivity].
  rewrite IH. apply Permutation_swap.
Qed.

Lemma order_by_desc_perm {A} (key : A → string) (l : list A) :
  db.order_by_desc key l ≡ₚ l.
Proof.
  induction l as [|x l IH]; [reflexivity|].
  unfold db.order_by_desc in *. cbn [foldr].
  rewrite insert_desc_perm, IH. reflexivity.
Qed.

Lemma find_device_by_id (rows : list Device.row) (d : Device.row) :
  NoDup (map Device.id rows) → d ∈ rows →
  List.find (λ r, Device.id r === Device.id d) rows = Some d.
Proof.
  intros Hnd Hd.
  destruct (device_id_found rows (Device.id d)) as [d' Hfind].
  { apply list_elem_of_fmap. eauto. }
  rewrite Hfind. f_equal.
  pose proof (find_some _ _ Hfind) as [Hin Hid]. apply String.eqb_eq in Hid.
  apply (NoDup_fmap_elem_inj Device.id rows); try assumption.
  apply list_elem_of_In, Hin.
Qed.

(** X25: the device views.  GET /api/devices, past its guards, shows every
    device row exactly once, latest sighting first, and flags as self the
    rows under the node's own id and no others.  GET /api/devices/:deviceId
    shows the same view of the row under that id and answers 404 for an id
    the table does not hold.  Neither changes anything. *)
Theorem device_views_show_the_table (cfg : Config) (req : Request) (ctx : Ctx)
    (w : World) :
  (∃ listing,
     Devices.list_devices cfg req ctx w = (Ok (json (DevicesBody listing)), w)
     ∧ listing ≡ₚ map (Devices.view cfg) (devices w)
     ∧ descending dv_lastSeen listing = true
     ∧ ∀ v, v ∈ listing → (dv_isSelf v = true ↔ dv_id v = deviceId cfg))
  ∧ (∀ d, NoDup (map Device.id (devices w)) → d ∈ devices w →
          param ctx = Device.id d →
          Devices.get_device cfg req ctx w
          = (Ok (json (DeviceBody (Devices.view cfg d))), w))
  ∧ (param ctx ∉ map Device.id (devices w) →
     Devices.get_device cfg req ctx w = (Ok (error 404 "Device not found"), w)).
Proof.
  split; [|split].
  - eexists. split; [reflexivity|]. split; [|split].
    + apply fmap_Permutation, order_by_desc_perm.
    + rewrite descending_map.
      apply (descending_order_by Device.last_seen).
    + intros v Hv. apply list_elem_of_fmap in Hv as (d & -> & _).
      cbn [Devices.view dv_isSelf dv_id]. apply String.eqb_eq.
  - intros d Hnd Hd Hparam. unfold Devices.get_device, DeviceManager.getDevice.
    munfold. rewrite Hparam, (find_device_by_id _ _ Hnd Hd). reflexivity.
  - intros Hunknown. unfold Devices.get_device, DeviceManager.getDevice.
    munfold. rewrite find_none_all; [reflexivity|].
    apply device_id_unknown, Hunknown.
Qed.

Lemma device_views_show_the_table_witness :
  let w := fleet [sample_device "self" "host" true; sample_device "d1" "phone" false] in
  Devices.get_device Sample.config (Sample.request GET ["devices"; "d1"])
    (Sample.ctx_of "d1") w
  = (Ok (json (DeviceBody (Devices.view Sample.config
                             (sample_device "d1" "phone" false)))), w)
  ∧ Devices.get_device Sample.config (Sample.request GET ["devices"; "d2"])
      (Sample.ctx_of "d2") w
    = (Ok (error 404 "Device not found"), w).
Proof.
  intros w. split.
  - apply (device_views_show_the_table Sample.config
             (Sample.request GET ["devices"; "d1"]) (Sample.ctx_of "d1") w);
      [|right; left|reflexivity].
    apply (bool_decide_unpack _). vm_compute. exact I.
  - apply (device_views_show_the_table Sample.config
             (Sample.request GET ["devices"; "d2"]) (Sample.ctx_of "d2") w).
    apply (bool_decide_unpack _). vm_compute. exact I.
Defined.

(** ** Device statistics *)

Lemma filter_length_le {A} (p : A → bool) (l : list A) :
  (length (List.filter p l) ≤ length l)%nat.
Proof.
  induction l as [|x l IH]; [reflexivity|]. cbn.
  destruct (p x); cbn; lia.
Qed.

(** X26: GET /api/devices/:deviceId/stats, past its guards, answers 200 for
    every id, registered or not, and changes nothing.  It counts the
    records of that device that are not deleted; the number of active files
    never exceeds the number of files, which never exceeds the table; and
    for a device with no such record (all deleted, or none at all) the
    counts and sums are 0 and the last upload is null. *)
Theorem stats_count_live_records (env : Env) (req : Request) (ctx : Ctx)
    (w : World) :
  ∃ total size downloads last active,
    Devices.stats env req ctx w
    = (Ok (json (StatsBody (param ctx) total size downloads last active)), w)
    ∧ total = Z.of_nat (length (List.filter
                (λ f, (File.device_id f === param ctx)
                      && negb (File.is_deleted f)) (files w)))
    ∧ 0 ≤ active ≤ total ∧ total ≤ Z.of_nat (length (files w))
    ∧ ((∀ f, f ∈ files w → File.device_id f = param ctx →
             File.is_deleted f = true) →
       total = 0 ∧ size = 0 ∧ downloads = 0 ∧ last = None ∧ active = 0).
Proof.
  unfold Devices.stats. munfold.
  do 5 eexists. split; [reflexivity|]. split; [reflexivity|].
  split; [|split].
  - pose proof (filter_length_le
                  (λ f, match File.expires_at f with
                        | None => true
                        | Some _ => Devices.sql_expires_after_now env f
                        end)
                  (List.filter (λ f, (File.device_id f === param ctx)
                                     && negb (File.is_deleted f)) (files w))).
    lia.
  - pose proof (filter_length_le
                  (λ f, (File.device_id f === param ctx)
                        && negb (File.is_deleted f)) (files w)).
    lia.
  - intros Hnone. rewrite filter_all_nil; [repeat split|].
    intros f Hf. destruct (File.device_id f === param ctx) eqn:Hid;
      [|reflexivity].
    apply String.eqb_eq in Hid. rewrite (Hnone f Hf Hid). reflexivity.
Qed.

Lemma stats_count_live_records_witness :
  let r := Sample.record None true in
  Devices.stats (Sample.clock Sample.morning)
    (Sample.request GET ["devices"; "d1"; "stats"]) (Sample.ctx_of "d1")
    (Sample.ledger r)
  = (Ok (json (StatsBody "d1" 0 0 0 None 0)), Sample.ledger r).
Proof.
  intros r.
  destruct (stats_count_live_records (Sample.clock Sample.morning)
              (Sample.request GET ["devices"; "d1"; "stats"])
              (Sample.ctx_of "d1") (Sample.ledger r))
    as (total & size & downloads & last & active & Hrun & _ & _ & _ & Hzero).
  destruct Hzero as (-> & -> & -> & -> & ->); [|exact Hrun].
  intros f Hf _. apply list_elem_of_singleton in Hf as ->. reflexivity.
Defined.
